(** * arc-spa-csp: environment resolution, HTML detection and CSP injection

    A shallow embedding of the core of the arc-spa-csp package
    (src/utils/config-loader.ts, src/utils/html-detector.ts,
    src/utils/node-env-manager.ts, src/utils/project-detection.ts,
    src/utils/environment.ts and src/csp-injector.ts) and of its command
    line (src/cli.ts: the argument parser, the dry run and the
    configuration wizard), together with the properties its specification
    states about it and further properties read off the code.

    Conventions of the embedding.
    - A JavaScript string is a [string]; each [ascii] stands for one code
      unit below 256, so the development speaks about Latin-1 texts.
    - [EnvironmentVariables] objects are finite maps from names to strings
      ([gmap string string]): the own properties of the object. A slot
      holding [undefined] is the same as a missing slot. What an object
      inherits from [Object.prototype] is not part of the map: a read
      [envVars[name]] with a computed name goes through [Js.member], which
      looks behind the map, and an assignment [envVars[name] = value]
      whose name can be [__proto__] stores nothing under that name
      ([Js.assign_member]); where the name carries a framework prefix the
      assignment is an insertion. The order in which [Object.keys] lists
      the keys is not part of the map either; it is the host's
      [Object_keys].
    - Values produced by [JSON.parse] and configuration objects are trees of
      type [json]; objects keep their fields in insertion order (keys that
      look like array indices are not moved to the front).
    - The process (working directory, file system, [process.env]) is a
      record [World]; functions that throw return [Throw].
    - Node's [path], [JSON.parse], [crypto.randomBytes] and [Object.keys]
      are the fields of the class [Host].
    - What the command line prints is not modelled; [process.exit] is an
      ending of its own next to returning and throwing. *)

From Stdlib Require Import String Ascii List ZArith Lia Bool.
From stdpp Require Import base option list strings gmap fin_maps.

Local Open Scope string_scope.
Local Open Scope list_scope.
#[local] Set Warnings "-register-all".

(** ** Code units and character classes *)

Module Js.

Definition code (c : ascii) : nat := nat_of_ascii c.

(** [\s] on code units below 256: TAB, LF, VT, FF, CR, SP and NBSP. It is
    also the set [String.prototype.trim] removes. *)
Definition is_space (c : ascii) : bool :=
  let n := code c in
  (((9 <=? n) && (n <=? 13)) || (n =? 32) || (n =? 160))%nat.

Definition is_upper (c : ascii) : bool :=
  let n := code c in ((65 <=? n) && (n <=? 90))%nat.

Definition is_lower (c : ascii) : bool :=
  let n := code c in ((97 <=? n) && (n <=? 122))%nat.

Definition is_digit (c : ascii) : bool :=
  let n := code c in ((48 <=? n) && (n <=? 57))%nat.

(** [\w] is [[A-Za-z0-9_]]. *)
Definition is_word (c : ascii) : bool :=
  is_upper c || is_lower c || is_digit c || (code c =? 95)%nat.

(** Line terminators below 256; [.] matches everything else. *)
Definition is_line_terminator (c : ascii) : bool :=
  ((code c =? 10) || (code c =? 13))%nat.

Definition is_dot (c : ascii) : bool := negb (is_line_terminator c).

Definition is_quote (c : ascii) : bool :=
  ((code c =? 34) || (code c =? 39))%nat.

Definition eqc (a b : ascii) : bool := Ascii.eqb a b.

(** [toUpperCase] on the letters [a-z]; the other code units that
    [\w] admits are fixed by it. *)
Definition upper_char (c : ascii) : ascii :=
  if is_lower c then ascii_of_nat (code c - 32) else c.

Fixpoint toUpperCase (s : string) : string :=
  match s with
  | EmptyString => EmptyString
  | String c t => String (upper_char c) (toUpperCase t)
  end.

(** Equality of code units under the [i] flag (no [u] flag): both sides
    are canonicalised with [upper_char]. *)
Definition eqc_ci (a b : ascii) : bool :=
  Ascii.eqb (upper_char a) (upper_char b).

(** *** Prefixes, spans and trimming *)

Fixpoint drop (n : nat) (s : string) : string :=
  match n, s with
  | O, _ => s
  | S k, EmptyString => EmptyString
  | S k, String _ t => drop k t
  end.

Fixpoint take (n : nat) (s : string) : string :=
  match n, s with
  | O, _ => EmptyString
  | S k, EmptyString => EmptyString
  | S k, String c t => String c (take k t)
  end.

(** [strip_lit eq lit s] removes the literal [lit] from the front of [s],
    comparing code units with [eq]. *)
Fixpoint strip_lit (eq : ascii -> ascii -> bool) (lit s : string)
  : option string :=
  match lit with
  | EmptyString => Some s
  | String a lit' =>
      match s with
      | String b s' => if eq a b then strip_lit eq lit' s' else None
      | EmptyString => None
      end
  end.

Definition startsWith (s p : string) : bool :=
  match strip_lit eqc p s with Some _ => true | None => false end.

(** The longest prefix whose code units satisfy [p], as a count. *)
Fixpoint span_len (p : ascii -> bool) (s : string) : nat :=
  match s with
  | String c t => if p c then S (span_len p t) else O
  | EmptyString => O
  end.

Definition skip (p : ascii -> bool) (s : string) : string :=
  drop (span_len p s) s.

Definition is_empty (s : string) : bool :=
  match s with EmptyString => true | _ => false end.

Fixpoint all_chars (p : ascii -> bool) (s : string) : bool :=
  match s with
  | EmptyString => true
  | String c t => p c && all_chars p t
  end.

Fixpoint trimEnd (s : string) : string :=
  match s with
  | EmptyString => EmptyString
  | String c t =>
      let r := trimEnd t in
      if is_empty r && is_space c then EmptyString else String c r
  end.

Definition trim (s : string) : string := trimEnd (skip is_space s).

(** [s.split(sep)] for a one-unit separator: always at least one part. *)
Fixpoint split_on (sep : ascii) (s : string) : list string :=
  match s with
  | EmptyString => [EmptyString]
  | String c t =>
      if eqc c sep then EmptyString :: split_on sep t
      else match split_on sep t with
           | p :: ps => String c p :: ps
           | [] => [String c EmptyString]
           end
  end.

Fixpoint join (sep : string) (l : list string) : string :=
  match l with
  | [] => EmptyString
  | [x] => x
  | x :: xs => x +:+ sep +:+ join sep xs
  end.

Fixpoint concat_all (l : list string) : string :=
  match l with
  | [] => EmptyString
  | x :: xs => x +:+ concat_all xs
  end.

Fixpoint last_char (s : string) : option ascii :=
  match s with
  | EmptyString => None
  | String c EmptyString => Some c
  | String _ t => last_char t
  end.

Fixpoint drop_last (s : string) : string :=
  match s with
  | EmptyString => EmptyString
  | String c EmptyString => EmptyString
  | String c t => String c (drop_last t)
  end.

(** *** Regular-expression drivers

    A matcher looks at the text from the current position on and
    returns the captured data with the length of the match. *)

Definition matcher (G : Type) : Type := string -> option (G * nat).

Inductive piece (G : Type) : Type :=
| Lit (c : ascii)
| Hit (g : G) (matched : string).
Arguments Lit {G} c.
Arguments Hit {G} g matched.

(** The left-to-right walk of a [g]-flagged regular expression over a
    text: at each position not inside an earlier match the matcher is
    tried; after a match the walk resumes behind it. [pending] counts the
    code units of the current match still to be passed. *)
Fixpoint scan_from {G} (m : matcher G) (pending : nat) (s : string)
  : list (piece G) :=
  match s with
  | EmptyString =>
      match pending with
      | O => match m EmptyString with
             | Some (g, _) => [Hit g EmptyString]
             | None => []
             end
      | S _ => []
      end
  | String c t =>
      match pending with
      | S k => scan_from m k t
      | O =>
          match m s with
          | Some (g, O) => Hit g EmptyString :: Lit c :: scan_from m O t
          | Some (g, S k) => Hit g (take (S k) s) :: scan_from m k t
          | None => Lit c :: scan_from m O t
          end
      end
  end.

Definition scan {G} (m : matcher G) (s : string) : list (piece G) :=
  scan_from m O s.

(** [s.replace(re, f)] for a global [re] and a replacer function. *)
Definition render {G} (f : G -> string -> string) (p : piece G) : string :=
  match p with
  | Lit c => String c EmptyString
  | Hit g matched => f g matched
  end.

Definition replace_all {G} (m : matcher G) (f : G -> string -> string)
  (s : string) : string :=
  concat_all (map (render f) (scan m s)).

(** The successive results of [re.exec] in a loop. *)
Fixpoint hits {G} (l : list (piece G)) : list (G * string) :=
  match l with
  | [] => []
  | Lit _ :: r => hits r
  | Hit g matched :: r => (g, matched) :: hits r
  end.

(** The first match of a regular expression without the [g] flag:
    the text before it, the captures, the matched text, the text after. *)
Fixpoint search {G} (m : matcher G) (s : string)
  : option (string * G * string * string) :=
  match m s with
  | Some (g, n) => Some (EmptyString, g, take n s, drop n s)
  | None =>
      match s with
      | EmptyString => None
      | String c t =>
          match search m t with
          | Some (before, g, matched, after) =>
              Some (String c before, g, matched, after)
          | None => None
          end
      end
  end.

(** Whether a predicate on texts holds at some position of [s], the end
    included. *)
Fixpoint any_suffix (p : string -> bool) (s : string) : bool :=
  p s ||
  match s with
  | EmptyString => false
  | String _ t => any_suffix p t
  end.

Fixpoint rev_onto (s acc : string) : string :=
  match s with
  | EmptyString => acc
  | String c t => rev_onto t (String c acc)
  end.

Definition rev (s : string) : string := rev_onto s EmptyString.

Fixpoint includes_char (c : ascii) (s : string) : bool :=
  match s with
  | EmptyString => false
  | String d t => eqc c d || includes_char c t
  end.

(** *** Objects made by an object literal

    Such an object inherits from [Object.prototype]. A read of a name that
    is not an own property finds what the prototype has under that name: a
    built-in function, or, under [__proto__], the prototype itself. The
    texts are what [String(value)] gives in Node. *)

Definition native (name : string) : string :=
  "function " +:+ name +:+ "() { [native code] }".

Definition prototype_functions : list string :=
  ["hasOwnProperty"; "isPrototypeOf"; "propertyIsEnumerable"; "toLocaleString";
   "toString"; "valueOf"; "__defineGetter__"; "__defineSetter__";
   "__lookupGetter__"; "__lookupSetter__"].

Definition inherited (name : string) : option string :=
  if String.eqb name "__proto__" then Some "[object Object]"
  else if String.eqb name "constructor" then Some (native "Object")
  else if existsb (String.eqb name) prototype_functions then Some (native name)
  else None.

(** [envVars[name]], as a text: the own property, else the inherited
    one. *)
Definition member (envVars : gmap string string) (name : string) : option string :=
  match envVars !! name with
  | Some value => Some value
  | None => inherited name
  end.

(** [envVars[name] = value] for a text [value], on an object that was made
    by [{}] and is written by assignments only. The name [__proto__]
    reaches the setter of [Object.prototype], which ignores a text: no
    property is made. *)
Definition assign_member (name value : string) (envVars : gmap string string)
  : gmap string string :=
  if String.eqb name "__proto__" then envVars else <[name := value]> envVars.

End Js.

(** ** Values, exceptions and the process *)

(** What [JSON.parse] produces, and what configuration objects are made
    of. Numbers are the integers (nonce lengths are the only numbers the
    package reads). *)
Inductive json : Type :=
| JNull
| JBool (b : bool)
| JNum (n : Z)
| JStr (s : string)
| JArr (items : list json)
| JObj (fields : list (string * json)).

(** A call either returns or throws. *)
Inductive outcome (A : Type) : Type :=
| Ok (a : A)
| Throw (message : string).
Arguments Ok {A} a.
Arguments Throw {A} message.

Definition obind {A B} (x : outcome A) (f : A -> outcome B) : outcome B :=
  match x with
  | Ok a => f a
  | Throw e => Throw e
  end.

Notation "'do' x <- m ; k" := (obind m (fun x => k))
  (at level 10, x name, m at level 100, k at level 200).

Definition returned {A} (x : outcome A) : bool :=
  match x with Ok _ => true | Throw _ => false end.

(** A file-system entry: a regular file with its text and whether it can
    be written, an entry that exists but cannot be read, or a directory
    with the names [readdirSync] lists. *)
Inductive node : Type :=
| File (content : string) (writable : bool)
| Unreadable
| Dir (entries : list string).

Record World : Type := mkWorld {
  cwd : string;
  fs : gmap string node;
  env : gmap string string;
}.

(** Node's [path] module, [JSON.parse], [crypto.randomBytes] and
    [Object.keys]. The functions of [path] that consult [process.cwd()]
    take it as their first argument. [Object.keys] lists the own keys of an
    [EnvironmentVariables] object, each once; their order, the one in which
    they were added to the object, is the host's to tell. *)
Class Host : Type := {
  path_join : list string -> string;
  path_resolve : string -> list string -> string;
  path_dirname : string -> string;
  path_relative : string -> string -> string -> string;
  path_normalize : string -> string;
  path_isAbsolute : string -> bool;
  JSON_parse : string -> option json;
  randomBytes_base64 : nat -> string;
  Object_keys : gmap string string -> list string;
  Object_keys_own : forall (envVars : gmap string string) (key : string),
    In key (Object_keys envVars) <-> is_Some (envVars !! key);
  Object_keys_once : forall envVars : gmap string string,
    NoDup (Object_keys envVars);
}.

Module Fs.
Section WithHost.
Context {H : Host}.

(** The entry a path leads to. The file system is keyed by absolute
    paths; a relative path is taken from the working directory. *)
Definition lookup (w : World) (p : string) : option node :=
  fs w !! path_resolve (cwd w) [p].

Definition existsSync (w : World) (p : string) : bool :=
  match lookup w p with Some _ => true | None => false end.

(** The message of a failed system call: the error, the call, and the
    path as it was given. *)
Definition failure (error call p : string) : string :=
  error +:+ ", " +:+ call +:+ " '" +:+ p +:+ "'".

Definition readFileSync (w : World) (p : string) : outcome string :=
  match lookup w p with
  | Some (File content _) => Ok content
  | Some Unreadable => Throw (failure "EACCES: permission denied" "open" p)
  | Some (Dir _) => Throw "EISDIR: illegal operation on a directory, read"
  | None => Throw (failure "ENOENT: no such file or directory" "open" p)
  end.

Definition readdirSync (w : World) (p : string) : outcome (list string) :=
  match lookup w p with
  | Some (Dir entries) => Ok entries
  | Some _ => Throw (failure "ENOTDIR: not a directory" "scandir" p)
  | None => Throw (failure "ENOENT: no such file or directory" "scandir" p)
  end.

(** [fs.statSync(p).isDirectory()] *)
Definition isDirectory (w : World) (p : string) : outcome bool :=
  match lookup w p with
  | Some (Dir _) => Ok true
  | Some _ => Ok false
  | None => Throw (failure "ENOENT: no such file or directory" "stat" p)
  end.

Definition writeFileSync (w : World) (p content : string) : outcome World :=
  match lookup w p with
  | Some (File _ true) | None =>
      Ok (mkWorld (cwd w)
            (<[path_resolve (cwd w) [p] := File content true]> (fs w)) (env w))
  | Some (File _ false) | Some Unreadable =>
      Throw (failure "EACCES: permission denied" "open" p)
  | Some (Dir _) =>
      Throw (failure "EISDIR: illegal operation on a directory" "open" p)
  end.

End WithHost.
End Fs.

(** ** JavaScript object operations on [json] values *)

Module Obj.

(** A value that may be [undefined]. *)
Definition value : Type := option json.

Definition truthy (v : value) : bool :=
  match v with
  | None | Some JNull | Some (JBool false) => false
  | Some (JNum n) => negb (n =? 0)%Z
  | Some (JStr s) => negb (Js.is_empty s)
  | Some _ => true
  end.

Fixpoint lookup_field {A} (k : string) (l : list (string * A)) : option A :=
  match l with
  | [] => None
  | (k', v) :: r => if String.eqb k k' then Some v else lookup_field k r
  end.

(** [o[k] = v] on an ordinary object: an existing field keeps its place. *)
Fixpoint set_field {A} (k : string) (v : A) (l : list (string * A))
  : list (string * A) :=
  match l with
  | [] => [(k, v)]
  | (k', v') :: r =>
      if String.eqb k k' then (k, v) :: r else (k', v') :: set_field k v r
  end.

Fixpoint remove_field {A} (k : string) (l : list (string * A))
  : list (string * A) :=
  match l with
  | [] => []
  | (k', v') :: r =>
      if String.eqb k k' then remove_field k r else (k', v') :: remove_field k r
  end.

(** [Object.assign(target, source)] and the spread [{...target, ...source}]. *)
Definition assign {A} (target source : list (string * A)) : list (string * A) :=
  fold_left (fun acc kv => set_field (fst kv) (snd kv) acc) source target.

Fixpoint digits_of (fuel n : nat) (acc : string) : string :=
  match fuel with
  | O => acc
  | S f =>
      let d := String (ascii_of_nat (48 + n mod 10)) acc in
      if (n <? 10)%nat then d else digits_of f (n / 10) d
  end.

Definition nat_to_string (n : nat) : string := digits_of (S n) n EmptyString.

Fixpoint indexed {A} (i : nat) (l : list A) : list (string * A) :=
  match l with
  | [] => []
  | x :: r => (nat_to_string i, x) :: indexed (S i) r
  end.

Fixpoint chars (s : string) : list json :=
  match s with
  | EmptyString => []
  | String c t => JStr (String c EmptyString) :: chars t
  end.

(** The own enumerable properties, as [Object.entries] and the spread
    operator see them; [null] and [undefined] have none under a spread. *)
Definition own_props (v : value) : list (string * json) :=
  match v with
  | Some (JObj fields) => fields
  | Some (JArr items) => indexed 0 items
  | Some (JStr s) => indexed 0 (chars s)
  | _ => []
  end.

(** [Object.entries(v)] and [Object.values(v)] throw on [null] and
    [undefined]. *)
Definition entries (v : value) : outcome (list (string * json)) :=
  match v with
  | None | Some JNull =>
      Throw "TypeError: Cannot convert undefined or null to object"
  | _ => Ok (own_props v)
  end.

(** [v.k] for a property name [k] that no prototype defines: reading from
    [null] or [undefined] throws. *)
Definition get (v : value) (k : string) : outcome value :=
  match v with
  | None | Some JNull =>
      Throw "TypeError: Cannot read properties of undefined or null"
  | Some (JObj fields) => Ok (lookup_field k fields)
  | Some _ => Ok None
  end.

(** [v?.k] *)
Definition get_opt (v : value) (k : string) : value :=
  match v with
  | Some (JObj fields) => lookup_field k fields
  | _ => None
  end.

Definition str_eq (v : value) (s : string) : bool :=
  match v with
  | Some (JStr t) => String.eqb t s
  | _ => false
  end.

Definition Z_to_string (n : Z) : string :=
  match n with
  | Z0 => "0"
  | Zpos q => nat_to_string (Pos.to_nat q)
  | Zneg q => "-" +:+ nat_to_string (Pos.to_nat q)
  end.

(** The text a value turns into inside a template literal. *)
Fixpoint to_string (v : json) : string :=
  match v with
  | JNull => "null"
  | JBool true => "true"
  | JBool false => "false"
  | JNum n => Z_to_string n
  | JStr s => s
  | JArr items =>
      Js.join ","
        (map (fun item => match item with JNull => EmptyString | _ => to_string item end)
             items)
  | JObj _ => "[object Object]"
  end.

End Obj.

(** ** src/constants.ts *)

Module Constants.

Definition ENV_PREFIXES_REACT : string := "REACT_APP_".
Definition ENV_PREFIXES_VITE : string := "VITE_".
Definition ENV_PREFIXES_ANGULAR : string := "NG_".
Definition ENVIRONMENT_FILES_ANGULAR_DEV : string := "environment.ts".
Definition ENVIRONMENT_FILES_ANGULAR_PROD : string := "environment.prod.ts".

(** [REGEX_PATTERNS.TEMPLATE_VARIABLE], a global pattern: two opening
    braces, the longest run of word characters (at least one), two closing
    braces. The capture is the name. *)
Definition TEMPLATE_VARIABLE : Js.matcher string := fun s =>
  match Js.strip_lit Js.eqc "{{" s with
  | Some t =>
      let n := Js.span_len Js.is_word t in
      match n with
      | O => None
      | S _ =>
          match Js.strip_lit Js.eqc "}}" (Js.drop n t) with
          | Some _ => Some (Js.take n t, n + 4)
          | None => None
          end
      end
  | None => None
  end.

Definition is_key_start (c : ascii) : bool :=
  Js.is_upper c || Js.is_lower c || (Js.code c =? 95)%nat.

(** [REGEX_PATTERNS.ENV_FILE_LINE], anchored at both ends of the line: a
    name (a letter or underscore, then word characters), optional white
    space, an equals sign, optional white space, and the rest of the line
    without line terminators. The captures are the name and the value. *)
Definition ENV_FILE_LINE (line : string) : option (string * string) :=
  match line with
  | String c t =>
      if is_key_start c then
        let n := Js.span_len Js.is_word t in
        match Js.skip Js.is_space (Js.drop n t) with
        | String eq r =>
            if Js.eqc eq "="%char then
              let v := Js.skip Js.is_space r in
              if Js.all_chars Js.is_dot v
              then Some (String c (Js.take n t), v)
              else None
            else None
        | EmptyString => None
        end
      else None
  | EmptyString => None
  end.

Definition not_close_brace (c : ascii) : bool := negb (Js.eqc c "}"%char).

(** [REGEX_PATTERNS.ENVIRONMENT_EXPORT]: the words [export], [const] and
    [environment] separated by white space, an equals sign, an opening
    brace, at least one code unit other than a closing brace, and the
    closing brace. The capture is the text between the braces; the function
    returns it with what is left behind the match. *)
Definition environment_export_at (s : string) : option (string * string) :=
  s1 ← Js.strip_lit Js.eqc "export" s;
  (if (Js.span_len Js.is_space s1 =? 0)%nat then None else Some tt) ≫= fun _ =>
  s2 ← Js.strip_lit Js.eqc "const" (Js.skip Js.is_space s1);
  (if (Js.span_len Js.is_space s2 =? 0)%nat then None else Some tt) ≫= fun _ =>
  s3 ← Js.strip_lit Js.eqc "environment" (Js.skip Js.is_space s2);
  s4 ← Js.strip_lit Js.eqc "=" (Js.skip Js.is_space s3);
  s5 ← Js.strip_lit Js.eqc "{" (Js.skip Js.is_space s4);
  let n := Js.span_len not_close_brace s5 in
  (if (n =? 0)%nat then None else Some tt) ≫= fun _ =>
  s6 ← Js.strip_lit Js.eqc "}" (Js.drop n s5);
  Some (Js.take n s5, s6).

Definition ENVIRONMENT_EXPORT : Js.matcher string := fun s =>
  match environment_export_at s with
  | Some (body, rest) => Some (body, String.length s - String.length rest)
  | None => None
  end.

End Constants.

(** ** src/utils/config-loader.ts: the template resolver *)

Module ConfigLoader.

(** [resolveTemplateVariables(template, envVars)]: one pass of
    [template.replace(TEMPLATE_VARIABLE, (match, varName) =>
    envVars[varName] ?? match)]. A [replace] with a global pattern starts
    by setting the pattern's [lastIndex] to 0 and ends with it at 0, so the
    shared pattern carries no state through this function. *)
Definition resolveTemplateVariables (template : string)
  (envVars : gmap string string) : string :=
  Js.replace_all Constants.TEMPLATE_VARIABLE
    (fun varName matched =>
       match Js.member envVars varName with
       | Some replacement => replacement
       | None => matched
       end)
    template.

End ConfigLoader.

(** ** src/utils/project-detection.ts *)

Module ProjectDetection.
Section WithHost.
Context {H : Host}.

Definition hasAngularEnvironmentFiles (w : World) (projectRoot : string) : bool :=
  Fs.existsSync w (path_join [projectRoot; "src"; "environments"])
  || Fs.existsSync w (path_join [projectRoot; "projects"]).

Definition isAngularProject (w : World) (projectRoot : string) : bool :=
  let hasAngularConfig :=
    Fs.existsSync w (path_join [projectRoot; "angular.json"])
    || Fs.existsSync w (path_join [projectRoot; ".angular-cli.json"]) in
  if hasAngularConfig then true else hasAngularEnvironmentFiles w projectRoot.

(** The body of the [try] block of [isReactProject]; every exception is
    caught by the caller and turned into [false]. *)
Definition isReactProject_try (w : World) (projectRoot : string) : outcome bool :=
  let packageJsonPath := path_join [projectRoot; "package.json"] in
  if negb (Fs.existsSync w packageJsonPath) then Ok false else
  do packageJsonContent <- Fs.readFileSync w packageJsonPath;
  match JSON_parse packageJsonContent with
  | None => Throw "SyntaxError: invalid JSON"
  | Some packageJson =>
      do dependencies <- Obj.get (Some packageJson) "dependencies";
      do devDependencies <- Obj.get (Some packageJson) "devDependencies";
      let deps :=
        Obj.assign (Obj.assign [] (Obj.own_props dependencies))
                   (Obj.own_props devDependencies) in
      Ok (match Obj.lookup_field "react" deps, Obj.lookup_field "@types/react" deps with
          | None, None => false
          | _, _ => true
          end)
  end.

Definition isReactProject (w : World) (projectRoot : string) : bool :=
  match isReactProject_try w projectRoot with
  | Ok b => b
  | Throw _ => false
  end.

End WithHost.
End ProjectDetection.

(** ** src/utils/environment.ts *)

Module Environment.

(** [getNodeEnv], [isProduction] *)
Definition getNodeEnv (w : World) : option string := env w !! "NODE_ENV".

Definition isProduction (w : World) : bool :=
  match getNodeEnv w with
  | Some v => String.eqb v "production"
  | None => false
  end.

(** The last test of [isValidEnvironmentValue]: an optional quote, white
    space, an optional quote, and nothing else. *)
Definition quote_artifact (value : string) : bool :=
  let drop_quote (s : string) :=
    match s with
    | String c t => if Js.is_quote c then t else s
    | EmptyString => s
    end in
  Js.is_empty (drop_quote (Js.skip Js.is_space (drop_quote value))).

(** [isValidEnvironmentValue] on a string. *)
Definition isValidEnvironmentValue (value : string) : bool :=
  negb (Js.is_empty value)
  && negb (Js.is_empty (Js.trim value))
  && negb (String.eqb value "undefined")
  && negb (String.eqb value "null")
  && negb (quote_artifact value).

(** The pattern of the first replacement in [camelCaseToUpperCase]: one
    upper-case letter, captured. *)
Definition upper_letter : Js.matcher string := fun s =>
  match s with
  | String c _ => if Js.is_upper c then Some (String c EmptyString, 1) else None
  | EmptyString => None
  end.

(** [camelCaseToUpperCase]: an underscore before every upper-case letter,
    upper-casing, and one leading underscore removed. *)
Definition camelCaseToUpperCase (str : string) : string :=
  let underscored :=
    Js.replace_all upper_letter (fun letter _ => "_" +:+ letter) str in
  match Js.toUpperCase underscored with
  | String c t => if Js.eqc c "_"%char then t else String c t
  | EmptyString => EmptyString
  end.

(** [filterValidEnvironmentVariables]: the entries with a valid value are
    assigned to a new object, which stores nothing under [__proto__]. *)
Definition filterValidEnvironmentVariables (envVars : gmap string string)
  : gmap string string :=
  filter (fun kv => isValidEnvironmentValue kv.2
                    && negb (String.eqb kv.1 "__proto__") = true) envVars.

(** *** React and VITE *)

(** The replacement applied to a value in [parseEnvFile]: when the value
    starts and ends with a quote and has no line terminator between them,
    the two quotes are removed. *)
Definition strip_quotes (value : string) : string :=
  match value with
  | String c t =>
      if Js.is_quote c then
        match Js.last_char t with
        | Some d =>
            if Js.is_quote d && Js.all_chars Js.is_dot (Js.drop_last t)
            then Js.drop_last t
            else value
        | None => value
        end
      else value
  | EmptyString => value
  end.

(** One turn of the loop over the lines of an environment file. *)
Definition parseEnvLine (prefix : string) (envVars : gmap string string)
  (line : string) : gmap string string :=
  let trimmedLine := Js.trim line in
  if Js.is_empty trimmedLine || Js.startsWith trimmedLine "#" then envVars else
  match Constants.ENV_FILE_LINE trimmedLine with
  | Some (key, raw) =>
      if Js.startsWith key prefix
      then Js.assign_member key (strip_quotes raw) envVars
      else envVars
  | None => envVars
  end.

Definition parseEnvText (prefix content : string) : gmap string string :=
  fold_left (parseEnvLine prefix) (Js.split_on "010"%char content) ∅.

(** [Object.assign(target, source)] and [{...target, ...source}] on
    environment maps whose [source] has no entry named [__proto__] (the
    maps the loaders build have none). *)
Definition assign (target source : gmap string string) : gmap string string :=
  source ∪ target.

Definition envMode (w : World) : string :=
  if isProduction w then "production" else "development".

Definition envFiles (w : World) : list string :=
  [".env"; ".env." +:+ envMode w; ".env.local";
   ".env." +:+ envMode w +:+ ".local"].

Definition is_react_or_vite (key : string) : bool :=
  Js.startsWith key Constants.ENV_PREFIXES_REACT
  || Js.startsWith key Constants.ENV_PREFIXES_VITE.

Section WithHost.
Context {H : Host}.

Definition parseEnvFile (w : World) (envPath prefix : string)
  : gmap string string :=
  match Fs.readFileSync w envPath with
  | Ok content => parseEnvText prefix content
  | Throw _ => ∅
  end.

(** One turn of the loop over [envFiles] in [loadReactEnv]. *)
Definition loadEnvFile (w : World) (projectRoot : string)
  (envVars : gmap string string) (envFile : string) : gmap string string :=
  let envPath := path_join [projectRoot; envFile] in
  if Fs.existsSync w envPath then
    assign (assign envVars (parseEnvFile w envPath Constants.ENV_PREFIXES_REACT))
           (parseEnvFile w envPath Constants.ENV_PREFIXES_VITE)
  else envVars.

Definition loadReactFiles (w : World) (projectRoot : string)
  : gmap string string :=
  fold_left (loadEnvFile w projectRoot) (envFiles w) ∅.

Definition loadReactEnv (w : World) (projectRoot : string)
  : gmap string string :=
  assign (loadReactFiles w projectRoot)
         (filter (fun kv => is_react_or_vite kv.1 = true) (env w)).


(** *** Angular *)

(** A match of the property pattern of [parseAngularEnvFile]: the key, and
    either the text between quotes or the unquoted text. *)
Record property : Type := mkProperty {
  prop_key : string;
  prop_quoted : option string;
  prop_bare : option string;
}.

Definition not_quote (c : ascii) : bool := negb (Js.is_quote c).

(** The class of an unquoted value: anything but a comma, white space, a
    closing brace and a line feed. *)
Definition bare_char (c : ascii) : bool :=
  negb (Js.eqc c ","%char || Js.is_space c || Js.eqc c "}"%char
        || Js.eqc c "010"%char).

(** The end of the property pattern: optional white space and an optional
    comma. *)
Definition property_tail (s : string) : string :=
  match Js.skip Js.is_space s with
  | String c t => if Js.eqc c ","%char then t else String c t
  | EmptyString => EmptyString
  end.

(** The property pattern at the current position: word characters, a
    colon, optional white space, then a quoted text (the shortest one up to
    the next quote) or else a run of [bare_char]. *)
Definition property_at (s : string) : option (property * string) :=
  let n := Js.span_len Js.is_word s in
  if (n =? 0)%nat then None else
  match Js.drop n s with
  | String colon r =>
      if Js.eqc colon ":"%char then
        let r1 := Js.skip Js.is_space r in
        let quoted :=
          match r1 with
          | String q r2 =>
              if Js.is_quote q then
                let m := Js.span_len not_quote r2 in
                match Js.drop m r2 with
                | String _ r3 => Some (Js.take m r2, r3)
                | EmptyString => None
                end
              else None
          | EmptyString => None
          end in
        match quoted with
        | Some (v, r3) =>
            Some (mkProperty (Js.take n s) (Some v) None, property_tail r3)
        | None =>
            let m := Js.span_len bare_char r1 in
            if (m =? 0)%nat then None else
            Some (mkProperty (Js.take n s) None (Some (Js.take m r1)),
                  property_tail (Js.drop m r1))
        end
      else None
  | EmptyString => None
  end.

Definition propertyRegex : Js.matcher property := fun s =>
  match property_at s with
  | Some (p, rest) => Some (p, String.length s - String.length rest)
  | None => None
  end.

(** [match[2] ?? match[3] ?? ''] *)
Definition property_value (p : property) : string :=
  match prop_quoted p with
  | Some v => v
  | None => match prop_bare p with Some v => v | None => EmptyString end
  end.

Definition constant_char (c : ascii) : bool :=
  Js.is_upper c || Js.is_digit c || (Js.code c =? 95)%nat.

(** The test that the key is made of capitals, digits and underscores. *)
Definition is_constant_case (key : string) : bool :=
  negb (Js.is_empty key) && Js.all_chars constant_char key.

Definition envKey (key : string) : string :=
  if is_constant_case key
  then Constants.ENV_PREFIXES_ANGULAR +:+ key
  else Constants.ENV_PREFIXES_ANGULAR +:+ camelCaseToUpperCase key.

(** The condition under which a property becomes a variable. *)
Definition property_kept (p : property) : bool :=
  negb (Js.is_empty (prop_key p))
  && isValidEnvironmentValue (property_value p)
  && negb (String.eqb (property_value p) "false")
  && negb (String.eqb (property_value p) "true").

(** One turn of the [while] loop of [parseAngularEnvFile]. *)
Definition addProperty (envVars : gmap string string) (p : property)
  : gmap string string :=
  if property_kept p
  then <[envKey (prop_key p) := property_value p]> envVars
  else envVars.

(** The matches the loop visits in the body of the export. *)
Definition properties (body : string) : list property :=
  map fst (Js.hits (Js.scan propertyRegex body)).

Definition parseAngularEnvText (content : string) : gmap string string :=
  match Js.search Constants.ENVIRONMENT_EXPORT content with
  | Some (_, body, _, _) => fold_left addProperty (properties body) ∅
  | None => ∅
  end.

Definition parseAngularEnvFile (w : World) (envPath : string)
  : gmap string string :=
  if negb (Fs.existsSync w envPath) then ∅ else
  match Fs.readFileSync w envPath with
  | Ok content => parseAngularEnvText content
  | Throw _ => ∅
  end.

(** [v || fallback] used as an argument of [path.join], which throws on
    anything but a string. *)
Definition path_arg (v : Obj.value) (fallback : string) : outcome string :=
  if Obj.truthy v then
    match v with
    | Some (JStr s) => Ok s
    | _ => Throw "TypeError [ERR_INVALID_ARG_TYPE]: The path argument must be of type string"
    end
  else Ok fallback.

Definition nonempty_map (m : gmap string string) : bool :=
  negb (bool_decide (m = ∅)).

(** [loadAngularWorkspace]: [None] and [Some JNull] both stand for
    [null]. *)
Definition loadAngularWorkspace (w : World) (projectRoot : string) : Obj.value :=
  let angularJsonPath := path_join [projectRoot; "angular.json"] in
  if negb (Fs.existsSync w angularJsonPath) then None else
  match Fs.readFileSync w angularJsonPath with
  | Ok content => JSON_parse content
  | Throw _ => None
  end.

Definition projectEnvPath (projectRoot : string) (sourceRoot : string)
  (envFile : string) : string :=
  path_join [projectRoot; sourceRoot; "environments"; envFile].

(** The loop of [findProjectForHtmlPath] over the entries of
    [workspace.projects]. *)
Fixpoint findProjectLoop (w : World) (projectRoot normalizedPath envFile : string)
  (projects : list (string * json)) : outcome (gmap string string) :=
  match projects with
  | [] => Ok ∅
  | (_, config) :: rest =>
      do projectType <- Obj.get (Some config) "projectType";
      if Obj.str_eq projectType "application" then
        do root <- path_arg (Obj.get_opt (Some config) "root") EmptyString;
        let projectBasePath := path_join [projectRoot; root] in
        let relativePath := path_relative (cwd w) projectBasePath normalizedPath in
        if negb (Js.startsWith relativePath "..") && negb (path_isAbsolute relativePath)
        then
          do sourceRoot <- path_arg (Obj.get_opt (Some config) "sourceRoot") "src";
          Ok (parseAngularEnvFile w (projectEnvPath projectRoot sourceRoot envFile))
        else findProjectLoop w projectRoot normalizedPath envFile rest
      else findProjectLoop w projectRoot normalizedPath envFile rest
  end.

Definition findProjectForHtmlPath (w : World) (workspace : Obj.value)
  (projectRoot targetHtmlPath envFile : string) : outcome (gmap string string) :=
  let normalizedPath := path_normalize targetHtmlPath in
  do projects <- Obj.get workspace "projects";
  do projectEntries <- Obj.entries projects;
  findProjectLoop w projectRoot normalizedPath envFile projectEntries.

Fixpoint loadAllLoop (w : World) (projectRoot envFile : string)
  (envVars : gmap string string) (projects : list (string * json))
  : outcome (gmap string string) :=
  match projects with
  | [] => Ok envVars
  | (_, config) :: rest =>
      do projectType <- Obj.get (Some config) "projectType";
      if Obj.str_eq projectType "application" then
        do sourceRoot <- path_arg (Obj.get_opt (Some config) "sourceRoot") "src";
        loadAllLoop w projectRoot envFile
          (assign envVars
             (parseAngularEnvFile w (projectEnvPath projectRoot sourceRoot envFile)))
          rest
      else loadAllLoop w projectRoot envFile envVars rest
  end.

Definition loadAllWorkspaceProjects (w : World) (workspace : Obj.value)
  (projectRoot envFile : string) : outcome (gmap string string) :=
  do projects <- Obj.get workspace "projects";
  do projectEntries <- Obj.entries projects;
  loadAllLoop w projectRoot envFile ∅ projectEntries.

Definition given (targetHtmlPath : option string) : bool :=
  match targetHtmlPath with
  | Some p => negb (Js.is_empty p)
  | None => false
  end.

Definition loadAngularEnv (w : World) (projectRoot : string)
  (targetHtmlPath : option string) : outcome (gmap string string) :=
  let envFile :=
    if isProduction w
    then Constants.ENVIRONMENT_FILES_ANGULAR_PROD
    else Constants.ENVIRONMENT_FILES_ANGULAR_DEV in
  let workspace := loadAngularWorkspace w projectRoot in
  do projectVars <-
    (if Obj.truthy workspace && given targetHtmlPath then
       findProjectForHtmlPath w workspace projectRoot
         (default EmptyString targetHtmlPath) envFile
     else Ok ∅);
  if nonempty_map projectVars then Ok projectVars else
  do workspaceVars <-
    (if Obj.truthy workspace
     then loadAllWorkspaceProjects w workspace projectRoot envFile
     else Ok ∅);
  if nonempty_map workspaceVars then Ok workspaceVars else
  Ok (parseAngularEnvFile w (path_join [projectRoot; "src"; "environments"; envFile])).

(** *** The public loader *)

Definition loadEnvironmentVariables (w : World) (projectRoot : string)
  (targetHtmlPath : option string) : outcome (gmap string string) :=
  do envVars <-
    (if ProjectDetection.isAngularProject w projectRoot then
       loadAngularEnv w projectRoot targetHtmlPath
     else if ProjectDetection.isReactProject w projectRoot then
       Ok (loadReactEnv w projectRoot)
     else
       let react := loadReactEnv w projectRoot in
       do angular <- loadAngularEnv w projectRoot targetHtmlPath;
       Ok (assign react angular));
  Ok (filterValidEnvironmentVariables envVars).

End WithHost.

(** *** Template utilities *)

(** [RegExp.prototype.test] on a global pattern: the search starts at
    [lastIndex]; the result comes with the new [lastIndex]. *)
Definition test_global {G} (m : Js.matcher G) (lastIndex : nat) (s : string)
  : bool * nat :=
  if (String.length s <? lastIndex)%nat then (false, 0) else
  match Js.search m (Js.drop lastIndex s) with
  | Some (before, _, matched, _) =>
      (true, lastIndex + String.length before + String.length matched)
  | None => (false, 0)
  end.

(** [resolveTemplateVariables] of the environment module. The pattern is
    the shared constant [TEMPLATE_VARIABLE], whose [lastIndex] is read and
    written by [test]; [replace] starts and ends with [lastIndex] at 0. The
    function returns the text with the [lastIndex] it leaves. *)
Definition resolveTemplateVariables (lastIndex : nat) (template : string)
  (envVars : gmap string string) : string * nat :=
  let (found, lastIndex') :=
    test_global Constants.TEMPLATE_VARIABLE lastIndex template in
  if negb found then (template, lastIndex') else
  (Js.replace_all Constants.TEMPLATE_VARIABLE
     (fun varName matched =>
        if Js.is_empty varName then matched else
        match Js.member envVars varName with
        | Some value => value
        | None =>
            match Js.member envVars (Constants.ENV_PREFIXES_ANGULAR +:+ varName) with
            | Some value => value
            | None => matched
            end
        end)
     template, 0).

End Environment.

(** ** src/utils/config-loader.ts: loading the configuration *)

Module Config.

Record baseConfigs : Type := mkBases {
  DEFAULT : json;
  PRODUCTION : json;
}.

(** A result together with the warnings written to the logger. *)
Definition logged (A : Type) : Type := (A * list string)%type.

Section WithHost.
Context {H : Host}.

(** What [safeJsonParse] does to a parsed object: a field named
    [__proto__] is overwritten with [null], the fields [constructor] and
    [prototype] are deleted. *)
Definition protect (fields : list (string * json)) : list (string * json) :=
  let fields1 :=
    match Obj.lookup_field "__proto__" fields with
    | Some _ => Obj.set_field "__proto__" JNull fields
    | None => fields
    end in
  Obj.remove_field "prototype" (Obj.remove_field "constructor" fields1).

(** [safeJsonParse]: [None] is the [null] returned from the [catch]. *)
Definition safeJsonParse (jsonString : string) : Obj.value :=
  match JSON_parse jsonString with
  | None => None
  | Some (JObj fields) => Some (JObj (protect fields))
  | Some parsed => Some parsed
  end.

Definition getDefaultConfigForEnvironment (bases : baseConfigs)
  (envVars : gmap string string) : json :=
  match envVars !! "NODE_ENV" with
  | Some mode => if String.eqb mode "production" then PRODUCTION bases else DEFAULT bases
  | None => DEFAULT bases
  end.

(** The object literal that spreads the base, then the user's object, and
    sets [directives] to the spread of both [directives]; it is the body of
    [mergeConfigWithDefaults], of the last step of [loadConfigFromFile] and
    of [CSPInjector.mergeConfigs]. *)
Definition mergeConfigWithDefaults (defaultConfig : json) (config : Obj.value)
  : json :=
  JObj (Obj.set_field "directives"
          (JObj (Obj.assign
                   (Obj.assign [] (Obj.own_props (Obj.get_opt (Some defaultConfig) "directives")))
                   (Obj.own_props (Obj.get_opt config "directives"))))
          (Obj.assign (Obj.assign [] (Obj.own_props (Some defaultConfig)))
                      (Obj.own_props config))).

Definition truthy_path (configPath : option string) : bool :=
  match configPath with
  | Some p => negb (Js.is_empty p)
  | None => false
  end.

(** [tryReadSpecifiedConfig]: the content and path read, or [None]. *)
Definition tryReadSpecifiedConfig (w : World) (configPath : option string)
  : logged (option (string * string)) :=
  match configPath with
  | Some p =>
      if negb (truthy_path configPath) || negb (Fs.existsSync w p) then (None, [])
      else
        match Fs.readFileSync w p with
        | Ok content => (Some (content, p), [])
        | Throw _ =>
            (None, ["Warning: Could not read config file " +:+ p +:+ ", using defaults"])
        end
  | None => (None, [])
  end.

Definition tryReadDefaultConfig (w : World) : logged (option (string * string)) :=
  let defaultPath := path_resolve (cwd w) ["csp.config.json"] in
  if negb (Fs.existsSync w defaultPath) then (None, []) else
  match Fs.readFileSync w defaultPath with
  | Ok content => (Some (content, defaultPath), [])
  | Throw _ => (None, ["Warning: Could not read csp.config.json, using defaults"])
  end.

Definition readConfigFile (w : World) (configPath : option string)
  : logged (option (string * string)) :=
  match tryReadSpecifiedConfig w configPath with
  | (Some found, log) => (Some found, log)
  | (None, log) =>
      let (found, log') := tryReadDefaultConfig w in (found, log ++ log')
  end.

Definition loadConfigFromFile (w : World) (bases : baseConfigs)
  (envVars : gmap string string) (configPath : option string)
  : logged (option json) :=
  match readConfigFile w configPath with
  | (Some (content, filePath), log) =>
      if Js.is_empty content || Js.is_empty filePath then (None, log) else
      let resolvedContent := ConfigLoader.resolveTemplateVariables content envVars in
      let userConfig := safeJsonParse resolvedContent in
      if negb (Obj.truthy userConfig) then
        (None, log ++ ["Warning: Invalid config file " +:+ filePath +:+ ", using defaults"])
      else
        (Some (mergeConfigWithDefaults
                 (getDefaultConfigForEnvironment bases envVars) userConfig), log)
  | (None, log) => (None, log)
  end.

Definition is_framework_key (key : string) : bool :=
  Js.startsWith key "REACT_APP_" || Js.startsWith key "VITE_"
  || Js.startsWith key "NG_".

(** [getFrameworkEnvironmentVariables]: the keys of the map that carry a
    framework prefix. *)
Definition getFrameworkEnvironmentVariables (envVars : gmap string string)
  : list string :=
  List.filter is_framework_key (Object_keys envVars).

Definition directivesToEnhance : list string :=
  ["connect-src"; "script-src"; "img-src"].

(** One turn of the [forEach] of [enhanceConfigWithVariables]. *)
Definition enhanceDirective (placeholders : list json)
  (enhancedDirectives : list (string * json)) (directive : string)
  : list (string * json) :=
  match Obj.lookup_field directive enhancedDirectives with
  | Some (JArr existingValues) =>
      Obj.set_field directive (JArr (existingValues ++ placeholders))
        enhancedDirectives
  | _ => enhancedDirectives
  end.

Definition enhanceConfigWithVariables (baseConfig : json)
  (variables : list string) : json :=
  let placeholders := map (fun variable => JStr ("{{" +:+ variable +:+ "}}")) variables in
  let enhancedDirectives :=
    fold_left (enhanceDirective placeholders) directivesToEnhance
      (Obj.assign [] (Obj.own_props (Obj.get_opt (Some baseConfig) "directives"))) in
  JObj (Obj.set_field "directives" (JObj enhancedDirectives)
          (Obj.assign [] (Obj.own_props (Some baseConfig)))).

Definition createEnhancedDefaultConfig (bases : baseConfigs)
  (envVars : gmap string string) : option json :=
  let frameworkVars := getFrameworkEnvironmentVariables envVars in
  match frameworkVars with
  | [] => None
  | _ =>
      Some (enhanceConfigWithVariables
              (getDefaultConfigForEnvironment bases envVars) frameworkVars)
  end.

(** The two steps of [loadConfig] that follow the attempt to read a
    file. *)
Definition defaultsFor (bases : baseConfigs) (envVars : gmap string string)
  : json :=
  match createEnhancedDefaultConfig bases envVars with
  | Some enhancedConfig => enhancedConfig
  | None => getDefaultConfigForEnvironment bases envVars
  end.

(** [loadConfig(baseConfigs, configPath, envVars)]; a missing [envVars] is
    the empty map. *)
Definition loadConfig (w : World) (bases : baseConfigs)
  (configPath : option string) (envVars : option (gmap string string))
  : logged json :=
  let resolvedEnvVars := default ∅ envVars in
  match loadConfigFromFile w bases resolvedEnvVars configPath with
  | (Some configFromFile, log) => (configFromFile, log)
  | (None, log) => (defaultsFor bases resolvedEnvVars, log)
  end.

End WithHost.
End Config.

(** ** src/utils/node-env-manager.ts *)

Module NodeEnvManager.

Definition setNodeEnv (w : World) (value : string) : World :=
  mkWorld (cwd w) (fs w) (<["NODE_ENV" := value]> (env w)).

Definition deleteNodeEnv (w : World) : World :=
  mkWorld (cwd w) (fs w) (delete "NODE_ENV" (env w)).

Definition node_env_is (w : World) (value : string) : bool :=
  match env w !! "NODE_ENV" with
  | Some v => String.eqb v value
  | None => false
  end.

Definition node_env_falsy (w : World) : bool :=
  match env w !! "NODE_ENV" with
  | Some v => Js.is_empty v
  | None => true
  end.

(** [setupEnvironmentForMode(devMode)]; [devMode] may be [undefined]. The
    result says whether [NODE_ENV] was changed. *)
Definition setupEnvironmentForMode (w : World) (devMode : option bool)
  : bool * World :=
  if node_env_falsy w then
    (true,
     setNodeEnv w (match devMode with
                   | Some true => "development"
                   | _ => "production"
                   end))
  else
    match devMode with
    | Some true =>
        if node_env_is w "production"
        then (true, setNodeEnv w "development")
        else (false, w)
    | Some false =>
        if node_env_is w "development"
        then (true, setNodeEnv w "production")
        else (false, w)
    | None => (false, w)
    end.

Definition restoreEnvironment (w : World) (shouldRestore : bool)
  (originalNodeEnv : option string) : World :=
  if shouldRestore then
    match originalNodeEnv with
    | Some original => setNodeEnv w original
    | None => deleteNodeEnv w
    end
  else w.

End NodeEnvManager.

(** ** src/utils/html-detector.ts *)

Module HtmlDetector.

Definition HTML_SEARCH_PATHS_DEV : list string :=
  ["projects/*/src/index.html"; "src/index.html"; "public/index.html"; "index.html"].

Definition HTML_SEARCH_PATHS_PROD : list string :=
  ["dist/index.html"; "build/index.html"; "www/index.html"; "public/index.html";
   "index.html"].

Record HTMLDetectionResult : Type := mkDetection {
  path : string;
  buildDir : string;
  hasExistingCSP : bool;
}.

Definition not_gt (c : ascii) : bool := negb (Js.eqc c ">"%char).

(** The attribute part of the detection pattern: [http-equiv], an equals
    sign with optional white space around it, a quote, and the policy name,
    all compared without regard to case. *)
Definition detect_attr_at (s : string) : bool :=
  match
    s1 ← Js.strip_lit Js.eqc_ci "http-equiv" s;
    s2 ← Js.strip_lit Js.eqc "=" (Js.skip Js.is_space s1);
    match Js.skip Js.is_space s2 with
    | String q r =>
        if Js.is_quote q
        then Js.strip_lit Js.eqc_ci "Content-Security-Policy" r
        else None
    | EmptyString => None
    end
  with
  | Some _ => true
  | None => false
  end.

(** Whether [attr_at] holds at a position reached from the start of [s]
    over code units other than the closing angle bracket. *)
Fixpoint within_tag (attr_at : string -> bool) (s : string) : bool :=
  attr_at s ||
  match s with
  | EmptyString => false
  | String c t => if not_gt c then within_tag attr_at t else false
  end.

(** The detection pattern of [createHTMLDetectionResult] at a position:
    the tag name [meta], white space, anything but a closing bracket, and
    the attribute. Under the [m] flag the pattern's leading and trailing
    parts match on every line, so the test is whether this holds
    somewhere. *)
Definition detect_at (s : string) : bool :=
  match Js.strip_lit Js.eqc_ci "<meta" s with
  | Some (String c t) => Js.is_space c && within_tag detect_attr_at t
  | _ => false
  end.

Definition cspDetected (content : string) : bool := Js.any_suffix detect_at content.

(** The attribute part of the removal pattern of [processHTMLContent]; the
    policy name may be followed by [-Report-Only] and must be closed by a
    quote. *)
Definition remove_attr_at (s : string) : bool :=
  match
    s1 ← Js.strip_lit Js.eqc_ci "http-equiv" s;
    s2 ← Js.strip_lit Js.eqc "=" (Js.skip Js.is_space s1);
    match Js.skip Js.is_space s2 with
    | String q r =>
        if Js.is_quote q then
          s3 ← Js.strip_lit Js.eqc_ci "Content-Security-Policy" r;
          let s4 := default s3 (Js.strip_lit Js.eqc_ci "-Report-Only" s3) in
          match s4 with
          | String q' _ => if Js.is_quote q' then Some tt else None
          | EmptyString => None
          end
        else None
    | EmptyString => None
    end
  with
  | Some _ => true
  | None => false
  end.

(** Whether [attr_at] holds at a position that follows a white-space unit
    and is reached over code units other than the closing bracket. *)
Fixpoint after_space (attr_at : string -> bool) (prev_space : bool) (s : string)
  : bool :=
  (prev_space && attr_at s) ||
  match s with
  | EmptyString => false
  | String c t => if not_gt c then after_space attr_at (Js.is_space c) t else false
  end.

(** The removal pattern at a position: leading white space, the tag with
    its attribute, everything up to the first closing bracket, trailing
    white space. The result is the text left behind the match. *)
Definition remove_at (s : string) : option string :=
  s1 ← Js.strip_lit Js.eqc_ci "<meta" (Js.skip Js.is_space s);
  match s1 with
  | String c _ =>
      if Js.is_space c && after_space remove_attr_at false s1 then
        match Js.skip not_gt s1 with
        | String _ r => Some (Js.skip Js.is_space r)
        | EmptyString => None
        end
      else None
  | EmptyString => None
  end.

Definition cspRegex : Js.matcher unit := fun s =>
  match remove_at s with
  | Some rest => Some (tt, String.length s - String.length rest)
  | None => None
  end.

(** The pattern that finds the opening [head] tag: the tag name, anything
    but a closing bracket, the closing bracket. The capture is the whole
    match. *)
Definition head_at : Js.matcher unit := fun s =>
  match Js.strip_lit Js.eqc_ci "<head" s with
  | Some s1 =>
      match Js.skip not_gt s1 with
      | String _ _ => Some (tt, 5 + Js.span_len not_gt s1 + 1)
      | EmptyString => None
      end
  | None => None
  end.

Definition digit_value (c : ascii) : nat := Js.code c - 48.

(** The expansion of a replacement text for a pattern with one capture
    ([GetSubstitution]): [$$], [$&], the text before and after the match,
    and the numbered references that denote the capture. *)
Fixpoint expand (before matched after capture : string) (t : string) : string :=
  match t with
  | EmptyString => EmptyString
  | String c r =>
      if negb (Js.eqc c "$"%char) then String c (expand before matched after capture r)
      else
        match r with
        | EmptyString => "$"
        | String d r1 =>
            if Js.eqc d "$"%char then "$" +:+ expand before matched after capture r1
            else if Js.eqc d "&"%char then matched +:+ expand before matched after capture r1
            else if Js.eqc d "`"%char then before +:+ expand before matched after capture r1
            else if Js.eqc d "'"%char then after +:+ expand before matched after capture r1
            else if Js.is_digit d then
              let one_digit :=
                if (digit_value d =? 1)%nat
                then capture +:+ expand before matched after capture r1
                else String c (String d (expand before matched after capture r1)) in
              match r1 with
              | String e r2 =>
                  if Js.is_digit e then
                    let index := 10 * digit_value d + digit_value e in
                    if (index =? 1)%nat
                    then capture +:+ expand before matched after capture r2
                    else if (1 <? index)%nat then one_digit
                    else String c (String d (String e
                           (expand before matched after capture r2)))
                  else one_digit
              | EmptyString => one_digit
              end
            else String c (expand before matched after capture r)
        end
  end.

(** [injectMetaTag] *)
Definition injectMetaTag (html metaTag : string) : string :=
  match Js.search head_at html with
  | Some (before, _, matched, after) =>
      before
      +:+ expand before matched after matched ("$1" +:+ String "010"%char metaTag)
      +:+ after
  | None => metaTag +:+ String "010"%char html
  end.

Definition dq : string := String "034"%char EmptyString.

Record processed : Type := mkProcessed {
  modifiedHtml : string;
  replacedTags : nat;
}.

(** [processHTMLContent] *)
Definition processHTMLContent (html csp : string) (reportOnly : bool) : processed :=
  let metaType :=
    if reportOnly then "Content-Security-Policy-Report-Only"
    else "Content-Security-Policy" in
  let metaTag :=
    "<meta http-equiv=" +:+ dq +:+ metaType +:+ dq +:+ " content=" +:+ dq
    +:+ csp +:+ dq +:+ ">" in
  let removed := Js.replace_all cspRegex (fun _ _ => EmptyString) html in
  mkProcessed (injectMetaTag removed metaTag) 1.

Definition is_sep (c : ascii) : bool := Js.eqc c "/"%char || Js.eqc c "\"%char.

(** The workspace pattern of [detectAngularWorkspaceRoot], read from the
    end of the path: [index.html], [src] and the project name are the last
    three segments, [projects] ends what precedes them. *)
Definition workspace_match (p : string) : option (string * string) :=
  let strip_sep (s : string) :=
    match s with
    | String c t => if is_sep c then Some t else None
    | EmptyString => None
    end in
  r1 ← Js.strip_lit Js.eqc (Js.rev "index.html") (Js.rev p);
  r2 ← strip_sep r1;
  r3 ← Js.strip_lit Js.eqc (Js.rev "src") r2;
  r4 ← strip_sep r3;
  let n := Js.span_len (fun c => negb (is_sep c)) r4 in
  (if (n =? 0)%nat then None else Some tt) ≫= fun _ =>
  r5 ← strip_sep (Js.drop n r4);
  r6 ← Js.strip_lit Js.eqc (Js.rev "projects") r5;
  if Js.all_chars Js.is_dot r6
  then Some (Js.rev r6, Js.rev (Js.take n r4))
  else None.

Section WithHost.
Context {H : Host}.

(** [createHTMLDetectionResult]; reading the file may throw. *)
Definition createHTMLDetectionResult (w : World) (fullPath htmlPath : string)
  : outcome HTMLDetectionResult :=
  do content <- Fs.readFileSync w fullPath;
  Ok (mkDetection fullPath (path_dirname htmlPath) (cspDetected content)).

(** The filter that keeps the directories among the listed names. *)
Fixpoint keepDirectories (w : World) (searchDir : string) (items : list string)
  : outcome (list string) :=
  match items with
  | [] => Ok []
  | item :: rest =>
      do isDir <- Fs.isDirectory w (path_join [searchDir; item]);
      do kept <- keepDirectories w searchDir rest;
      Ok (if isDir then item :: kept else kept)
  end.

Fixpoint firstExisting (w : World) (searchDir afterStar : string)
  (subdirs : list string) : outcome (option HTMLDetectionResult) :=
  match subdirs with
  | [] => Ok None
  | subdir :: rest =>
      let potentialPath := path_join [searchDir; subdir +:+ afterStar] in
      if Fs.existsSync w potentialPath then
        do result <- createHTMLDetectionResult w potentialPath
                       (path_relative (cwd w) (cwd w) potentialPath);
        Ok (Some result)
      else firstExisting w searchDir afterStar rest
  end.

(** [searchGlobPattern]: everything after the split runs inside a [try]
    whose [catch] yields [null]. *)
Definition searchGlobPattern (w : World) (htmlPath : string)
  : option HTMLDetectionResult :=
  match Js.split_on "*"%char htmlPath with
  | beforeStar :: afterStar :: _ =>
      if Js.is_empty beforeStar then None else
      let searchDir := path_resolve (cwd w) [beforeStar] in
      if negb (Fs.existsSync w searchDir) then None else
      match
        (do items <- Fs.readdirSync w searchDir;
         do subdirs <- keepDirectories w searchDir items;
         firstExisting w searchDir afterStar subdirs)
      with
      | Ok found => found
      | Throw _ => None
      end
  | _ => None
  end.

Definition findHTMLFile (w : World) (htmlPath : string)
  : outcome (option HTMLDetectionResult) :=
  if Js.includes_char "*"%char htmlPath then Ok (searchGlobPattern w htmlPath) else
  let fullPath := path_resolve (cwd w) [htmlPath] in
  if Fs.existsSync w fullPath then
    do result <- createHTMLDetectionResult w fullPath htmlPath;
    Ok (Some result)
  else Ok None.


(** [getAngularBuildPaths]: the output paths named in [angular.json], each
    followed by [/index.html]. Reading the file may throw. *)
Definition getAngularBuildPaths (w : World) : outcome (list string) :=
  let angularJsonPath := path_resolve (cwd w) ["angular.json"] in
  if negb (Fs.existsSync w angularJsonPath) then Ok [] else
  do content <- Fs.readFileSync w angularJsonPath;
  let angularJson := Config.safeJsonParse content in
  let projects := Obj.get_opt angularJson "projects" in
  if negb (Obj.truthy projects) then Ok [] else
  let outputPaths :=
    map (fun project =>
           Obj.get_opt (Obj.get_opt (Obj.get_opt (Obj.get_opt (Some project.2)
             "architect") "build") "options") "outputPath")
        (Obj.own_props projects) in
  Ok (omap (fun outputPath =>
              if Obj.truthy outputPath
              then Some (Obj.to_string (default JNull outputPath) +:+ "/index.html")
              else None)
           outputPaths).

Definition getHTMLSearchPaths (w : World) (devMode : bool) : outcome (list string) :=
  if devMode then Ok HTML_SEARCH_PATHS_DEV else
  do angularBuildPaths <- getAngularBuildPaths w;
  Ok (angularBuildPaths ++ ["dist/*/index.html"] ++ HTML_SEARCH_PATHS_PROD).

Fixpoint firstFound (w : World) (searchPaths : list string)
  : outcome (option HTMLDetectionResult) :=
  match searchPaths with
  | [] => Ok None
  | htmlPath :: rest =>
      do result <- findHTMLFile w htmlPath;
      match result with
      | Some found => Ok (Some found)
      | None => firstFound w rest
      end
  end.

(** [detectHTML(devMode)]; [None] is [null]. *)
Definition detectHTML (w : World) (devMode : bool)
  : outcome (option HTMLDetectionResult) :=
  do searchPaths <- getHTMLSearchPaths w devMode;
  firstFound w searchPaths.

(** [detectAngularWorkspaceRoot] *)
Definition detectAngularWorkspaceRoot (w : World) (projectRoot htmlPath : string)
  : string :=
  let relativePath := path_relative (cwd w) (cwd w) htmlPath in
  let htmlPathNormalized := path_normalize relativePath in
  match workspace_match htmlPathNormalized with
  | Some (workspaceRoot, projectName) =>
      let workspaceProjectRoot :=
        path_resolve (cwd w) [workspaceRoot; "projects"; projectName] in
      if Fs.existsSync w
           (path_join [workspaceProjectRoot; "src"; "environments"; "environment.ts"])
      then workspaceProjectRoot
      else projectRoot
  | None => projectRoot
  end.

End WithHost.
End HtmlDetector.

(** ** src/csp-injector.ts *)

Module CSPInjector.

Definition strs (l : list string) : json := JArr (map JStr l).

Definition BASE_DIRECTIVES : list (string * json) :=
  [("default-src", strs ["'self'"]);
   ("style-src", strs ["'self'"; "'unsafe-inline'"]);
   ("img-src", strs ["'self'"; "data:"; "blob:"]);
   ("font-src", strs ["'self'"; "data:"]);
   ("connect-src", strs ["'self'"]);
   ("worker-src", strs ["'self'"; "blob:"]);
   ("manifest-src", strs ["'self'"])].

Definition DEFAULT_CONFIG : json :=
  JObj [("directives",
         JObj (Obj.set_field "script-src" (strs ["'self'"; "'unsafe-inline'"])
                 BASE_DIRECTIVES));
        ("useNonce", JBool false);
        ("nonceLength", JNum 16);
        ("reportOnly", JBool false)].

Definition PRODUCTION_CONFIG : json :=
  JObj [("directives",
         JObj (Obj.set_field "script-src" (strs ["'self'"]) BASE_DIRECTIVES));
        ("useNonce", JBool true);
        ("nonceLength", JNum 24);
        ("reportOnly", JBool false)].

Definition bases : Config.baseConfigs :=
  Config.mkBases DEFAULT_CONFIG PRODUCTION_CONFIG.

(** An instance of the class: its two private fields. *)
Record injector : Type := mkInjector {
  config : json;
  envVars : gmap string string;
}.

Record CSPInjectionResult : Type := mkResult {
  htmlPath : string;
  nonce : option string;
  replacedTags : nat;
  cspString : string;
  resultEnvVars : gmap string string;
}.

Record InjectOptions : Type := mkOptions {
  opt_htmlPath : option string;
  opt_configPath : option string;
  opt_devMode : option bool;
  opt_config : Obj.value;
  opt_envVars : option (gmap string string);
}.

(** A computation on the process: it returns or throws, and leaves a
    world. *)
Definition action (A : Type) : Type := World -> outcome A * World.

Section WithHost.
Context {H : Host}.

(** [new CSPInjector(config, envVars)] *)
Definition new (userConfig : Obj.value) (vars : option (gmap string string))
  : injector :=
  mkInjector (Config.mergeConfigWithDefaults DEFAULT_CONFIG userConfig)
             (default ∅ vars).

(** The loop of the static [loadEnvironmentVariables] that copies the
    framework variables over the process environment. *)
Definition keepFramework (frameworkEnvVars : gmap string string)
  : gmap string string :=
  filter (fun kv =>
            negb (Js.is_empty kv.2)
            && negb (String.eqb kv.2 "undefined")
            && negb (String.eqb kv.2 "null") = true)
         frameworkEnvVars.

(** [Object.assign(envVars, process.env)] for the new object [envVars]:
    every variable of the process is assigned to it, so a variable named
    [__proto__] meets the setter of [Object.prototype] and is not
    copied. *)
Definition processVariables (w : World) : gmap string string :=
  delete "__proto__" (env w).

(** The static [CSPInjector.loadEnvironmentVariables(projectRoot)] *)
Definition loadEnvironmentVariables (w : World) (projectRoot : string)
  : outcome (gmap string string) :=
  let envVars := processVariables w in
  do frameworkEnvVars <- Environment.loadEnvironmentVariables w projectRoot None;
  Ok (Environment.assign envVars (keepFramework frameworkEnvVars)).

(** The static [CSPInjector.loadConfig(configPath, envVars)] *)
Definition loadConfig (w : World) (configPath : option string)
  (vars : option (gmap string string)) : outcome (Config.logged json) :=
  do resolvedEnvVars <-
    match vars with
    | Some given => Ok given
    | None => loadEnvironmentVariables w (cwd w)
    end;
  Ok (Config.loadConfig w bases configPath (Some resolvedEnvVars)).

Definition nonce_token : string := "'nonce-{{nonce}}'".

Definition truthy_string (s : option string) : bool :=
  match s with
  | Some t => negb (Js.is_empty t)
  | None => false
  end.

(** [processCSPValue]: a value that is not a string has no [replace]. *)
Definition processCSPValue (this : injector) (value : json) (nonce : option string)
  : outcome string :=
  match value with
  | JStr text =>
      if truthy_string nonce && String.eqb text nonce_token
      then Ok ("'nonce-" +:+ default EmptyString nonce +:+ "'")
      else Ok (ConfigLoader.resolveTemplateVariables text (envVars this))
  | _ => Throw "TypeError: template.replace is not a function"
  end.

Fixpoint processValues (this : injector) (values : list json)
  (nonce : option string) : outcome (list string) :=
  match values with
  | [] => Ok []
  | value :: rest =>
      do processed <- processCSPValue this value nonce;
      do others <- processValues this rest nonce;
      Ok (processed :: others)
  end.

Definition keepValue (value : string) : bool :=
  negb (Js.is_empty value) && negb (Js.is_empty (Js.trim value)).

Fixpoint buildDirectives (this : injector) (directives : list (string * json))
  (nonce : option string) : outcome (list string) :=
  match directives with
  | [] => Ok []
  | (directive, values) :: rest =>
      do processedValues <-
        match values with
        | JArr items => processValues this items nonce
        | _ => Throw "TypeError: values.map is not a function"
        end;
      do others <- buildDirectives this rest nonce;
      Ok ((directive +:+ " " +:+ Js.join " " (List.filter keepValue processedValues))
          :: others)
  end.

(** [buildCSP(nonce)] *)
Definition buildCSP (this : injector) (nonce : option string) : outcome string :=
  do directives <- Obj.entries (Obj.get_opt (Some (config this)) "directives");
  do parts <- buildDirectives this directives nonce;
  Ok (Js.join "; " parts).

(** [generateNonce()]: [crypto.randomBytes] wants a size between 0 and
    2^31 - 1. *)
Definition generateNonce (this : injector) : outcome string :=
  match Obj.get_opt (Some (config this)) "nonceLength" with
  | None | Some JNull => Ok (randomBytes_base64 16)
  | Some (JNum n) =>
      if ((0 <=? n) && (n <=? 2147483647))%Z
      then Ok (randomBytes_base64 (Z.to_nat n))
      else Throw "RangeError [ERR_OUT_OF_RANGE]"
  | Some _ => Throw "TypeError [ERR_INVALID_ARG_TYPE]"
  end.

(** The body of the [try] block of [injectCSP]. *)
Definition injectCSP_try (this : injector) (path : string) (csp : option string)
  : action CSPInjectionResult := fun w =>
  match
    (do html <- Fs.readFileSync w path;
     do nonce <-
       (if Obj.truthy (Obj.get_opt (Some (config this)) "useNonce")
        then do n <- generateNonce this; Ok (Some n)
        else Ok None);
     do cspText <-
       match csp with
       | Some given => Ok given
       | None => buildCSP this nonce
       end;
     let reportOnly :=
       match Obj.get_opt (Some (config this)) "reportOnly" with
       | None | Some JNull => false
       | other => Obj.truthy other
       end in
     let result := HtmlDetector.processHTMLContent html cspText reportOnly in
     do w' <- Fs.writeFileSync w path (HtmlDetector.modifiedHtml result);
     Ok (mkResult path nonce (HtmlDetector.replacedTags result) cspText
                  (envVars this), w'))
  with
  | Ok (result, w') => (Ok result, w')
  | Throw message => (Throw message, w)
  end.

(** [injectCSP(htmlPath, cspString)]: every exception is thrown again
    under one message. *)
Definition injectCSP (this : injector) (path : string) (csp : option string)
  : action CSPInjectionResult := fun w =>
  match injectCSP_try this path csp w with
  | (Ok result, w') => (Ok result, w')
  | (Throw message, w') => (Throw ("Failed to inject CSP: " +:+ message), w')
  end.

(** [resolveProjectPaths]: the project root and the path of the page. *)
Definition resolveProjectPaths (w : World) (options : InjectOptions)
  : outcome (string * string) :=
  let projectRoot :=
    if Config.truthy_path (opt_configPath options)
    then path_dirname (path_resolve (cwd w) [default EmptyString (opt_configPath options)])
    else cwd w in
  do path <-
    (if Config.truthy_path (opt_htmlPath options) then
       let resolvedPath := path_resolve (cwd w) [default EmptyString (opt_htmlPath options)] in
       if negb (Fs.existsSync w resolvedPath)
       then Throw ("HTML file not found: " +:+ resolvedPath)
       else Ok resolvedPath
     else
       do detectedHTML <- HtmlDetector.detectHTML w (default false (opt_devMode options));
       match detectedHTML with
       | Some found => Ok (HtmlDetector.path found)
       | None =>
           Throw "HTML file not found. Please specify htmlPath or ensure index.html exists in common locations."
       end);
  Ok (if negb (Config.truthy_path (opt_configPath options))
      then HtmlDetector.detectAngularWorkspaceRoot w projectRoot path
      else projectRoot,
      path).

(** The body of the [try] block of [executeInjectionWithEnvironment],
    entered after [setupEnvironmentForMode]. *)
Definition injection (options : InjectOptions) (projectRoot path : string)
  : action CSPInjectionResult := fun w =>
  match
    (do vars <-
       match opt_envVars options with
       | Some given => Ok given
       | None => loadEnvironmentVariables w projectRoot
       end;
     do loaded <-
       (if Obj.truthy (opt_config options)
        then Ok (Config.mergeConfigWithDefaults DEFAULT_CONFIG (opt_config options))
        else do c <- loadConfig w (opt_configPath options) (Some vars); Ok c.1);
     Ok (new (Some loaded) (Some vars)))
  with
  | Ok this => injectCSP this path None w
  | Throw message => (Throw message, w)
  end.

(** [executeInjectionWithEnvironment]: the [finally] block runs on both
    exits. *)
Definition executeInjectionWithEnvironment (options : InjectOptions)
  (projectRoot path : string) : action CSPInjectionResult := fun w =>
  let originalNodeEnv := env w !! "NODE_ENV" in
  let (shouldRestoreNodeEnv, w1) :=
    NodeEnvManager.setupEnvironmentForMode w (opt_devMode options) in
  let (result, w2) := injection options projectRoot path w1 in
  (result, NodeEnvManager.restoreEnvironment w2 shouldRestoreNodeEnv originalNodeEnv).

(** The static [CSPInjector.inject(options)] *)
Definition inject (options : InjectOptions) : action CSPInjectionResult := fun w =>
  match resolveProjectPaths w options with
  | Ok (projectRoot, path) => executeInjectionWithEnvironment options projectRoot path w
  | Throw message => (Throw message, w)
  end.

End WithHost.
End CSPInjector.

(** ** src/utils/project-detection.ts: the type of a project *)

Module ProjectType.

Inductive ProjectType : Type :=
| react_cra
| react_vite
| angular_standalone
| angular_workspace
| unknown.

Section WithHost.
Context {H : Host}.

Definition isViteProject (w : World) (projectRoot : string) : bool :=
  Fs.existsSync w (path_join [projectRoot; "vite.config.js"])
  || Fs.existsSync w (path_join [projectRoot; "vite.config.ts"]).

(** The body of the [try] block of [detectAngularType]. *)
Definition detectAngularType_try (w : World) (angularJsonPath : string)
  : outcome ProjectType :=
  do angularJsonContent <- Fs.readFileSync w angularJsonPath;
  match JSON_parse angularJsonContent with
  | None => Throw "SyntaxError: invalid JSON"
  | Some angularJson =>
      do projects <- Obj.get (Some angularJson) "projects";
      if Obj.truthy projects && (1 <? length (Obj.own_props projects))%nat
      then Ok angular_workspace
      else Ok angular_standalone
  end.

(** [detectAngularType]: [None] is [null]; whatever the [try] block throws
    is answered with the standalone type. *)
Definition detectAngularType (w : World) (projectRoot : string)
  : option ProjectType :=
  let angularJsonPath := path_join [projectRoot; "angular.json"] in
  if negb (Fs.existsSync w angularJsonPath) then None else
  match detectAngularType_try w angularJsonPath with
  | Ok detected => Some detected
  | Throw _ => Some angular_standalone
  end.

(** [detectProjectType(projectRoot)] *)
Definition detectProjectType (w : World) (projectRoot : string) : ProjectType :=
  if isViteProject w projectRoot then react_vite else
  match detectAngularType w projectRoot with
  | Some angularType => angularType
  | None =>
      if ProjectDetection.isAngularProject w projectRoot then angular_standalone
      else if ProjectDetection.isReactProject w projectRoot then react_cra
      else unknown
  end.

End WithHost.
End ProjectType.

(** ** src/cli.ts

    What the command line interface prints is not part of the embedding;
    [process.exit] is an ending of its own. *)

Module Cli.

(** A value of [CliOptions]: a text or a boolean. *)
Inductive OptionValue : Type :=
| Text (value : string)
| Flag (value : bool).

Record ParsedArgs : Type := mkParsed {
  options : gmap string OptionValue;
  positional : list string;
}.

(** [getArgumentValue(args, index)]: the argument behind [index], unless
    it is missing, empty or starts with a dash. *)
Definition getArgumentValue (args : list string) (index : nat) : option string :=
  match args !! (index + 1) with
  | Some nextArg =>
      if negb (Js.is_empty nextArg) && negb (Js.startsWith nextArg "-")
      then Some nextArg
      else None
  | None => None
  end.

Definition hasValue (args : list string) (index : nat) : bool :=
  match getArgumentValue args index with
  | Some value => negb (Js.is_empty value)
  | None => false
  end.

(** [result.options[key] = value]. The name [__proto__] reaches the setter
    of [Object.prototype], which ignores a text or a boolean. *)
Definition setOption (key : string) (value : OptionValue) (result : ParsedArgs)
  : ParsedArgs :=
  if String.eqb key "__proto__" then result
  else mkParsed (<[key := value]> (options result)) (positional result).

Definition pushPositional (arg : string) (result : ParsedArgs) : ParsedArgs :=
  mkParsed (options result) (positional result ++ [arg]).

(** [value ?? true] *)
Definition valueOrTrue (value : option string) : OptionValue :=
  match value with
  | Some text => Text text
  | None => Flag true
  end.

(** The [while] loop of [parseArguments]; every turn moves [i] forward, so
    as many turns as there are arguments are enough. *)
Fixpoint parseLoop (turns : nat) (args : list string) (i : nat) (result : ParsedArgs)
  : ParsedArgs :=
  match turns with
  | O => result
  | S turns' =>
      match args !! i with
      | None => result
      | Some arg =>
          if Js.is_empty arg then parseLoop turns' args (i + 1) result
          else if Js.startsWith arg "--" then
            let key := Js.drop 2 arg in
            let value := getArgumentValue args i in
            parseLoop turns' args (i + (if hasValue args i then 2 else 1))
              (setOption key (valueOrTrue value) result)
          else if Js.startsWith arg "-" && (1 <? String.length arg)%nat then
            let key := Js.drop 1 arg in
            let value := getArgumentValue args i in
            parseLoop turns' args (i + (if hasValue args i then 2 else 1))
              (setOption key (valueOrTrue value) result)
          else parseLoop turns' args (i + 1) (pushPositional arg result)
      end
  end.

(** [CLI.parseArguments(args)] *)
Definition parseArguments (args : list string) : ParsedArgs :=
  parseLoop (length args) args 0 (mkParsed ∅ []).

(** [getOptionValue(options, keys)]: the value of the first key that is
    set; the key found is itself tested for truth. *)
Definition getOptionValue (options : gmap string OptionValue) (keys : list string)
  : option OptionValue :=
  match List.find (fun key => bool_decide (is_Some (options !! key))) keys with
  | Some key => if Js.is_empty key then None else options !! key
  | None => None
  end.

Definition HTML : list string := ["html"; "h"].
Definition CONFIG : list string := ["config"; "c"].
Definition DEV : list string := ["dev"; "d"].

(** [buildInjectOptions(options)]: a path must be a text and the mode a
    boolean. *)
Definition buildInjectOptions (options : gmap string OptionValue)
  : CSPInjector.InjectOptions :=
  CSPInjector.mkOptions
    (match getOptionValue options HTML with Some (Text htmlPath) => Some htmlPath | _ => None end)
    (match getOptionValue options CONFIG with Some (Text configPath) => Some configPath | _ => None end)
    (match getOptionValue options DEV with Some (Flag devMode) => Some devMode | _ => None end)
    None None.

(** A call returns, throws, or ends the process. *)
Inductive ending (A : Type) : Type :=
| Returned (a : A)
| Thrown (message : string)
| Exited (code : nat).
Arguments Returned {A} a.
Arguments Thrown {A} message.
Arguments Exited {A} code.

Definition lift {A} (x : outcome A) : ending A :=
  match x with
  | Ok a => Returned a
  | Throw message => Thrown message
  end.

(** What [handleDryRun] is given to report. *)
Record DryRun : Type := mkDryRun {
  detectedHTML : HtmlDetector.HTMLDetectionResult;
  config : json;
  envVars : gmap string string;
}.

Section WithHost.
Context {H : Host}.

(** [findHTMLForDryRun] *)
Definition findHTMLForDryRun (w : World) (injectOptions : CSPInjector.InjectOptions)
  : ending (string * HtmlDetector.HTMLDetectionResult) :=
  if Config.truthy_path (CSPInjector.opt_htmlPath injectOptions) then
    let htmlPath := default EmptyString (CSPInjector.opt_htmlPath injectOptions) in
    let resolvedPath := path_resolve (cwd w) [htmlPath] in
    if negb (Fs.existsSync w resolvedPath) then Exited 1 else
    match Fs.readFileSync w resolvedPath with
    | Ok content =>
        Returned (resolvedPath,
                  HtmlDetector.mkDetection resolvedPath (path_dirname htmlPath)
                    (HtmlDetector.cspDetected content))
    | Throw message => Thrown message
    end
  else
    match HtmlDetector.detectHTML w (default false (CSPInjector.opt_devMode injectOptions)) with
    | Ok (Some detected) => Returned (HtmlDetector.path detected, detected)
    | Ok None => Exited 1
    | Throw message => Thrown message
    end.

(** [determineProjectRootForDryRun] *)
Definition determineProjectRootForDryRun (w : World)
  (injectOptions : CSPInjector.InjectOptions) (htmlPath : string) : string :=
  if Config.truthy_path (CSPInjector.opt_configPath injectOptions) then
    path_dirname
      (path_resolve (cwd w) [default EmptyString (CSPInjector.opt_configPath injectOptions)])
  else
    let relativePath := path_relative (cwd w) (cwd w) htmlPath in
    let htmlPathNormalized := path_normalize relativePath in
    match HtmlDetector.workspace_match htmlPathNormalized with
    | Some (workspaceRoot, projectName) =>
        let workspaceProjectRoot :=
          path_resolve (cwd w) [workspaceRoot; "projects"; projectName] in
        if Fs.existsSync w
             (path_join [workspaceProjectRoot; "src"; "environments"; "environment.ts"])
        then workspaceProjectRoot
        else cwd w
    | None => cwd w
    end.

(** [setNodeEnvForDryRun] *)
Definition setNodeEnvForDryRun (w : World) (injectOptions : CSPInjector.InjectOptions)
  : bool * World :=
  let devMode := CSPInjector.opt_devMode injectOptions in
  if NodeEnvManager.node_env_falsy w then
    (true,
     NodeEnvManager.setNodeEnv w (match devMode with
                                  | Some true => "development"
                                  | _ => "production"
                                  end))
  else if match devMode with Some true => true | _ => false end
          && NodeEnvManager.node_env_is w "production" then
    (true, NodeEnvManager.setNodeEnv w "development")
  else if match devMode with Some false => true | _ => false end
          && NodeEnvManager.node_env_is w "development" then
    (true, NodeEnvManager.setNodeEnv w "production")
  else (false, w).

(** [restoreNodeEnv] *)
Definition restoreNodeEnv (w : World) (originalNodeEnv : option string)
  (shouldRestore : bool) : World :=
  if shouldRestore then
    match originalNodeEnv with
    | Some original => NodeEnvManager.setNodeEnv w original
    | None => NodeEnvManager.deleteNodeEnv w
    end
  else w.

(** [handleDryRunCommand]: the page is looked for, then the variables and
    the configuration are loaded with the mode set up, and the mode is
    restored on both exits of the [try]. The result is what is handed to
    [handleDryRun]. *)
Definition handleDryRunCommand (injectOptions : CSPInjector.InjectOptions) (w : World)
  : ending DryRun * World :=
  match findHTMLForDryRun w injectOptions with
  | Returned (htmlPath, detected) =>
      let projectRoot := determineProjectRootForDryRun w injectOptions htmlPath in
      let originalNodeEnv := env w !! "NODE_ENV" in
      let (shouldRestoreNodeEnv, w1) := setNodeEnvForDryRun w injectOptions in
      let report :=
        do loadedVars <- CSPInjector.loadEnvironmentVariables w1 projectRoot;
        do loadedConfig <-
          CSPInjector.loadConfig w1 (CSPInjector.opt_configPath injectOptions)
            (Some loadedVars);
        Ok (mkDryRun detected loadedConfig.1 loadedVars) in
      (lift report, restoreNodeEnv w1 originalNodeEnv shouldRestoreNodeEnv)
  | Thrown message => (Thrown message, w)
  | Exited code => (Exited code, w)
  end.

End WithHost.

(** *** The configuration wizard *)

Definition commonDirectives : list (string * list string) :=
  [("default-src", ["'self'"]);
   ("img-src", ["'self'"; "data:"; "blob:"]);
   ("font-src", ["'self'"; "data:"]);
   ("style-src", ["'self'"; "'unsafe-inline'"])].

Definition scriptSrc (configType : string) : list string :=
  ["'self'"] ++ (if String.eqb configType "development" then ["'unsafe-inline'"] else []).

Definition generic : list (string * list string) :=
  [("script-src", ["'self'"; "'unsafe-inline'"]); ("connect-src", ["'self'"])].

(** [frameworkSpecific[framework]] for a name that [Object.prototype] does
    not define. *)
Definition frameworkSpecific (configType framework : string)
  : option (list (string * list string)) :=
  if String.eqb framework "react" then
    Some [("script-src", scriptSrc configType); ("connect-src", ["'self'"])]
  else if String.eqb framework "vite" then
    Some [("script-src", scriptSrc configType);
          ("connect-src", ["'self'"; "ws:"; "wss:"]);
          ("worker-src", ["'self'"; "blob:"])]
  else if String.eqb framework "angular" then
    Some [("script-src", scriptSrc configType);
          ("connect-src", ["'self'"]);
          ("worker-src", ["'self'"; "blob:"]);
          ("manifest-src", ["'self'"])]
  else if String.eqb framework "generic" then Some generic
  else None.

(** [getFrameworkDirectives(framework, configType)] *)
Definition getFrameworkDirectives (framework configType : string)
  : list (string * list string) :=
  let specificConfig := default generic (frameworkSpecific configType framework) in
  Obj.assign (Obj.assign [] commonDirectives) specificConfig.

Definition frameworkPrefixes (framework : string) : option string :=
  if String.eqb framework "react" then Some "REACT_APP_"
  else if String.eqb framework "vite" then Some "VITE_"
  else if String.eqb framework "angular" then Some "NG_"
  else None.

Definition templateVariables (envPrefix directive : string) : option (list string) :=
  if String.eqb directive "script-src" then Some ["{{" +:+ envPrefix +:+ "API_URL}}"]
  else if String.eqb directive "connect-src" then Some ["{{" +:+ envPrefix +:+ "API_URL}}"]
  else if String.eqb directive "img-src" then Some ["{{" +:+ envPrefix +:+ "CDN_URL}}"]
  else None.

(** One turn of the [forEach] of [addEnvironmentVariables]. *)
Definition addTemplates (envPrefix : string) (directives : list (string * list string))
  (directive : string) : list (string * list string) :=
  match Obj.lookup_field directive directives, templateVariables envPrefix directive with
  | Some existingDirective, Some templates =>
      Obj.set_field directive (existingDirective ++ templates) directives
  | _, _ => directives
  end.

(** [addEnvironmentVariables]: the directives after the call. *)
Definition addEnvironmentVariables (directives : list (string * list string))
  (framework : string) (includeEnvVars : bool) : list (string * list string) :=
  if negb includeEnvVars then directives else
  match frameworkPrefixes framework with
  | Some envPrefix =>
      if Js.is_empty envPrefix then directives else
      fold_left (addTemplates envPrefix) ["script-src"; "connect-src"; "img-src"] directives
  | None => directives
  end.

Definition pushTo (directive value : string) (directives : list (string * list string))
  : list (string * list string) :=
  match Obj.lookup_field directive directives with
  | Some existing => Obj.set_field directive (existing ++ [value]) directives
  | None => directives
  end.

(** [addNonceTemplates]: the directives after the call. *)
Definition addNonceTemplates (directives : list (string * list string)) (useNonce : bool)
  : list (string * list string) :=
  if negb useNonce then directives else
  pushTo "style-src" "'nonce-{{nonce}}'" (pushTo "script-src" "'nonce-{{nonce}}'" directives).

Record InteractiveConfig : Type := mkChoices {
  framework : string;
  useNonce : bool;
  reportOnly : bool;
  includeEnvVars : bool;
  configType : string;
}.

(** [createInteractiveConfig(choices)] *)
Definition createInteractiveConfig (choices : InteractiveConfig) : json :=
  let baseDirectives := getFrameworkDirectives (framework choices) (configType choices) in
  let withVariables :=
    addEnvironmentVariables baseDirectives (framework choices) (includeEnvVars choices) in
  let cleaned :=
    map (fun directive =>
           (directive.1,
            List.filter (fun val => negb (Js.is_empty (Js.trim val))) directive.2))
        withVariables in
  let withNonce := addNonceTemplates cleaned (useNonce choices) in
  JObj [("directives",
         JObj (map (fun directive => (directive.1, CSPInjector.strs directive.2))
                   withNonce));
        ("useNonce", JBool (useNonce choices));
        ("reportOnly", JBool (reportOnly choices))].

End Cli.


(** ** A reference host

    The POSIX flavour of Node's [path] module and a reader for JSON texts
    (integers for numbers, the two-character escapes in strings), used to
    run the package on concrete worlds. *)

Module Posix.

Definition slash : ascii := "/"%char.

Definition segments (p : string) : list string := Js.split_on slash p.

(** [normalizeString]: the segments of a path with empty and dot segments
    removed and dot-dot segments resolved; [stack] holds the result in
    reverse. *)
Fixpoint normalizeSegments (allowAboveRoot : bool) (stack parts : list string)
  : list string :=
  match parts with
  | [] => rev stack
  | part :: rest =>
      if Js.is_empty part || String.eqb part "." then
        normalizeSegments allowAboveRoot stack rest
      else if String.eqb part ".." then
        match stack with
        | top :: below =>
            if String.eqb top ".."
            then normalizeSegments allowAboveRoot (part :: stack) rest
            else normalizeSegments allowAboveRoot below rest
        | [] =>
            if allowAboveRoot
            then normalizeSegments allowAboveRoot [part] rest
            else normalizeSegments allowAboveRoot [] rest
        end
      else normalizeSegments allowAboveRoot (part :: stack) rest
  end.

Definition isAbsolute (p : string) : bool := Js.startsWith p "/".

Definition endsWithSlash (p : string) : bool :=
  match Js.last_char p with
  | Some c => Js.eqc c slash
  | None => false
  end.

Definition normalize (p : string) : string :=
  if Js.is_empty p then "." else
  let body := Js.join "/" (normalizeSegments (negb (isAbsolute p)) [] (segments p)) in
  if Js.is_empty body then
    if isAbsolute p then "/" else if endsWithSlash p then "./" else "."
  else
    (if isAbsolute p then "/" else EmptyString)
    +:+ body +:+ (if endsWithSlash p then "/" else EmptyString).

Definition join (parts : list string) : string :=
  let joined := Js.join "/" (List.filter (fun part => negb (Js.is_empty part)) parts) in
  if Js.is_empty joined then "." else normalize joined.

(** [path.resolve]: the arguments are taken from the right until an
    absolute one is met; the working directory comes last. *)
Fixpoint resolveFrom (parts : list string) (resolved : string) : string :=
  match parts with
  | [] => resolved
  | part :: rest =>
      if isAbsolute resolved then resolved
      else if Js.is_empty part then resolveFrom rest resolved
      else resolveFrom rest (part +:+ "/" +:+ resolved)
  end.

Definition resolve (workingDirectory : string) (parts : list string) : string :=
  let resolved := resolveFrom (rev parts ++ [workingDirectory]) EmptyString in
  let body := Js.join "/" (normalizeSegments false [] (segments resolved)) in
  if isAbsolute resolved then "/" +:+ body
  else if Js.is_empty body then "." else body.

(** The walk of [dirname] from the end of the path towards its second
    code unit: slashes at the end are passed over, and the walk stops at
    the first slash that has another code unit behind it. The result is
    what is still to be walked, in reverse. *)
Fixpoint dirnameEnd (matchedSlash : bool) (reversed : string) : option string :=
  match reversed with
  | EmptyString => None
  | String c t =>
      if Js.eqc c slash
      then if matchedSlash then dirnameEnd true t else Some t
      else dirnameEnd false t
  end.

Definition dirname (p : string) : string :=
  match p with
  | EmptyString => "."
  | String first rest =>
      let hasRoot := Js.eqc first slash in
      match dirnameEnd true (Js.rev rest) with
      | None => if hasRoot then "/" else "."
      | Some before =>
          if hasRoot && Js.is_empty before then "//"
          else String first (Js.rev before)
      end
  end.

Fixpoint dropCommon (a b : list string) : list string * list string :=
  match a, b with
  | x :: a', y :: b' => if String.eqb x y then dropCommon a' b' else (a, b)
  | _, _ => (a, b)
  end.

Definition relative (workingDirectory from to : string) : string :=
  let fromParts := normalizeSegments false [] (segments (resolve workingDirectory [from])) in
  let toParts := normalizeSegments false [] (segments (resolve workingDirectory [to])) in
  let (up, down) := dropCommon fromParts toParts in
  Js.join "/" (map (fun _ => "..") up ++ down).

End Posix.

Module JsonText.

Definition is_json_space (c : ascii) : bool :=
  ((Js.code c =? 32) || (Js.code c =? 9) || (Js.code c =? 10) || (Js.code c =? 13))%nat.

Definition skip_ws (s : string) : string := Js.skip is_json_space s.

Fixpoint digits_value (acc : Z) (s : string) : Z :=
  match s with
  | String c t => digits_value (10 * acc + Z.of_nat (Js.code c - 48)) t
  | EmptyString => acc
  end.

(** The characters of a string literal up to its closing quote. *)
Fixpoint string_body (s : string) (acc : string) : option (string * string) :=
  match s with
  | EmptyString => None
  | String c t =>
      if Js.eqc c "034"%char then Some (Js.rev acc, t)
      else if (Js.code c <? 32)%nat then None
      else if Js.eqc c "\"%char then
        match t with
        | String e t' =>
            let unescaped :=
              if Js.eqc e "034"%char then Some "034"%char
              else if Js.eqc e "\"%char then Some "\"%char
              else if Js.eqc e "/"%char then Some "/"%char
              else if Js.eqc e "n"%char then Some "010"%char
              else if Js.eqc e "t"%char then Some "009"%char
              else if Js.eqc e "r"%char then Some "013"%char
              else if Js.eqc e "b"%char then Some "008"%char
              else if Js.eqc e "f"%char then Some "012"%char
              else None in
            match unescaped with
            | Some u => string_body t' (String u acc)
            | None => None
            end
        | EmptyString => None
        end
      else string_body t (String c acc)
  end.

Definition number (s : string) : option (json * string) :=
  let (negative, s1) :=
    match s with
    | String c t => if Js.eqc c "-"%char then (true, t) else (false, s)
    | EmptyString => (false, s)
    end in
  let n := Js.span_len Js.is_digit s1 in
  let digits := Js.take n s1 in
  let rest := Js.drop n s1 in
  let leading_zero :=
    match digits with
    | String c (String _ _) => Js.eqc c "0"%char
    | _ => false
    end in
  let continues :=
    match rest with
    | String c _ => Js.eqc c "."%char || Js.eqc c "e"%char || Js.eqc c "E"%char
    | EmptyString => false
    end in
  if (n =? 0)%nat || leading_zero || continues then None else
  Some (JNum (if negative then - digits_value 0 digits else digits_value 0 digits), rest).

(** A value, the items of an array after its opening bracket, and the
    members of an object after its opening brace. *)
Fixpoint value (fuel : nat) (s : string) : option (json * string) :=
  match fuel with
  | O => None
  | S f =>
      match skip_ws s with
      | String c t =>
          if Js.eqc c "{"%char then
            match skip_ws t with
            | String d t' =>
                if Js.eqc d "}"%char then Some (JObj [], t') else members f (skip_ws t) []
            | EmptyString => None
            end
          else if Js.eqc c "["%char then
            match skip_ws t with
            | String d t' =>
                if Js.eqc d "]"%char then Some (JArr [], t') else items f t []
            | EmptyString => None
            end
          else if Js.eqc c "034"%char then
            match string_body t EmptyString with
            | Some (text, rest) => Some (JStr text, rest)
            | None => None
            end
          else
            match Js.strip_lit Js.eqc "true" (String c t),
                  Js.strip_lit Js.eqc "false" (String c t),
                  Js.strip_lit Js.eqc "null" (String c t) with
            | Some rest, _, _ => Some (JBool true, rest)
            | _, Some rest, _ => Some (JBool false, rest)
            | _, _, Some rest => Some (JNull, rest)
            | _, _, _ => number (String c t)
            end
      | EmptyString => None
      end
  end
with items (fuel : nat) (s : string) (acc : list json) : option (json * string) :=
  match fuel with
  | O => None
  | S f =>
      match value f s with
      | Some (item, rest) =>
          match skip_ws rest with
          | String c t =>
              if Js.eqc c ","%char then items f t (item :: acc)
              else if Js.eqc c "]"%char then Some (JArr (rev (item :: acc)), t)
              else None
          | EmptyString => None
          end
      | None => None
      end
  end
with members (fuel : nat) (s : string) (acc : list (string * json))
  : option (json * string) :=
  match fuel with
  | O => None
  | S f =>
      match s with
      | String q t =>
          if Js.eqc q "034"%char then
            match string_body t EmptyString with
            | Some (key, rest) =>
                match skip_ws rest with
                | String colon rest' =>
                    if Js.eqc colon ":"%char then
                      match value f rest' with
                      | Some (v, rest'') =>
                          match skip_ws rest'' with
                          | String c t' =>
                              if Js.eqc c ","%char
                              then members f (skip_ws t') (Obj.set_field key v acc)
                              else if Js.eqc c "}"%char
                              then Some (JObj (Obj.set_field key v acc), t')
                              else None
                          | EmptyString => None
                          end
                      | None => None
                      end
                    else None
                | EmptyString => None
                end
            | None => None
            end
          else None
      | EmptyString => None
      end
  end.

Definition parse (text : string) : option json :=
  match value (2 * String.length text + 2) text with
  | Some (v, rest) => if Js.is_empty (skip_ws rest) then Some v else None
  | None => None
  end.

End JsonText.

(** The reference host; its random bytes are all zero, so a nonce is the
    base64 text of [n] zero bytes. *)
Definition zeroBytes (n : nat) : string :=
  Js.concat_all (repeat "AAAA" (n / 3))
  +:+ match n mod 3 with
      | 1 => "AA=="
      | 2 => "AAA="
      | _ => EmptyString
      end.

(** The keys of the reference host come in the order of the map. *)
Definition mapKeys (envVars : gmap string string) : list string :=
  map fst (map_to_list envVars).

Definition mapKeys_own (envVars : gmap string string) (key : string) :
  In key (mapKeys envVars) <-> is_Some (envVars !! key).
Proof.
  unfold mapKeys. rewrite in_map_iff. split.
  - intros ([k v] & <- & Hin). exists v.
    by apply list_elem_of_In, elem_of_map_to_list in Hin.
  - intros [v Hv]. exists (key, v). split; [reflexivity|].
    by apply list_elem_of_In, elem_of_map_to_list.
Qed.

Definition mapKeys_once (envVars : gmap string string) : NoDup (mapKeys envVars).
Proof. apply NoDup_fst_map_to_list. Qed.

Definition posix : Host := {|
  path_join := Posix.join;
  path_resolve := Posix.resolve;
  path_dirname := Posix.dirname;
  path_relative := Posix.relative;
  path_normalize := Posix.normalize;
  path_isAbsolute := Posix.isAbsolute;
  JSON_parse := JsonText.parse;
  randomBytes_base64 := zeroBytes;
  Object_keys := mapKeys;
  Object_keys_own := mapKeys_own;
  Object_keys_once := mapKeys_once;
|}.

(** ** Vocabulary of the specification *)

Module Spec.

(** The text a piece of a scanned template came from. *)
Definition source {G} (p : Js.piece G) : string :=
  match p with
  | Js.Lit c => String c EmptyString
  | Js.Hit _ matched => matched
  end.

(** The placeholder token for a name. *)
Definition placeholder (name : string) : string := "{{" +:+ name +:+ "}}".

(** A template cut into the code units outside placeholders and its
    placeholders, in order. *)
Definition pieces (template : string) : list (Js.piece string) :=
  Js.scan Constants.TEMPLATE_VARIABLE template.

(** The names of the placeholders of a text. *)
Definition placeholders (template : string) : list string :=
  map fst (Js.hits (pieces template)).

(** Section 4.1: a placeholder is replaced by the mapped value if present,
    otherwise its text is left unchanged. *)
Definition substitute (V : gmap string string) (p : Js.piece string) : string :=
  match p with
  | Js.Lit c => String c EmptyString
  | Js.Hit name matched =>
      match V !! name with
      | Some value => value
      | None => matched
      end
  end.

(** The rule of the environment module: the value of the name, else the
    value of the name under the Angular prefix, else the placeholder
    itself. *)
Definition substitute_ng (V : gmap string string) (p : Js.piece string) : string :=
  match p with
  | Js.Lit c => String c EmptyString
  | Js.Hit name matched =>
      match V !! name, V !! ("NG_" +:+ name) with
      | Some value, _ => value
      | None, Some value => value
      | None, None => matched
      end
  end.

(** What the resolver of the configuration loader puts for a piece: the
    value the object has for the name of a placeholder, as its own or by
    inheritance, else the placeholder as it stands. *)
Definition resolved (V : gmap string string) (p : Js.piece string) : string :=
  match p with
  | Js.Lit c => String c EmptyString
  | Js.Hit name matched =>
      match Js.member V name with
      | Some value => value
      | None => matched
      end
  end.

(** The rule of the environment module as the code has it. *)
Definition resolved_ng (V : gmap string string) (p : Js.piece string) : string :=
  match p with
  | Js.Lit c => String c EmptyString
  | Js.Hit name matched =>
      match Js.member V name with
      | Some value => value
      | None =>
          match Js.member V ("NG_" +:+ name) with
          | Some value => value
          | None => matched
          end
      end
  end.

(** A name as a placeholder can carry it: word characters, at least
    one. *)
Definition name_ok (name : string) : Prop :=
  name <> EmptyString /\ Js.all_chars Js.is_word name = true.

(** The text holds the placeholder of the name somewhere. *)
Definition holds (text name : string) : Prop :=
  exists before after, text = before +:+ placeholder name +:+ after.

(** A brace, and a value that cannot take part in a placeholder: it holds
    no brace and at least one code unit that is not a word character. *)
Definition is_brace (c : ascii) : bool := Js.eqc c "{"%char || Js.eqc c "}"%char.

Definition inert (v : string) : Prop :=
  Js.all_chars (fun c => negb (is_brace c)) v = true
  /\ Js.all_chars Js.is_word v = false.

(** The pieces a second scan finds where a first pass left a text. *)
Fixpoint lits (s : string) : list (Js.piece string) :=
  match s with
  | EmptyString => []
  | String c t => Js.Lit c :: lits t
  end.

Definition rescan (V : gmap string string) (p : Js.piece string)
  : list (Js.piece string) :=
  match p with
  | Js.Lit c => [Js.Lit c]
  | Js.Hit name matched =>
      match V !! name with
      | Some v => lits v
      | None => [Js.Hit name matched]
      end
  end.

(** [q] begins [s]. *)
Definition starts (q s : string) : Prop := exists r, s = q +:+ r.

(** The code units a placeholder is made of. *)
Definition token_char (c : ascii) : bool := Js.is_word c || is_brace c.

(** A text that is empty or ends with a closing brace. *)
Definition closed (q : string) : Prop :=
  match Js.last_char q with
  | Some c => c = "}"%char
  | None => True
  end.

(** Section 4.3: upper-casing with an underscore inserted before each
    upper-case letter. *)
Fixpoint upper_snake (key : string) : string :=
  match key with
  | EmptyString => EmptyString
  | String c t =>
      if Js.is_upper c
      then String "_"%char (String c (upper_snake t))
      else String (Js.upper_char c) (upper_snake t)
  end.

(** A key in camelCase begins with a lower-case letter. *)
Definition camelCase (key : string) : Prop :=
  match key with
  | String c _ => Js.is_lower c = true
  | EmptyString => False
  end.

(** The first defined value of two. *)
Definition or_else {A} (x y : option A) : option A :=
  match x with
  | Some v => Some v
  | None => y
  end.


(** The number of CSP meta tags of a page: the matches of the pattern
    with which [processHTMLContent] removes them. *)
Definition cspTagCount (html : string) : nat :=
  length (Js.hits (Js.scan HtmlDetector.cspRegex html)).

Section WithHost.
Context {H : Host}.

(** What one environment file contributes in [loadReactEnv]. *)
Definition fileVars (w : World) (projectRoot envFile : string)
  : gmap string string :=
  Environment.loadEnvFile w projectRoot ∅ envFile.

(** What the process environment contributes in [loadReactEnv]. *)
Definition processVars (w : World) : gmap string string :=
  filter (fun kv => Environment.is_react_or_vite kv.1 = true) (env w).

(** The production search paths that come before [public/index.html]. *)
Definition buildCandidates (angularBuildPaths : list string) : list string :=
  angularBuildPaths
  ++ ["dist/*/index.html"; "dist/index.html"; "build/index.html"; "www/index.html"].

End WithHost.
End Spec.

(** ** Vocabulary of the further properties *)

Module Shape.

(** A name as [ENV_FILE_LINE] accepts it: a letter or an underscore, then
    word characters. *)
Definition identifier (key : string) : bool :=
  match key with
  | String c t => Constants.is_key_start c && Js.all_chars Js.is_word t
  | EmptyString => false
  end.

(** A text without line terminators. *)
Definition one_line (s : string) : bool := Js.all_chars Js.is_dot s.

(** A text that [trim] leaves as it is. *)
Definition trimmed (s : string) : Prop := Js.trim s = s.

Definition newline : string := String "010"%char EmptyString.

(** An entry as a line of an environment file can give it. *)
Definition env_entry (prefix key value : string) : Prop :=
  Js.startsWith key prefix = true
  /\ identifier key = true
  /\ one_line value = true.

(** The fields of an object carry distinct names. *)
Definition distinct {A} (fields : list (string * A)) : Prop :=
  NoDup (map fst fields).

(** The directive [d] of a configuration. *)
Definition directive (config : json) (d : string) : Obj.value :=
  Obj.get_opt (Obj.get_opt (Some config) "directives") d.



(** The meta tag [processHTMLContent] writes for a policy. *)
Definition metaTag (csp : string) (reportOnly : bool) : string :=
  "<meta http-equiv=" +:+ HtmlDetector.dq
  +:+ (if reportOnly then "Content-Security-Policy-Report-Only"
       else "Content-Security-Policy")
  +:+ HtmlDetector.dq +:+ " content=" +:+ HtmlDetector.dq +:+ csp
  +:+ HtmlDetector.dq +:+ ">".

(** A text without a dollar sign, the character replacement patterns
    start with. *)
Definition no_dollar (s : string) : bool :=
  Js.all_chars (fun c => negb (Js.eqc c "$"%char)) s.

(** The text [buildCSP] writes for one source of a directive: the nonce
    source for the nonce token when there is a nonce, the source with its
    placeholders resolved otherwise. *)
Definition sourceText (this : CSPInjector.injector) (nonce : option string)
  (source : string) : string :=
  if CSPInjector.truthy_string nonce && String.eqb source CSPInjector.nonce_token
  then "'nonce-" +:+ default EmptyString nonce +:+ "'"
  else ConfigLoader.resolveTemplateVariables source (CSPInjector.envVars this).

(** The text of one directive: its name and its sources, the blank ones
    left out. *)
Definition directiveText (this : CSPInjector.injector) (nonce : option string)
  (directive : string * list string) : string :=
  directive.1 +:+ " "
  +:+ Js.join " " (List.filter CSPInjector.keepValue
                     (map (sourceText this nonce) directive.2)).

(** Directives as the type [CSPConfig] declares them, as a value. *)
Definition typedDirectives (directives : list (string * list string)) : json :=
  JObj (map (fun directive => (directive.1, CSPInjector.strs directive.2)) directives).

(** The texts of a list of sources. *)
Definition texts (v : Obj.value) : list string :=
  match v with
  | Some (JArr items) =>
      omap (fun item => match item with JStr text => Some text | _ => None end) items
  | _ => []
  end.

(** How [parseArguments] takes one argument: an empty one is passed
    over, one that starts with two dashes, or with one dash and is longer
    than that, is an option, anything else is positional. *)
Inductive token : Type :=
| Blank
| Named (key : string)
| Plain.

Definition classify (arg : string) : token :=
  if Js.is_empty arg then Blank
  else if Js.startsWith arg "--" then Named (Js.drop 2 arg)
  else if Js.startsWith arg "-" && (1 <? String.length arg)%nat then Named (Js.drop 1 arg)
  else Plain.

(** An argument that can be the value of the option before it. *)
Definition usable (next : string) : bool :=
  negb (Js.is_empty next) && negb (Js.startsWith next "-").

(** The command line read from left to right: an option takes the
    argument behind it as its value when that one is usable, and is a
    flag otherwise. *)
Fixpoint parseFrom (args : list string) (result : Cli.ParsedArgs) : Cli.ParsedArgs :=
  match args with
  | [] => result
  | arg :: rest =>
      match classify arg with
      | Blank => parseFrom rest result
      | Plain => parseFrom rest (Cli.pushPositional arg result)
      | Named key =>
          match rest with
          | next :: rest' =>
              if usable next
              then parseFrom rest' (Cli.setOption key (Cli.Text next) result)
              else parseFrom rest (Cli.setOption key (Cli.Flag true) result)
          | [] => Cli.setOption key (Cli.Flag true) result
          end
      end
  end.

Section WithHost.
Context {H : Host}.

(** A map whose entries all come from Angular environment files. *)
Definition from_environment_file (w : World) (m : gmap string string) : Prop :=
  forall k v, m !! k = Some v ->
              exists envPath, Environment.parseAngularEnvFile w envPath !! k = Some v.

(** A detection result made from a file that can be read. *)
Definition describes (w : World) (found : HtmlDetector.HTMLDetectionResult) : Prop :=
  exists content,
    Fs.readFileSync w (HtmlDetector.path found) = Ok content
    /\ HtmlDetector.hasExistingCSP found = HtmlDetector.cspDetected content.

End WithHost.
End Shape.


(** ** Concrete worlds *)

Module Examples.

Definition dq : string := HtmlDetector.dq.

Definition page : string :=
  "<!DOCTYPE html>
<html>
<head>
  <title>App</title>
</head>
<body></body>
</html>".

Definition noOptions : CSPInjector.InjectOptions :=
  CSPInjector.mkOptions None None None None None.

(** A project whose only page is [public/index.html]. *)
Definition publicOnly : World :=
  mkWorld "/app"
    (<["/app" := Dir ["public"]]>
       (<["/app/public" := Dir ["index.html"]]>
          (<["/app/public/index.html" := File page true]> ∅)))
    ∅.

Definition publicOnlyDevelopment : World :=
  mkWorld "/app" (fs publicOnly) (<["NODE_ENV" := "development"]> ∅).

(** A page that no world holds. *)
Definition missingPage : CSPInjector.InjectOptions :=
  CSPInjector.mkOptions (Some "missing.html") None (Some true) None None.

Definition productionVars : gmap string string := <["NODE_ENV" := "production"]> ∅.
Definition developmentVars : gmap string string := <["NODE_ENV" := "development"]> ∅.

(** A React project with [.env] and [.env.local]. *)
Definition reactFiles : gmap string node :=
  <["/app/.env" := File "REACT_APP_API_URL=https://api.example.com" true]>
    (<["/app/.env.local" := File "REACT_APP_API_URL=https://local.api.example.com" true]> ∅).

Definition reactProject : World := mkWorld "/app" reactFiles ∅.

Definition reactProjectWithProcessValue : World :=
  mkWorld "/app" reactFiles (<["REACT_APP_API_URL" := "https://shell.example.com"]> ∅).

Definition chained : gmap string string := <["A" := "{{B}}"]> (<["B" := "x"]> ∅).

Definition onlyA : gmap string string := <["A" := "x"]> ∅.

Definition urlVars : gmap string string :=
  <["REACT_APP_API_URL" := "https://api.example.com"]> ∅.

Definition angularUrl : gmap string string :=
  <["NG_API_URL" := "https://app1.com"]> ∅.

(** A value under the Angular prefix for a name every object inherits. *)
Definition angularToString : gmap string string :=
  <["NG_toString" := "https://app1.com"]> ∅.

Definition environmentTs : string := "/app/src/environments/environment.ts".

Definition angularProject (text : string) : World :=
  mkWorld "/app" (<[environmentTs := File text true]> ∅) ∅.

Definition environmentWithUrl : string :=
  "export const environment = {
  production: false,
  apiUrl: 'https://app1.com'
};".

Definition environmentWithEmptyUrl : string :=
  "export const environment = { apiUrl: '' };".

Definition apiUrlProperty : Environment.property :=
  Environment.mkProperty "apiUrl" (Some "https://app1.com") None.

Definition configWithPlaceholder : string :=
  "{" +:+ dq +:+ "reportOnly" +:+ dq +:+ ": {{VITE_REPORT}}}".

Definition brokenConfig : string := "{ directives: ".

Definition configProject (text : string) : World :=
  mkWorld "/app" (<["/app/csp.config.json" := File text true]> ∅) ∅.

Definition reportVars : gmap string string := <["VITE_REPORT" := "true"]> ∅.


End Examples.

(** ** Further concrete worlds *)

Module Worlds.

Definition dq : string := HtmlDetector.dq.

(** The React project of the examples, run from a shell that sets
    [PATH]. *)
Definition shell : World :=
  mkWorld "/app" Examples.reactFiles (<["PATH" := "/usr/bin"]> ∅).

(** A project whose [angular.json] is the empty object. *)
Definition bareWorkspace : World :=
  mkWorld "/app" (<["/app/angular.json" := File "{}" true]> ∅) ∅.

(** An [angular.json] that names a build output. *)
Definition angularJson : string :=
  "{" +:+ dq +:+ "projects" +:+ dq +:+ ":{" +:+ dq +:+ "app" +:+ dq +:+ ":{"
  +:+ dq +:+ "architect" +:+ dq +:+ ":{" +:+ dq +:+ "build" +:+ dq +:+ ":{"
  +:+ dq +:+ "options" +:+ dq +:+ ":{" +:+ dq +:+ "outputPath" +:+ dq +:+ ":"
  +:+ dq +:+ "out/app" +:+ dq +:+ "}}}}}}".

(** A built Angular project: the page of the build output named in
    [angular.json], and another page in [dist]. *)
Definition built : World :=
  mkWorld "/app"
    (<["/app/angular.json" := File angularJson true]>
       (<["/app/out/app/index.html" := File Examples.page true]>
          (<["/app/dist/index.html" := File Examples.page true]> ∅)))
    ∅.

(** A configuration of a user: its own [script-src] and [useNonce]. *)
Definition userConfig : json :=
  JObj [("directives", JObj [("script-src", CSPInjector.strs ["'self'"; "https://cdn.example.com"])]);
        ("useNonce", JBool true)].

(** A JSON text with a field [constructor]. *)
Definition guarded : string :=
  "{" +:+ dq +:+ "constructor" +:+ dq +:+ ":1," +:+ dq +:+ "useNonce" +:+ dq +:+ ":true}".

(** The directives of the default configuration, as the type declares
    them. *)
Definition defaultDirectives : list (string * list string) :=
  [("default-src", ["'self'"]);
   ("style-src", ["'self'"; "'unsafe-inline'"]);
   ("img-src", ["'self'"; "data:"; "blob:"]);
   ("font-src", ["'self'"; "data:"]);
   ("connect-src", ["'self'"]);
   ("worker-src", ["'self'"; "blob:"]);
   ("manifest-src", ["'self'"]);
   ("script-src", ["'self'"; "'unsafe-inline'"])].

(** The options of [--dev] alone. *)
Definition devOnly : CSPInjector.InjectOptions :=
  CSPInjector.mkOptions None None (Some true) None None.

(** What the dry run of [--dev] reports in the project whose only page is
    [public/index.html]. *)
Definition devReport : Cli.DryRun :=
  Cli.mkDryRun (HtmlDetector.mkDetection "/app/public/index.html" "public" false)
    CSPInjector.DEFAULT_CONFIG (<["NODE_ENV" := "development"]> ∅).

(** The answers of a wizard run. *)
Definition viteChoices : Cli.InteractiveConfig :=
  Cli.mkChoices "vite" true false true "production".

End Worlds.


(** * Properties *)

(** ** Texts and scans *)

Lemma append_nil (s : string) : EmptyString +:+ s = s.
Proof. reflexivity. Qed.

Lemma append_cons (c : ascii) (s t : string) :
  String c s +:+ t = String c (s +:+ t).
Proof. reflexivity. Qed.

Create Rewrite HintDb js.
#[local] Hint Rewrite append_nil append_cons : js.

Ltac js_simpl := simpl; autorewrite with js; simpl.

Lemma append_assoc (a b c : string) : (a +:+ b) +:+ c = a +:+ (b +:+ c).
Proof. induction a as [|x a IH]; js_simpl; [reflexivity | by rewrite IH]. Qed.

Lemma take_drop (n : nat) (s : string) : Js.take n s +:+ Js.drop n s = s.
Proof.
  revert s; induction n as [|n IH]; intros [|c s]; js_simpl; try reflexivity.
  by rewrite IH.
Qed.

Lemma strip_lit_eqc (lit s rest : string) :
  Js.strip_lit Js.eqc lit s = Some rest -> s = lit +:+ rest.
Proof.
  revert s; induction lit as [|a lit IH]; intros s Hs; js_simpl; simpl in Hs.
  - by inversion Hs.
  - destruct s as [|b s]; [discriminate|].
    unfold Js.eqc in Hs. destruct (Ascii.eqb_spec a b) as [->|]; [|discriminate].
    by rewrite (IH _ Hs).
Qed.

Lemma strip_lit_eqc_app (lit rest : string) :
  Js.strip_lit Js.eqc lit (lit +:+ rest) = Some rest.
Proof.
  induction lit as [|a lit IH]; js_simpl; [reflexivity|].
  unfold Js.eqc. by rewrite Ascii.eqb_refl.
Qed.

(** A scan loses no text: the sources of its pieces, put together, are the
    text that was still to be walked. *)
Lemma scan_from_source {G} (m : Js.matcher G) (s : string) :
  forall pending,
    Js.concat_all (map Spec.source (Js.scan_from m pending s)) = Js.drop pending s.
Proof.
  induction s as [|c t IH]; intros pending; simpl.
  - destruct pending; [|reflexivity].
    destruct (m EmptyString) as [[g n]|]; reflexivity.
  - destruct pending as [|k]; [|apply IH].
    destruct (m (String c t)) as [[g [|k]]|]; js_simpl.
    + by rewrite (IH 0).
    + rewrite (IH k). by rewrite take_drop.
    + by rewrite (IH 0).
Qed.

Lemma scan_source {G} (m : Js.matcher G) (s : string) :
  Js.concat_all (map Spec.source (Js.scan m s)) = s.
Proof. apply (scan_from_source m s 0). Qed.

(** Every hit of a scan is a match of the matcher at some position. *)
Lemma scan_from_hits {G} (m : Js.matcher G) (P : G -> string -> Prop) :
  (forall s g n, m s = Some (g, n) -> P g (Js.take n s)) ->
  forall s pending,
    Forall (fun p => match p with Js.Hit g matched => P g matched | Js.Lit _ => True end)
           (Js.scan_from m pending s).
Proof.
  intros Hm s; induction s as [|c t IH]; intros pending; simpl.
  - destruct pending; [|constructor].
    destruct (m EmptyString) as [[g n]|] eqn:E; repeat constructor.
    specialize (Hm _ _ _ E). by destruct n.
  - destruct pending as [|k]; [|apply IH].
    destruct (m (String c t)) as [[g [|k]]|] eqn:E.
    + constructor; [apply (Hm _ _ _ E)|]. constructor; [exact I | apply IH].
    + constructor; [apply (Hm _ _ _ E) | apply IH].
    + constructor; [exact I | apply IH].
Qed.

Lemma hits_In {G} (l : list (Js.piece G)) (g : G) (matched : string) :
  In (Js.Hit g matched) l -> In (g, matched) (Js.hits l).
Proof.
  induction l as [|p l IH]; simpl; [tauto|].
  intros [->|Hin]; [by left|].
  destruct p; [by apply IH | right; by apply IH].
Qed.

Lemma take_app_length (a b : string) : Js.take (String.length a) (a +:+ b) = a.
Proof. induction a as [|x a IH]; js_simpl; [by destruct b | by rewrite IH]. Qed.

Lemma take_length (n : nat) (s : string) :
  n <= String.length s -> String.length (Js.take n s) = n.
Proof.
  revert s; induction n as [|n IH]; intros [|c s] Hn; simpl in *; try lia.
  rewrite IH; lia.
Qed.

Lemma span_len_le (p : ascii -> bool) (s : string) :
  Js.span_len p s <= String.length s.
Proof. induction s as [|c s IH]; simpl; [lia|]. destruct (p c); lia. Qed.

Lemma length_append (a b : string) :
  String.length (a +:+ b) = String.length a + String.length b.
Proof. induction a as [|x a IH]; js_simpl; [reflexivity | by rewrite IH]. Qed.

(** ** The template pattern *)

Lemma template_match_shape (s name : string) (n : nat) :
  Constants.TEMPLATE_VARIABLE s = Some (name, n) ->
  n = String.length (Spec.placeholder name)
  /\ name <> EmptyString
  /\ exists rest, s = Spec.placeholder name +:+ rest.
Proof.
  unfold Constants.TEMPLATE_VARIABLE.
  destruct (Js.strip_lit Js.eqc "{{" s) as [t|] eqn:E1; [|discriminate].
  destruct (Js.span_len Js.is_word t) as [|k] eqn:E2; [discriminate|].
  destruct (Js.strip_lit Js.eqc "}}" (Js.drop (S k) t)) as [r|] eqn:E3; [|discriminate].
  remember (S k) as j eqn:Hj.
  intros [= <- <-].
  apply strip_lit_eqc in E1, E3. subst s.
  assert (Hk : String.length (Js.take j t) = j).
  { apply take_length. rewrite <- E2. apply span_len_le. }
  unfold Spec.placeholder. repeat split.
  - rewrite !length_append, Hk. simpl. lia.
  - intros Hn. rewrite Hn in Hk. simpl in Hk. lia.
  - exists r. rewrite <- (take_drop j t) at 1. rewrite E3.
    by rewrite !append_assoc.
Qed.

Lemma template_match (s name : string) (n : nat) :
  Constants.TEMPLATE_VARIABLE s = Some (name, n) ->
  Js.take n s = Spec.placeholder name.
Proof.
  intros (-> & _ & rest & ->)%template_match_shape. apply take_app_length.
Qed.

(** The placeholders of a text are written [{{name}}]. *)
Lemma pieces_placeholders (template : string) :
  Forall (fun p => match p with
                   | Js.Hit name matched => matched = Spec.placeholder name
                   | Js.Lit _ => True
                   end)
         (Spec.pieces template).
Proof.
  apply (scan_from_hits Constants.TEMPLATE_VARIABLE
           (fun name matched => matched = Spec.placeholder name)).
  intros s g n Hm. by apply template_match.
Qed.

Lemma pieces_source (template : string) :
  Js.concat_all (map Spec.source (Spec.pieces template)) = template.
Proof. apply scan_source. Qed.

Lemma resolve_pieces (template : string) (V : gmap string string) :
  ConfigLoader.resolveTemplateVariables template V
  = Js.concat_all (map (Spec.resolved V) (Spec.pieces template)).
Proof. reflexivity. Qed.

(** Where the object has the name as its own, or inherits nothing under
    it, the resolver follows the rule of section 4.1. *)
Lemma resolved_substitute (V : gmap string string) (name matched : string) :
  (V !! name = None -> Js.inherited name = None) ->
  Spec.resolved V (Js.Hit name matched) = Spec.substitute V (Js.Hit name matched).
Proof.
  intros Hown. simpl. unfold Js.member.
  destruct (V !! name); [reflexivity|]. by rewrite Hown.
Qed.

(** A text for none of whose placeholders the object has a value is left
    as it is. *)
Lemma resolve_unbound (text : string) (V : gmap string string) :
  (forall name, In name (Spec.placeholders text) -> Js.member V name = None) ->
  ConfigLoader.resolveTemplateVariables text V = text.
Proof.
  intros Hfree. rewrite resolve_pieces.
  rewrite <- (pieces_source text) at 2. f_equal.
  apply map_ext_in. intros [c|name matched] Hin; simpl; [reflexivity|].
  rewrite Hfree; [reflexivity|].
  unfold Spec.placeholders. apply (in_map fst _ (name, matched)).
  by apply hits_In.
Qed.

(** ** A second pass over resolved text *)

Lemma starts_nil (s : string) : Spec.starts EmptyString s.
Proof. exists s. reflexivity. Qed.

Lemma starts_app (q a b : string) :
  Spec.starts q (a +:+ b) ->
  Spec.starts q a \/ exists q', q = a +:+ q' /\ Spec.starts q' b.
Proof.
  revert q; induction a as [|x a IH]; intros q; js_simpl.
  - intros Hq. right. by exists q.
  - destruct q as [|y q]; [intros _; left; apply starts_nil|].
    intros [r Hr]. js_simpl. injection Hr as <- Hr.
    destruct (IH q) as [[r' ->]|(q' & -> & Hq')]; [by exists r| |].
    + left. exists r'. by js_simpl.
    + right. exists q'. by js_simpl.
Qed.

Lemma all_chars_app (p : ascii -> bool) (a b : string) :
  Js.all_chars p (a +:+ b) = Js.all_chars p a && Js.all_chars p b.
Proof. induction a as [|x a IH]; js_simpl; [reflexivity|]. rewrite IH. by destruct (p x). Qed.

Lemma last_char_None (q : string) : Js.last_char q = None -> q = EmptyString.
Proof.
  induction q as [|x q IH]; [done|]. simpl.
  destruct q; [discriminate|]. intros E. by specialize (IH E).
Qed.

Lemma closed_last (q : string) :
  Spec.closed q -> q <> EmptyString -> Js.last_char q = Some "}"%char.
Proof.
  unfold Spec.closed. destruct (Js.last_char q) as [c|] eqn:E; [by intros ->|].
  intros _ Hq. by apply last_char_None in E.
Qed.

Lemma last_char_app (a b : string) :
  b <> EmptyString -> Js.last_char (a +:+ b) = Js.last_char b.
Proof.
  intros Hb. induction a as [|x a IH]; js_simpl; [reflexivity|].
  rewrite <- IH. destruct (a +:+ b) eqn:E; [|reflexivity].
  destruct a; autorewrite with js in E; [congruence | discriminate].
Qed.

Lemma last_char_in (p : ascii -> bool) (s : string) (c : ascii) :
  Js.all_chars p s = true -> Js.last_char s = Some c -> p c = true.
Proof.
  induction s as [|x s IH]; simpl; [discriminate|].
  rewrite andb_true_iff. intros [Hx Hs].
  destruct s; [intros [= <-]; exact Hx | by apply IH].
Qed.

Lemma inert_not_token (v : string) :
  Spec.inert v -> Js.all_chars Spec.token_char v = false.
Proof.
  intros [Hb Hw]. induction v as [|x v IH]; simpl in *; [discriminate|].
  apply andb_true_iff in Hb as [Hx Hb].
  unfold Spec.token_char at 1. apply negb_true_iff in Hx. rewrite Hx, orb_false_r.
  destruct (Js.is_word x); simpl in *; [by apply IH | reflexivity].
Qed.

Section SecondPass.
Variable V : gmap string string.
Hypothesis inert_values : forall k v, V !! k = Some v -> Spec.inert v.

(** A text made of token characters and closed by a brace that begins
    the resolved pieces begins their sources as well: it cannot reach
    into a value that was put in. *)
Lemma starts_resolved (ps : list (Js.piece string)) :
  Forall (fun p => match p with
                   | Js.Hit name matched => matched = Spec.placeholder name
                   | Js.Lit _ => True
                   end) ps ->
  forall q, Js.all_chars Spec.token_char q = true -> Spec.closed q ->
    Spec.starts q (Js.concat_all (map (Spec.substitute V) ps)) ->
    Spec.starts q (Js.concat_all (map Spec.source ps)).
Proof.
  induction 1 as [|p ps Hp _ IH]; intros q Hq Hclosed; [done|].
  simpl map. simpl Js.concat_all.
  intros [Hs|(q' & -> & Hq')]%starts_app.
  - assert (Hsame : q = EmptyString \/ Spec.substitute V p = Spec.source p).
    { destruct p as [c|name matched]; [by right|]. simpl in Hs |- *.
      destruct (V !! name) as [v|] eqn:Hv; [|by right].
      destruct q as [|y q]; [by left|]. exfalso.
      destruct (inert_values _ _ Hv) as [Hb _]. destruct Hs as [r ->].
      rewrite all_chars_app in Hb. apply andb_true_iff in Hb as [Hb _].
      assert (Hlast := closed_last _ Hclosed ltac:(discriminate)).
      by pose proof (last_char_in _ _ _ Hb Hlast). }
    destruct Hsame as [->|Hsame]; [apply starts_nil|].
    rewrite Hsame in Hs. destruct Hs as [r Hr].
    exists (r +:+ Js.concat_all (map Spec.source ps)).
    by rewrite <- append_assoc, <- Hr.
  - rewrite all_chars_app in Hq. apply andb_true_iff in Hq as [Hq1 Hq2].
    assert (Hsame : Spec.substitute V p = Spec.source p).
    { destruct p as [c|name matched]; [reflexivity|]. simpl in *.
      destruct (V !! name) as [v|] eqn:Hv; [|reflexivity].
      by rewrite (inert_not_token v (inert_values _ _ Hv)) in Hq1. }
    rewrite <- Hsame.
    assert (Hclosed' : Spec.closed q').
    { destruct q' as [|y q']; [done|].
      unfold Spec.closed in *. by rewrite last_char_app in Hclosed. }
    destruct (IH q' Hq2 Hclosed' Hq') as [r ->].
    exists r. by rewrite append_assoc.
Qed.

End SecondPass.

Lemma In_hits {G} (l : list (Js.piece G)) (g : G) (matched : string) :
  In (g, matched) (Js.hits l) -> In (Js.Hit g matched) l.
Proof.
  induction l as [|p l IH]; simpl; [tauto|].
  destruct p as [c|g' m']; simpl; [by right; apply IH|].
  intros [[= -> ->]|Hin]; [by left | right; by apply IH].
Qed.

Lemma drop_app_length (a b : string) : Js.drop (String.length a) (a +:+ b) = b.
Proof. induction a as [|x a IH]; js_simpl; [by destruct b | exact IH]. Qed.

Lemma span_len_app_stop (p : ascii -> bool) (a b : string) :
  Js.all_chars p a = true ->
  match b with String c _ => p c = false | EmptyString => True end ->
  Js.span_len p (a +:+ b) = String.length a.
Proof.
  intros Ha Hb. induction a as [|x a IH]; js_simpl.
  - destruct b as [|c b]; [reflexivity|]. simpl. by rewrite Hb.
  - simpl in Ha. apply andb_true_iff in Ha as [-> Ha]. by rewrite IH.
Qed.

Lemma all_chars_take_span (p : ascii -> bool) (s : string) :
  Js.all_chars p (Js.take (Js.span_len p s) s) = true.
Proof.
  induction s as [|c s IH]; simpl; [reflexivity|].
  destruct (p c) eqn:Hc; simpl; [by rewrite Hc | reflexivity].
Qed.

Lemma scan_from_drop {G} (m : Js.matcher G) (s : string) :
  forall pending, pending <= String.length s ->
    Js.scan_from m pending s = Js.scan_from m 0 (Js.drop pending s).
Proof.
  induction s as [|c t IH]; intros [|k] Hk; simpl in *; try reflexivity; try lia.
  apply IH. lia.
Qed.

(** The pattern matches exactly the texts that begin with a placeholder. *)
Lemma template_match_intro (name rest : string) :
  name <> EmptyString -> Js.all_chars Js.is_word name = true ->
  Constants.TEMPLATE_VARIABLE (Spec.placeholder name +:+ rest)
  = Some (name, String.length (Spec.placeholder name)).
Proof.
  intros Hne Hword. unfold Constants.TEMPLATE_VARIABLE, Spec.placeholder.
  rewrite !append_assoc, strip_lit_eqc_app.
  rewrite (span_len_app_stop Js.is_word name ("}}" +:+ rest) Hword) by reflexivity.
  remember (String.length name) as L eqn:HL.
  destruct L as [|k]; [by destruct name|].
  cbv beta iota zeta. rewrite HL, drop_app_length, take_app_length, strip_lit_eqc_app.
  do 2 f_equal. rewrite !length_append. simpl. lia.
Qed.

Lemma template_match_word (s name : string) (n : nat) :
  Constants.TEMPLATE_VARIABLE s = Some (name, n) ->
  Js.all_chars Js.is_word name = true.
Proof.
  unfold Constants.TEMPLATE_VARIABLE.
  destruct (Js.strip_lit Js.eqc "{{" s) as [t|]; [|discriminate].
  destruct (Js.span_len Js.is_word t) as [|k] eqn:E2; [discriminate|].
  destruct (Js.strip_lit Js.eqc "}}" (Js.drop (S k) t)); [|discriminate].
  rewrite <- E2. intros [= <- _]. apply all_chars_take_span.
Qed.

Lemma placeholder_token (name : string) :
  Js.all_chars Js.is_word name = true ->
  Js.all_chars Spec.token_char (Spec.placeholder name) = true
  /\ Spec.closed (Spec.placeholder name).
Proof.
  intros Hword. unfold Spec.placeholder. split.
  - rewrite !all_chars_app. simpl. rewrite andb_true_r.
    clear -Hword. induction name as [|x name IH]; simpl in *; [reflexivity|].
    apply andb_true_iff in Hword as [Hx Hword].
    unfold Spec.token_char at 1. by rewrite Hx, IH.
  - unfold Spec.closed. rewrite <- append_assoc, last_char_app by discriminate. reflexivity.
Qed.

(** The scan of a text that begins with a match. *)
Lemma scan_hit (s name : string) (n : nat) :
  Constants.TEMPLATE_VARIABLE s = Some (name, n) ->
  exists rest,
    s = Spec.placeholder name +:+ rest
    /\ Js.scan Constants.TEMPLATE_VARIABLE s
       = Js.Hit name (Spec.placeholder name) :: Js.scan Constants.TEMPLATE_VARIABLE rest.
Proof.
  intros Hm. destruct (template_match_shape _ _ _ Hm) as (Hn & Hne & rest & Hs).
  exists rest. split; [exact Hs|].
  unfold Js.scan. destruct s as [|c t]; [by destruct name|].
  simpl. rewrite Hm.
  destruct n as [|k]; [by destruct name|].
  rewrite <- (template_match _ _ _ Hm). f_equal.
  assert (Hk : k <= String.length t).
  { assert (Hl : String.length (String c t) = S k + String.length rest).
    { rewrite Hs, length_append. lia. }
    simpl in Hl. lia. }
  rewrite (scan_from_drop _ _ _ Hk). f_equal.
  change (Js.drop k t) with (Js.drop (S k) (String c t)).
  rewrite Hs, Hn. apply drop_app_length.
Qed.

Lemma scan_miss (c : ascii) (t : string) :
  Constants.TEMPLATE_VARIABLE (String c t) = None ->
  Js.scan Constants.TEMPLATE_VARIABLE (String c t)
  = Js.Lit c :: Js.scan Constants.TEMPLATE_VARIABLE t.
Proof. intros Hm. unfold Js.scan. simpl. by rewrite Hm. Qed.

Lemma strip_lit_cons (eq : ascii -> ascii -> bool) (a x : ascii) (lit s : string) :
  Js.strip_lit eq (String a lit) (String x s)
  = if eq a x then Js.strip_lit eq lit s else None.
Proof. reflexivity. Qed.

Lemma scan_lits (v rest : string) :
  Js.all_chars (fun c => negb (Spec.is_brace c)) v = true ->
  Js.scan Constants.TEMPLATE_VARIABLE (v +:+ rest)
  = Spec.lits v ++ Js.scan Constants.TEMPLATE_VARIABLE rest.
Proof.
  induction v as [|x v IH]; js_simpl; [reflexivity|].
  intros [Hx Hv]%andb_true_iff. rewrite scan_miss; [by rewrite IH|].
  unfold Constants.TEMPLATE_VARIABLE. rewrite strip_lit_cons.
  unfold Spec.is_brace in Hx. apply negb_true_iff, orb_false_iff in Hx as [Hx _].
  unfold Js.eqc in *. rewrite Ascii.eqb_sym in Hx. by rewrite Hx.
Qed.

(** ** Placeholders in a text *)

Lemma concat_all_app (a b : list string) :
  Js.concat_all (a ++ b) = Js.concat_all a +:+ Js.concat_all b.
Proof.
  induction a as [|x a IH]; simpl; [reflexivity|]. by rewrite IH, append_assoc.
Qed.

Lemma span_len_app_break (p : ascii -> bool) (a b : string) :
  match b with String c _ => p c = false | EmptyString => True end ->
  Js.span_len p (a +:+ b) = Js.span_len p a.
Proof.
  intros Hb. induction a as [|x a IH]; js_simpl.
  - destruct b as [|c b]; [reflexivity|]. simpl. by rewrite Hb.
  - destruct (p x); [by rewrite IH | reflexivity].
Qed.

Lemma drop_app_le (n : nat) (a b : string) :
  n <= String.length a -> Js.drop n (a +:+ b) = Js.drop n a +:+ b.
Proof.
  revert a; induction n as [|n IH]; intros [|x a] Hn; js_simpl; simpl in Hn;
    try reflexivity; try lia.
  apply IH. lia.
Qed.

Lemma take_app_le (n : nat) (a b : string) :
  n <= String.length a -> Js.take n (a +:+ b) = Js.take n a.
Proof.
  revert a; induction n as [|n IH]; intros [|x a] Hn; js_simpl; simpl in Hn;
    try reflexivity; try lia.
  rewrite IH; [reflexivity | lia].
Qed.

(** Whether the pattern matches at the head of a text does not depend on
    a placeholder that follows the text: a match cannot reach into it. *)
Lemma template_match_before (b rest : string) :
  b <> EmptyString ->
  Constants.TEMPLATE_VARIABLE (b +:+ "{{" +:+ rest) = Constants.TEMPLATE_VARIABLE b.
Proof.
  intros Hb. unfold Constants.TEMPLATE_VARIABLE.
  destruct b as [|x b]; [done|]. autorewrite with js. rewrite !strip_lit_cons.
  destruct (Js.eqc "{" x) eqn:Hx; [|reflexivity].
  destruct b as [|y b]; autorewrite with js; rewrite ?strip_lit_cons.
  - reflexivity.
  - destruct (Js.eqc "{" y) eqn:Hy; [|reflexivity].
    cbn [Js.strip_lit].
    rewrite (span_len_app_break Js.is_word b (String "{" (String "{" rest)))
      by reflexivity.
    pose proof (span_len_le Js.is_word b) as Hle.
    destruct (Js.span_len Js.is_word b) as [|k] eqn:Hn; [reflexivity|].
    rewrite (drop_app_le _ _ _ Hle), (take_app_le _ _ _ Hle).
    destruct (Js.drop (S k) b) as [|z d]; autorewrite with js; rewrite ?strip_lit_cons.
    + reflexivity.
    + destruct (Js.eqc "}" z); [|reflexivity].
      destruct d as [|u d]; autorewrite with js; rewrite ?strip_lit_cons.
      * reflexivity.
      * destruct (Js.eqc "}" u); reflexivity.
Qed.

Lemma append_inj (a b c : string) : a +:+ b = a +:+ c -> b = c.
Proof. induction a as [|x a IH]; js_simpl; [done|]. intros [= E]. by apply IH. Qed.

Lemma placeholder_length (name : string) :
  String.length (Spec.placeholder name) = String.length name + 4.
Proof. unfold Spec.placeholder. rewrite !length_append. simpl. lia. Qed.

Lemma placeholder_cons (name rest : string) :
  Spec.placeholder name +:+ rest = "{{" +:+ (name +:+ "}}" +:+ rest).
Proof. unfold Spec.placeholder. by rewrite !append_assoc. Qed.

(** The scan of a text around a placeholder: the scan of what is before
    it, the placeholder, the scan of what is behind it. *)
Lemma scan_placeholder (n : nat) :
  forall before, String.length before <= n ->
  forall name after, Spec.name_ok name ->
    Js.scan Constants.TEMPLATE_VARIABLE (before +:+ Spec.placeholder name +:+ after)
    = Js.scan Constants.TEMPLATE_VARIABLE before
      ++ Js.Hit name (Spec.placeholder name) :: Js.scan Constants.TEMPLATE_VARIABLE after.
Proof.
  induction n as [|n IH]; intros before Hlen name after [Hne Hword].
  { destruct before; [|simpl in Hlen; lia]. autorewrite with js.
    destruct (scan_hit _ _ _ (template_match_intro name after Hne Hword))
      as (rest & Hs & ->).
    apply append_inj in Hs. by subst rest. }
  destruct before as [|c t].
  { autorewrite with js.
    destruct (scan_hit _ _ _ (template_match_intro name after Hne Hword))
      as (rest & Hs & ->).
    apply append_inj in Hs. by subst rest. }
  assert (Hsame : Constants.TEMPLATE_VARIABLE (String c t +:+ Spec.placeholder name +:+ after)
                  = Constants.TEMPLATE_VARIABLE (String c t)).
  { rewrite placeholder_cons. by apply template_match_before. }
  destruct (Constants.TEMPLATE_VARIABLE (String c t)) as [[name' k]|] eqn:Hm.
  - destruct (scan_hit _ _ _ Hm) as (rest & Hs & ->).
    destruct (scan_hit _ _ _ Hsame) as (rest' & Hs' & ->).
    rewrite Hs, append_assoc in Hs'. apply append_inj in Hs'. subst rest'.
    simpl. f_equal. apply IH; [|by split].
    assert (Hl := f_equal String.length Hs).
    rewrite length_append, placeholder_length in Hl. simpl in Hl, Hlen. lia.
  - rewrite (scan_miss _ _ Hm). autorewrite with js in Hsame |- *.
    rewrite (scan_miss _ _ Hsame). simpl. f_equal.
    apply IH; [simpl in Hlen; lia | by split].
Qed.

(** Every placeholder the scan finds is held by the text, under a name
    made of word characters. *)
Lemma hit_holds (n : nat) :
  forall text, String.length text <= n ->
  forall name matched,
    In (Js.Hit name matched) (Js.scan Constants.TEMPLATE_VARIABLE text) ->
    Spec.name_ok name /\ Spec.holds text name.
Proof.
  induction n as [|n IH]; intros text Hlen name matched Hin.
  { destruct text; [destruct Hin | simpl in Hlen; lia]. }
  destruct text as [|c t]; [destruct Hin|].
  destruct (Constants.TEMPLATE_VARIABLE (String c t)) as [[name' k]|] eqn:Hm.
  - destruct (scan_hit _ _ _ Hm) as (rest & Hs & Hscan).
    rewrite Hscan in Hin. destruct Hin as [[= <- <-]|Hin].
    + split.
      * split; [by destruct (template_match_shape _ _ _ Hm) as (_ & ? & _)
               | by apply (template_match_word _ _ _ Hm)].
      * exists EmptyString, rest. by autorewrite with js.
    + destruct (IH rest) with (2 := Hin) as [Hok (before & after & ->)].
      { assert (Hl := f_equal String.length Hs).
        rewrite length_append, placeholder_length in Hl. simpl in Hl, Hlen. lia. }
      split; [exact Hok|].
      exists (Spec.placeholder name' +:+ before), after.
      by rewrite Hs, !append_assoc.
  - rewrite (scan_miss _ _ Hm) in Hin. destruct Hin as [|Hin]; [discriminate|].
    destruct (IH t) with (2 := Hin) as [Hok (before & after & ->)];
      [simpl in Hlen; lia|].
    split; [exact Hok|]. exists (String c before), after. by autorewrite with js.
Qed.

Lemma placeholders_hold (text name : string) :
  In name (Spec.placeholders text) -> Spec.name_ok name /\ Spec.holds text name.
Proof.
  unfold Spec.placeholders, Spec.pieces.
  intros ([name' matched] & <- & Hin)%in_map_iff. simpl.
  apply In_hits in Hin. by apply (hit_holds _ text (le_n _) name' matched).
Qed.

Lemma holds_placeholders (text name : string) :
  Spec.name_ok name -> Spec.holds text name -> In name (Spec.placeholders text).
Proof.
  intros Hok (before & after & ->). unfold Spec.placeholders, Spec.pieces.
  rewrite (scan_placeholder _ before (le_n _) name after Hok).
  apply (in_map fst _ (name, Spec.placeholder name)), hits_In, in_elt.
Qed.

(** The resolver works placeholder by placeholder: what is before and
    what is behind a placeholder is resolved by itself. *)
Lemma resolve_around (V : gmap string string) (before name after : string) :
  Spec.name_ok name ->
  ConfigLoader.resolveTemplateVariables
    (before +:+ Spec.placeholder name +:+ after) V
  = ConfigLoader.resolveTemplateVariables before V
    +:+ Spec.resolved V (Js.Hit name (Spec.placeholder name))
    +:+ ConfigLoader.resolveTemplateVariables after V.
Proof.
  intros Hok. rewrite !resolve_pieces. unfold Spec.pieces.
  rewrite (scan_placeholder _ before (le_n _) name after Hok).
  by rewrite map_app, concat_all_app.
Qed.

Section SecondPassScan.
Variable V : gmap string string.
Hypothesis inert_values : forall k v, V !! k = Some v -> Spec.inert v.

(** The pass of section 4.1, which looks at the own entries of [V]. *)
Let own (text : string) : string :=
  Js.concat_all (map (Spec.substitute V) (Spec.pieces text)).

(** A match at the head of a resolved text is a match at the head of the
    template. *)
Lemma resolved_match (template name : string) (n : nat) :
  Constants.TEMPLATE_VARIABLE (own template) = Some (name, n) ->
  Constants.TEMPLATE_VARIABLE template = Some (name, n).
Proof.
  intros Hm. destruct (template_match_shape _ _ _ Hm) as (-> & Hne & rest & Hs).
  pose proof (template_match_word _ _ _ Hm) as Hword.
  destruct (placeholder_token name Hword) as [Htok Hclosed].
  assert (Hstarts : Spec.starts (Spec.placeholder name) template).
  { rewrite <- (pieces_source template).
    apply (starts_resolved V inert_values _ (pieces_placeholders template) _ Htok Hclosed).
    exists rest. by rewrite <- Hs. }
  destruct Hstarts as [rest' ->]. by apply template_match_intro.
Qed.

Lemma rescan_resolved (n : nat) :
  forall template, String.length template <= n ->
    Js.scan Constants.TEMPLATE_VARIABLE (own template)
    = flat_map (Spec.rescan V) (Js.scan Constants.TEMPLATE_VARIABLE template).
Proof.
  induction n as [|n IH]; intros template Hlen.
  { destruct template; [reflexivity | simpl in Hlen; lia]. }
  destruct template as [|c t]; [reflexivity|].
  destruct (Constants.TEMPLATE_VARIABLE (String c t)) as [[name k]|] eqn:Hm.
  - destruct (scan_hit _ _ _ Hm) as (rest & Hs & Hscan).
    assert (Hrest : String.length rest <= n).
    { assert (Hl := f_equal String.length Hs). rewrite length_append in Hl.
      unfold Spec.placeholder in Hl. rewrite !length_append in Hl.
      simpl in Hl, Hlen. lia. }
    assert (Hres : own (String c t)
                   = Spec.substitute V (Js.Hit name (Spec.placeholder name))
                     +:+ own rest).
    { unfold own, Spec.pieces. by rewrite Hscan. }
    rewrite Hres, Hscan. simpl flat_map. simpl Spec.substitute.
    destruct (V !! name) as [v|] eqn:Hv.
    + destruct (inert_values _ _ Hv) as [Hb _].
      rewrite (scan_lits v _ Hb). by rewrite (IH rest Hrest).
    + destruct (template_match_shape _ _ _ Hm) as (_ & Hne & _).
      pose proof (template_match_intro name (own rest) Hne
                    (template_match_word _ _ _ Hm)) as Hm'.
      destruct (scan_hit _ _ _ Hm') as (rest' & Hs' & ->).
      apply append_inj in Hs'. subst rest'.
      simpl. by rewrite (IH rest Hrest).
  - assert (Hres : own (String c t) = String c (own t)).
    { unfold own, Spec.pieces. by rewrite (scan_miss _ _ Hm). }
    assert (Hm' : Constants.TEMPLATE_VARIABLE (String c (own t)) = None).
    { rewrite <- Hres.
      destruct (Constants.TEMPLATE_VARIABLE (own (String c t))) as [[name k]|] eqn:E;
        [|reflexivity].
      apply resolved_match in E. congruence. }
    rewrite Hres, (scan_miss _ _ Hm'), (scan_miss _ _ Hm). simpl.
    rewrite (IH t); [reflexivity | simpl in Hlen; lia].
Qed.

(** A placeholder the second scan finds is one the first pass left: its
    name has no entry, and it was a placeholder of the template. *)
Lemma rescan_unbound (ps : list (Js.piece string)) (name matched : string) :
  In (Js.Hit name matched) (flat_map (Spec.rescan V) ps) ->
  V !! name = None /\ In (Js.Hit name matched) ps.
Proof.
  induction ps as [|p ps IH]; simpl; [tauto|].
  intros [Hin|Hin]%in_app_or; [|destruct (IH Hin); tauto].
  destruct p as [c|name' matched']; simpl in Hin.
  - by destruct Hin as [|[]].
  - destruct (V !! name') as [v|] eqn:Hv.
    + exfalso. clear -Hin. induction v as [|x v IHv]; simpl in Hin; [tauto|].
      destruct Hin as [|Hin]; [discriminate | by apply IHv].
    + destruct Hin as [[= <- <-]|[]]. split; [exact Hv | by left].
Qed.

(** When every value of [V] is free of braces and holds a code unit that
    is not a word character, and the template has no placeholder that is
    resolved by inheritance, a second pass changes nothing. *)
Lemma resolve_twice (template : string) :
  (forall name, In name (Spec.placeholders template) ->
                V !! name = None -> Js.inherited name = None) ->
  ConfigLoader.resolveTemplateVariables
    (ConfigLoader.resolveTemplateVariables template V) V
  = ConfigLoader.resolveTemplateVariables template V.
Proof.
  intros Hplain.
  assert (Hown : ConfigLoader.resolveTemplateVariables template V = own template).
  { rewrite resolve_pieces. unfold own. f_equal.
    apply map_ext_in. intros [c|name matched] Hin; [reflexivity|].
    apply resolved_substitute, Hplain.
    unfold Spec.placeholders. apply (in_map fst _ (name, matched)). by apply hits_In. }
  rewrite Hown. apply resolve_unbound. intros name Hin.
  unfold Spec.placeholders, Spec.pieces in Hin.
  apply in_map_iff in Hin as ([name' matched] & <- & Hin). simpl.
  apply In_hits in Hin.
  rewrite (rescan_resolved _ template (le_n _)) in Hin.
  apply rescan_unbound in Hin as [Hnone Hin].
  unfold Js.member. rewrite Hnone. apply Hplain; [|exact Hnone].
  unfold Spec.placeholders. apply (in_map fst _ (name', matched)). by apply hits_In.
Qed.

End SecondPassScan.

(** C6. [resolveTemplateVariables] makes one pass over the template, and
    it works placeholder by placeholder: around a placeholder, the text
    before it and the text behind it are resolved by themselves; the
    placeholder is replaced by the value [V] has for its name, and it is
    left byte for byte as it stands when [V] has no entry for the name and
    the name is not one every object inherits. A text that holds no
    placeholder is kept. The values put in are not looked at again, so
    resolving the result once more changes nothing whenever the result
    holds no placeholder that can be resolved; that is the case whenever
    every value of [V] is free of braces and holds a code unit that is not
    a word character, and the template has no placeholder that is
    resolved by inheritance. *)
Theorem resolveTemplateVariables_single_pass (V : gmap string string) :
  (forall before name after value,
      Spec.name_ok name -> V !! name = Some value ->
      ConfigLoader.resolveTemplateVariables
        (before +:+ Spec.placeholder name +:+ after) V
      = ConfigLoader.resolveTemplateVariables before V
        +:+ value +:+ ConfigLoader.resolveTemplateVariables after V)
  /\ (forall before name after,
        Spec.name_ok name -> V !! name = None -> Js.inherited name = None ->
        ConfigLoader.resolveTemplateVariables
          (before +:+ Spec.placeholder name +:+ after) V
        = ConfigLoader.resolveTemplateVariables before V
          +:+ Spec.placeholder name +:+ ConfigLoader.resolveTemplateVariables after V)
  /\ (forall text,
        (forall name, Spec.name_ok name -> ~ Spec.holds text name) ->
        ConfigLoader.resolveTemplateVariables text V = text)
  /\ (forall template,
        (forall name,
            Spec.name_ok name ->
            Spec.holds (ConfigLoader.resolveTemplateVariables template V) name ->
            V !! name = None /\ Js.inherited name = None) ->
        ConfigLoader.resolveTemplateVariables
          (ConfigLoader.resolveTemplateVariables template V) V
        = ConfigLoader.resolveTemplateVariables template V)
  /\ (forall template,
        (forall k v, V !! k = Some v -> Spec.inert v) ->
        (forall name,
            Spec.name_ok name -> Spec.holds template name ->
            V !! name = None -> Js.inherited name = None) ->
        ConfigLoader.resolveTemplateVariables
          (ConfigLoader.resolveTemplateVariables template V) V
        = ConfigLoader.resolveTemplateVariables template V).
Proof.
  repeat split.
  - intros before name after value Hok Hvalue.
    rewrite (resolve_around V before name after Hok). simpl.
    unfold Js.member. by rewrite Hvalue.
  - intros before name after Hok Hnone Hplain.
    rewrite (resolve_around V before name after Hok). simpl.
    unfold Js.member. by rewrite Hnone, Hplain.
  - intros text Hfree. apply resolve_unbound. intros name Hin.
    apply placeholders_hold in Hin as [Hok Hholds]. by destruct (Hfree name Hok).
  - intros template Hrest. apply resolve_unbound. intros name Hin.
    apply placeholders_hold in Hin as [Hok Hholds].
    destruct (Hrest name Hok Hholds) as [Hnone Hplain].
    unfold Js.member. by rewrite Hnone.
  - intros template Hinert Hplain. apply (resolve_twice V Hinert).
    intros name Hin. apply placeholders_hold in Hin as [Hok Hholds]. by apply Hplain.
Qed.

(** With [V = {A: x}] the template [{{A}}/{{C}}] resolves to [x/{{C}}]:
    the placeholder of [A] is replaced, the one of [C] stays. And the
    value of [REACT_APP_API_URL], a URL, is inert, so a second pass returns
    the text of the first. *)
Lemma resolveTemplateVariables_single_pass_witness :
  ConfigLoader.resolveTemplateVariables "{{A}}/{{C}}" Examples.onlyA = "x/{{C}}"
  /\ ConfigLoader.resolveTemplateVariables
       (ConfigLoader.resolveTemplateVariables "{{REACT_APP_API_URL}}/v1" Examples.urlVars)
       Examples.urlVars
     = ConfigLoader.resolveTemplateVariables "{{REACT_APP_API_URL}}/v1" Examples.urlVars.
Proof.
  split.
  - refine (eq_trans
              (proj1 (resolveTemplateVariables_single_pass Examples.onlyA)
                 EmptyString "A" "/{{C}}" "x" _ _) _);
      [split; [discriminate | reflexivity] | reflexivity |].
    refine (f_equal (fun rest => "x" +:+ rest)
              (eq_trans
                 (proj1 (proj2 (resolveTemplateVariables_single_pass Examples.onlyA))
                    "/" "C" EmptyString _ _ _) _));
      [split; [discriminate | reflexivity] | reflexivity | reflexivity |].
    vm_compute. reflexivity.
  - apply (proj2 (proj2 (proj2 (proj2
             (resolveTemplateVariables_single_pass Examples.urlVars))))).
    + intros k v Hk. unfold Examples.urlVars in Hk.
      apply lookup_insert_Some in Hk as [[_ <-]|[_ Hk]];
        [split; vm_compute; reflexivity | by rewrite lookup_empty in Hk].
    + intros name Hok Hholds _. apply (holds_placeholders _ _ Hok) in Hholds.
      vm_compute in Hholds. destruct Hholds as [<-|[]]. reflexivity.
Defined.

(** With [V = {A: {{B}}, B: x}] the first pass turns [{{A}}] into
    [{{B}}] and the second turns that into [x]. *)
Lemma resolveTemplateVariables_not_idempotent :
  ConfigLoader.resolveTemplateVariables "{{A}}" Examples.chained = "{{B}}"
  /\ ConfigLoader.resolveTemplateVariables
       (ConfigLoader.resolveTemplateVariables "{{A}}" Examples.chained) Examples.chained
     = "x".
Proof. split; vm_compute; reflexivity. Qed.

(** ** The resolver of the environment module *)

Lemma search_none_scan {G} (m : Js.matcher G) (s : string) :
  Js.search m s = None ->
  Forall (fun p => match p with Js.Lit _ => True | Js.Hit _ _ => False end)
         (Js.scan_from m 0 s).
Proof.
  induction s as [|c t IH]; simpl.
  - destruct (m EmptyString) as [[g n]|]; [discriminate | constructor].
  - destruct (m (String c t)) as [[g n]|]; [discriminate|].
    destruct (Js.search m t) as [[[[b g] mt] a]|]; [discriminate|].
    intros _. constructor; [exact I | by apply IH].
Qed.

Lemma pieces_names_nonempty (template : string) :
  Forall (fun p => match p with
                   | Js.Hit name _ => Js.is_empty name = false
                   | Js.Lit _ => True
                   end)
         (Spec.pieces template).
Proof.
  apply (scan_from_hits Constants.TEMPLATE_VARIABLE
           (fun name _ => Js.is_empty name = false)).
  intros s g n (_ & Hne & _)%template_match_shape. by destruct g.
Qed.

(** Whatever [lastIndex] the shared pattern starts with, the resolver of
    the environment module leaves it at 0. *)
Lemma environment_resolve_lastIndex
  (lastIndex : nat) (template : string) (V : gmap string string) :
  (Environment.resolveTemplateVariables lastIndex template V).2 = 0.
Proof.
  unfold Environment.resolveTemplateVariables, Environment.test_global.
  destruct (String.length template <? lastIndex)%nat; [reflexivity|].
  destruct (Js.search _ _) as [[[[b g] mt] a]|]; reflexivity.
Qed.

Lemma inherited_NG (name : string) : Js.inherited ("NG_" +:+ name) = None.
Proof. reflexivity. Qed.

(** With the shared pattern at rest the resolver renders the pieces of
    the template. *)
Lemma environment_resolve_at_rest (template : string) (V : gmap string string) :
  Environment.resolveTemplateVariables 0 template V
  = (Js.concat_all (map (Spec.resolved_ng V) (Spec.pieces template)), 0).
Proof.
  unfold Environment.resolveTemplateVariables, Environment.test_global.
  change (String.length template <? 0)%nat with false. cbv iota.
  change (Js.drop 0 template) with template.
  destruct (Js.search Constants.TEMPLATE_VARIABLE template)
    as [[[[b g] mt] a]|] eqn:Hsearch; cbv iota beta; simpl negb; cbv iota.
  - f_equal. unfold Js.replace_all. f_equal.
    apply map_ext_in. intros [c|name matched] Hin; simpl; [reflexivity|].
    pose proof (pieces_names_nonempty template) as Hne.
    rewrite List.Forall_forall in Hne. specialize (Hne _ Hin). simpl in Hne.
    by rewrite Hne.
  - f_equal. rewrite <- (pieces_source template) at 1. f_equal.
    apply map_ext_in. intros [c|name matched] Hin; [reflexivity|].
    pose proof (search_none_scan _ _ Hsearch) as Hlit.
    rewrite List.Forall_forall in Hlit. destruct (Hlit _ Hin).
Qed.

(** C10. The value under the prefix [NG_] is not used for a name that
    every object inherits. With [V = {NG_toString: https://app1.com}] the
    name [toString] is not a key of [V] and [NG_toString] is, so the
    placeholder [{{toString}}] should give the value of [NG_toString]; the
    resolver of the environment module reads [envVars[varName]] through the
    prototype of [V], finds the built-in function and puts its text. With
    an empty [V] the placeholder [{{constructor}}] is replaced in the same
    way, where a placeholder with neither key should stay. *)
Theorem environment_resolve_inherited_name :
  Examples.angularToString !! "toString" = None
  /\ Examples.angularToString !! "NG_toString" = Some "https://app1.com"
  /\ Js.concat_all (map (Spec.substitute_ng Examples.angularToString)
                      (Spec.pieces "connect-src {{toString}}"))
     = "connect-src https://app1.com"
  /\ Environment.resolveTemplateVariables 0 "connect-src {{toString}}"
       Examples.angularToString
     = ("connect-src function toString() { [native code] }", 0)
  /\ Environment.resolveTemplateVariables 0 "{{constructor}}" ∅
     = ("function Object() { [native code] }", 0).
Proof. split; [|split; [|split; [|split]]]; vm_compute; reflexivity. Qed.

(** The example of the claim: [{{API_URL}}] resolves through
    [NG_API_URL], and a placeholder with neither key stays. *)
Lemma environment_resolve_API_URL :
  Environment.resolveTemplateVariables 0 "connect-src {{API_URL}} {{OTHER}}"
    Examples.angularUrl
  = ("connect-src https://app1.com {{OTHER}}", 0).
Proof. vm_compute. reflexivity. Qed.

(** ** Files *)

Lemma readFileSync_exists {H : Host} (w : World) (p content : string) :
  Fs.readFileSync w p = Ok content -> Fs.existsSync w p = true.
Proof.
  unfold Fs.readFileSync, Fs.existsSync.
  by destruct (Fs.lookup w p) as [[| |]|].
Qed.

Lemma writeFileSync_env {H : Host} (w w' : World) (p content : string) :
  Fs.writeFileSync w p content = Ok w' -> env w' = env w.
Proof.
  unfold Fs.writeFileSync.
  destruct (Fs.lookup w p) as [[c [|]| |entries]|]; intros [= <-] || discriminate;
    reflexivity.
Qed.

(** ** Environment maps *)

Lemma lookup_assign (target source : gmap string string) (k : string) :
  Environment.assign target source !! k
  = Spec.or_else (source !! k) (target !! k).
Proof.
  unfold Environment.assign. rewrite lookup_union.
  by destruct (source !! k), (target !! k).
Qed.

Lemma assign_empty (target : gmap string string) :
  Environment.assign target ∅ = target.
Proof. apply map_eq. intros k. by rewrite lookup_assign, lookup_empty. Qed.



Lemma filterValid_lookup (envVars : gmap string string) (k v : string) :
  Environment.filterValidEnvironmentVariables envVars !! k = Some v ->
  Environment.isValidEnvironmentValue v = true /\ envVars !! k = Some v.
Proof.
  unfold Environment.filterValidEnvironmentVariables.
  rewrite map_lookup_filter_Some. simpl. rewrite andb_true_iff. tauto.
Qed.

Section Loading.
Context {H : Host}.



(** *** Precedence among the files of a React or VITE project *)

Lemma loadEnvFile_assign (w : World) (projectRoot envFile : string)
  (envVars : gmap string string) :
  Environment.loadEnvFile w projectRoot envVars envFile
  = Environment.assign envVars (Spec.fileVars w projectRoot envFile).
Proof.
  unfold Spec.fileVars, Environment.loadEnvFile.
  destruct (Fs.existsSync w _).
  - apply map_eq. intros k. rewrite !lookup_assign, lookup_empty.
    by destruct (Environment.parseEnvFile w _ Constants.ENV_PREFIXES_VITE !! k),
                (Environment.parseEnvFile w _ Constants.ENV_PREFIXES_REACT !! k).
  - by rewrite assign_empty.
Qed.

Lemma loadReactEnv_lookup (w : World) (projectRoot key : string) :
  Environment.loadReactEnv w projectRoot !! key
  = Spec.or_else (Spec.processVars w !! key)
      (Spec.or_else
         (Spec.fileVars w projectRoot (".env." +:+ Environment.envMode w +:+ ".local") !! key)
         (Spec.or_else (Spec.fileVars w projectRoot ".env.local" !! key)
            (Spec.or_else
               (Spec.fileVars w projectRoot (".env." +:+ Environment.envMode w) !! key)
               (Spec.fileVars w projectRoot ".env" !! key)))).
Proof.
  unfold Environment.loadReactEnv, Environment.loadReactFiles, Environment.envFiles.
  simpl fold_left. rewrite !loadEnvFile_assign, !lookup_assign, lookup_empty.
  unfold Spec.processVars.
  by destruct (Spec.fileVars w projectRoot ".env" !! key).
Qed.

(** C5. The files are applied in the order [.env], [.env.<mode>],
    [.env.local], [.env.<mode>.local], a later file overriding an earlier
    one for the same key, and the prefixed variables of the process
    environment override all files. So the value of [.env.local] wins over
    the value of [.env] whenever neither [.env.<mode>.local] nor the
    process environment defines the key. *)
Theorem env_local_overrides_env (w : World) (projectRoot key v0 v : string) :
  Spec.fileVars w projectRoot ".env" !! key = Some v0 ->
  Spec.fileVars w projectRoot ".env.local" !! key = Some v ->
  Spec.fileVars w projectRoot (".env." +:+ Environment.envMode w +:+ ".local") !! key = None ->
  Spec.processVars w !! key = None ->
  Environment.loadReactEnv w projectRoot !! key = Some v
  /\ forall k,
       Environment.loadReactEnv w projectRoot !! k
       = Spec.or_else (Spec.processVars w !! k)
           (Spec.or_else
              (Spec.fileVars w projectRoot (".env." +:+ Environment.envMode w +:+ ".local") !! k)
              (Spec.or_else (Spec.fileVars w projectRoot ".env.local" !! k)
                 (Spec.or_else
                    (Spec.fileVars w projectRoot (".env." +:+ Environment.envMode w) !! k)
                    (Spec.fileVars w projectRoot ".env" !! k)))).
Proof.
  intros _ Hlocal Hmode Hprocess. split; [|apply loadReactEnv_lookup].
  by rewrite loadReactEnv_lookup, Hprocess, Hmode, Hlocal.
Qed.

End Loading.

(** A project whose [.env] and [.env.local] both define
    [REACT_APP_API_URL], with nothing else defining it. *)
Lemma env_local_overrides_env_witness :
  Environment.loadReactEnv (H := posix) Examples.reactProject "/app" !! "REACT_APP_API_URL"
  = Some "https://local.api.example.com".
Proof.
  refine (proj1 (env_local_overrides_env (H := posix) Examples.reactProject "/app"
                   "REACT_APP_API_URL" "https://api.example.com"
                   "https://local.api.example.com" _ _ _ _));
    vm_compute; reflexivity.
Defined.

(** The same two files with [REACT_APP_API_URL] also set in the process
    environment: the load returns the value of the process, not the one of
    [.env.local]. *)
Lemma process_value_overrides_env_local :
  Spec.fileVars (H := posix) Examples.reactProjectWithProcessValue "/app" ".env"
    !! "REACT_APP_API_URL" = Some "https://api.example.com"
  /\ Spec.fileVars (H := posix) Examples.reactProjectWithProcessValue "/app" ".env.local"
       !! "REACT_APP_API_URL" = Some "https://local.api.example.com"
  /\ Environment.loadReactEnv (H := posix) Examples.reactProjectWithProcessValue "/app"
       !! "REACT_APP_API_URL" = Some "https://shell.example.com".
Proof. repeat split; vm_compute; reflexivity. Qed.



(** ** Angular environment files *)

Lemma upper_not_lower (c : ascii) : Js.is_upper c = true -> Js.is_lower c = false.
Proof.
  unfold Js.is_upper, Js.is_lower. cbv zeta.
  rewrite andb_true_iff, andb_false_iff, !Nat.leb_le, !Nat.leb_gt. lia.
Qed.

Lemma upper_char_fixes_upper (c : ascii) :
  Js.is_upper c = true -> Js.upper_char c = c.
Proof. intros Hc. unfold Js.upper_char. by rewrite (upper_not_lower c Hc). Qed.

Lemma upper_char_of_lower (c : ascii) :
  Js.is_lower c = true ->
  Js.eqc (Js.upper_char c) "_"%char = false /\ Js.is_upper c = false.
Proof.
  destruct c as [[] [] [] [] [] [] [] []]; vm_compute; intros Hc;
    first [discriminate Hc | split; reflexivity].
Qed.

(** The first two steps of [camelCaseToUpperCase] are the upper-casing
    with underscores of the specification. *)
Lemma underscored_upper_snake (str : string) :
  Js.toUpperCase
    (Js.replace_all Environment.upper_letter (fun letter _ => "_" +:+ letter) str)
  = Spec.upper_snake str.
Proof.
  unfold Js.replace_all, Js.scan.
  induction str as [|c t IH]; [reflexivity|].
  simpl. destruct (Js.is_upper c) eqn:Hc; js_simpl; rewrite IH.
  - by rewrite (upper_char_fixes_upper c Hc).
  - reflexivity.
Qed.

Lemma camelCaseToUpperCase_camel (key : string) :
  Spec.camelCase key ->
  Environment.camelCaseToUpperCase key = Spec.upper_snake key.
Proof.
  unfold Environment.camelCaseToUpperCase. rewrite underscored_upper_snake.
  destruct key as [|c t]; [intros []|]. simpl. intros Hc.
  destruct (upper_char_of_lower c Hc) as [Hu Hup]. rewrite Hup. by rewrite Hu.
Qed.

Lemma envKey_camel (key : string) :
  Spec.camelCase key ->
  Environment.envKey key = "NG_" +:+ Spec.upper_snake key.
Proof.
  intros Hkey. unfold Environment.envKey.
  rewrite (camelCaseToUpperCase_camel key Hkey).
  destruct key as [|c t]; [destruct Hkey|]. simpl in Hkey.
  unfold Environment.is_constant_case, Environment.constant_char. simpl.
  destruct (upper_char_of_lower c Hkey) as [_ ->].
  assert (Hrest : Js.is_digit c || (Js.code c =? 95)%nat = false).
  { revert Hkey. unfold Js.is_lower, Js.is_digit. cbv zeta.
    rewrite andb_true_iff, orb_false_iff, andb_false_iff, !Nat.leb_le, !Nat.leb_gt,
      Nat.eqb_neq. lia. }
  simpl. by rewrite Hrest.
Qed.

Lemma boolean_not_kept (p : Environment.property) :
  Environment.property_value p = "true" \/ Environment.property_value p = "false" ->
  Environment.property_kept p = false.
Proof.
  unfold Environment.property_kept. intros [->| ->]; simpl;
    rewrite ?andb_false_r; reflexivity.
Qed.

Lemma fold_addProperty_kept (ps : list Environment.property) :
  forall (acc : gmap string string) (p : Environment.property),
    In p ps -> Environment.property_kept p = true ->
    is_Some (fold_left Environment.addProperty ps acc !! Environment.envKey (Environment.prop_key p)).
Proof.
  induction ps as [|q ps IH] using rev_ind; intros acc p Hin Hkept; [destruct Hin|].
  rewrite fold_left_app. simpl.
  apply in_app_or in Hin as [Hin|[->|[]]].
  - unfold Environment.addProperty at 1.
    destruct (Environment.property_kept q); [|by apply IH].
    destruct (decide (Environment.envKey (Environment.prop_key q)
                      = Environment.envKey (Environment.prop_key p))) as [->|Hne].
    + rewrite lookup_insert_eq. by eexists.
    + rewrite lookup_insert_ne by done. by apply IH.
  - unfold Environment.addProperty at 1. rewrite Hkept.
    rewrite lookup_insert_eq. by eexists.
Qed.

Lemma fold_addProperty_origin (ps : list Environment.property) :
  forall (acc : gmap string string) (k v : string),
    fold_left Environment.addProperty ps acc !! k = Some v ->
    acc !! k = Some v
    \/ exists p, In p ps /\ Environment.property_kept p = true
                 /\ k = Environment.envKey (Environment.prop_key p)
                 /\ v = Environment.property_value p.
Proof.
  induction ps as [|q ps IH]; intros acc k v; simpl; [by left|].
  intros Hk. destruct (IH _ _ _ Hk) as [Hacc|(p & Hin & Hkept & -> & ->)].
  - unfold Environment.addProperty in Hacc.
    destruct (Environment.property_kept q) eqn:Hq; [|by left].
    destruct (decide (Environment.envKey (Environment.prop_key q) = k)) as [<-|Hne].
    + rewrite lookup_insert_eq in Hacc. injection Hacc as <-.
      right. exists q. auto.
    + rewrite lookup_insert_ne in Hacc by done. by left.
  - right. exists p. auto.
Qed.

(** C7. In a readable Angular environment file with a recognised export,
    every property whose value passes the validity test and is not the
    text [true] or [false] yields an entry under the translated key; every
    entry comes from such a property; a property whose value is [true] or
    [false] yields nothing; and the key of a camelCase name is the prefix
    [NG_] followed by the name upper-cased with an underscore before each
    upper-case letter. *)
Theorem angular_property_entries {H : Host} (w : World) (envPath content : string)
  (before body matched after : string) :
  Fs.readFileSync w envPath = Ok content ->
  Js.search Constants.ENVIRONMENT_EXPORT content = Some (before, body, matched, after) ->
  (forall p, In p (Environment.properties body) ->
             Environment.property_kept p = true ->
             is_Some (Environment.parseAngularEnvFile w envPath
                        !! Environment.envKey (Environment.prop_key p)))
  /\ (forall k v, Environment.parseAngularEnvFile w envPath !! k = Some v ->
        exists p, In p (Environment.properties body)
                  /\ Environment.property_kept p = true
                  /\ k = Environment.envKey (Environment.prop_key p)
                  /\ v = Environment.property_value p)
  /\ (forall p, Environment.property_value p = "true"
                \/ Environment.property_value p = "false" ->
                Environment.property_kept p = false)
  /\ (forall key, Spec.camelCase key ->
                  Environment.envKey key = "NG_" +:+ Spec.upper_snake key).
Proof.
  intros Hfile Hexport.
  assert (Hparse : Environment.parseAngularEnvFile w envPath
                   = fold_left Environment.addProperty (Environment.properties body) ∅).
  { unfold Environment.parseAngularEnvFile.
    rewrite (readFileSync_exists _ _ _ Hfile), Hfile. simpl.
    unfold Environment.parseAngularEnvText. by rewrite Hexport. }
  rewrite Hparse. repeat split.
  - intros p Hin Hkept. by apply fold_addProperty_kept.
  - intros k v Hk. destruct (fold_addProperty_origin _ _ _ _ Hk) as [Hempty|Hp]; [|exact Hp].
    by rewrite lookup_empty in Hempty.
  - apply boolean_not_kept.
  - apply envKey_camel.
Qed.

(** The file [environment.ts] with [production: false] and
    [apiUrl: 'https://app1.com'] yields [NG_API_URL]. *)
Lemma angular_property_entries_witness :
  is_Some (Environment.parseAngularEnvFile (H := posix)
             (Examples.angularProject Examples.environmentWithUrl)
             Examples.environmentTs !! "NG_API_URL").
Proof.
  refine (proj1 (angular_property_entries (H := posix)
                   (Examples.angularProject Examples.environmentWithUrl)
                   Examples.environmentTs Examples.environmentWithUrl
                   _ _ _ _ _ _)
            Examples.apiUrlProperty _ _).
  - vm_compute; reflexivity.
  - vm_compute; reflexivity.
  - vm_compute. right. left. reflexivity.
  - vm_compute; reflexivity.
Defined.

(** A recognised export whose only property is the string-valued
    [apiUrl: ''] yields no entry at all. *)
Lemma empty_string_property_dropped :
  Environment.properties " apiUrl: '' "
  = [Environment.mkProperty "apiUrl" (Some EmptyString) None]
  /\ Environment.parseAngularEnvFile (H := posix)
       (Examples.angularProject Examples.environmentWithEmptyUrl)
       Examples.environmentTs = ∅.
Proof. split; vm_compute; reflexivity. Qed.

(** ** Locating the page *)

Section Locating.
Context {H : Host}.

Lemma firstFound_skip (w : World) (missing rest : list string) :
  Forall (fun p => HtmlDetector.findHTMLFile w p = Ok None) missing ->
  HtmlDetector.firstFound w (missing ++ rest) = HtmlDetector.firstFound w rest.
Proof.
  induction 1 as [|p missing Hp _ IH]; [reflexivity|].
  simpl. by rewrite Hp.
Qed.

(** C2. When none of the build outputs that are searched first is found
    (the output paths of [angular.json], [dist/*/index.html],
    [dist/index.html], [build/index.html], [www/index.html]) and
    [public/index.html] is a readable file, [detectHTML(false)] returns
    the detection result for [public/index.html], not [null]:
    [public/index.html] is itself one of the production search paths. *)
Theorem detectHTML_production_falls_back_to_public
  (w : World) (angularBuildPaths : list string) (content : string) :
  HtmlDetector.getAngularBuildPaths w = Ok angularBuildPaths ->
  Forall (fun p => HtmlDetector.findHTMLFile w p = Ok None)
         (Spec.buildCandidates angularBuildPaths) ->
  Fs.readFileSync w (path_resolve (cwd w) ["public/index.html"]) = Ok content ->
  HtmlDetector.detectHTML w false
  = Ok (Some (HtmlDetector.mkDetection
                (path_resolve (cwd w) ["public/index.html"])
                (path_dirname "public/index.html")
                (HtmlDetector.cspDetected content))).
Proof.
  intros Hbuild Hmissing Hpublic.
  unfold HtmlDetector.detectHTML, HtmlDetector.getHTMLSearchPaths.
  rewrite Hbuild. unfold obind. cbv beta iota.
  replace (angularBuildPaths ++ ["dist/*/index.html"] ++ HtmlDetector.HTML_SEARCH_PATHS_PROD)
    with (Spec.buildCandidates angularBuildPaths ++ ["public/index.html"; "index.html"]).
  2:{ unfold Spec.buildCandidates. by rewrite <- app_assoc. }
  rewrite (firstFound_skip w _ _ Hmissing).
  simpl HtmlDetector.firstFound.
  unfold HtmlDetector.findHTMLFile.
  change (Js.includes_char "*" "public/index.html") with false. cbv iota.
  rewrite (readFileSync_exists _ _ _ Hpublic).
  unfold HtmlDetector.createHTMLDetectionResult. by rewrite Hpublic.
Qed.

End Locating.

(** A working directory that holds [public/index.html] and nothing
    else. *)
Lemma detectHTML_production_falls_back_to_public_witness :
  HtmlDetector.detectHTML (H := posix) Examples.publicOnly false
  = Ok (Some (HtmlDetector.mkDetection "/app/public/index.html" "public" false)).
Proof.
  refine (detectHTML_production_falls_back_to_public (H := posix)
            Examples.publicOnly [] Examples.page _ _ _).
  - vm_compute; reflexivity.
  - repeat constructor.
  - vm_compute; reflexivity.
Defined.

(** In that directory no build output exists, and [detectHTML(false)]
    returns a detection result, not [null]. *)
Lemma detectHTML_production_finds_public :
  Fs.existsSync (H := posix) Examples.publicOnly "dist" = false
  /\ Fs.existsSync (H := posix) Examples.publicOnly "build" = false
  /\ Fs.existsSync (H := posix) Examples.publicOnly "dist/index.html" = false
  /\ Fs.existsSync (H := posix) Examples.publicOnly "build/index.html" = false
  /\ Fs.existsSync (H := posix) Examples.publicOnly "www/index.html" = false
  /\ Fs.existsSync (H := posix) Examples.publicOnly "index.html" = false
  /\ Fs.existsSync (H := posix) Examples.publicOnly "public/index.html" = true
  /\ HtmlDetector.detectHTML (H := posix) Examples.publicOnly false
     = Ok (Some (HtmlDetector.mkDetection "/app/public/index.html" "public" false)).
Proof. repeat split; vm_compute; reflexivity. Qed.

(** ** Loading the configuration *)

Section Configuration.
Context {H : Host}.

Lemma getDefault_selected (bases : Config.baseConfigs) (envVars other : gmap string string) :
  let selected := Config.getDefaultConfigForEnvironment bases envVars in
  Config.getDefaultConfigForEnvironment (Config.mkBases selected selected) other
  = selected.
Proof.
  unfold Config.getDefaultConfigForEnvironment. simpl.
  destruct (other !! "NODE_ENV") as [mode|]; [|reflexivity].
  by destruct (String.eqb mode "production").
Qed.

Lemma getDefault_cases (bases : Config.baseConfigs) (envVars : gmap string string) :
  (Config.getDefaultConfigForEnvironment bases envVars = Config.PRODUCTION bases
   /\ envVars !! "NODE_ENV" = Some "production")
  \/ (Config.getDefaultConfigForEnvironment bases envVars = Config.DEFAULT bases
      /\ envVars !! "NODE_ENV" <> Some "production").
Proof.
  unfold Config.getDefaultConfigForEnvironment.
  destruct (envVars !! "NODE_ENV") as [mode|]; [|right; split; [reflexivity | discriminate]].
  destruct (String.eqb_spec mode "production") as [->|Hne].
  - left. by split.
  - right. split; [reflexivity | congruence].
Qed.

(** C3. The base [loadConfig] works from is chosen by the [NODE_ENV] entry
    of its [envVars] argument alone: the value [production] selects the
    production base, anything else (or no entry, or no argument) the
    development base. The process environment plays no part: another
    ambient environment gives the same result, and so does a pair of bases
    that holds the selected base twice. *)
Theorem loadConfig_base_from_envVars (w : World) (ambient : gmap string string)
  (bases : Config.baseConfigs) (configPath : option string)
  (envVars : option (gmap string string)) :
  let selected := Config.getDefaultConfigForEnvironment bases (default ∅ envVars) in
  Config.loadConfig (mkWorld (cwd w) (fs w) ambient) bases configPath envVars
  = Config.loadConfig w (Config.mkBases selected selected) configPath envVars
  /\ ((selected = Config.PRODUCTION bases
       /\ default ∅ envVars !! "NODE_ENV" = Some "production")
      \/ (selected = Config.DEFAULT bases
          /\ default ∅ envVars !! "NODE_ENV" <> Some "production")).
Proof.
  intros selected. subst selected. split; [|apply getDefault_cases].
  unfold Config.loadConfig, Config.loadConfigFromFile, Config.defaultsFor,
    Config.createEnhancedDefaultConfig.
  rewrite !(getDefault_selected bases (default ∅ envVars)).
  reflexivity.
Qed.

(** C8. When the text of the configuration file, with its placeholders
    resolved from [envVars], is not valid JSON, [loadConfig] returns what
    it returns without a file, the enhanced or plain defaults, and logs
    one warning that names the file (none for an empty file). It does not
    throw. *)
Theorem loadConfig_invalid_file_falls_back (w : World) (bases : Config.baseConfigs)
  (configPath : option string) (envVars : option (gmap string string))
  (content filePath : string) (log : list string) :
  Config.readConfigFile w configPath = (Some (content, filePath), log) ->
  JSON_parse (ConfigLoader.resolveTemplateVariables content (default ∅ envVars)) = None ->
  Config.loadConfig w bases configPath envVars
  = (Config.defaultsFor bases (default ∅ envVars),
     log ++ (if Js.is_empty content || Js.is_empty filePath then []
             else ["Warning: Invalid config file " +:+ filePath +:+ ", using defaults"])).
Proof.
  intros Hread Hparse.
  unfold Config.loadConfig, Config.loadConfigFromFile. rewrite Hread.
  destruct (Js.is_empty content || Js.is_empty filePath); [by rewrite app_nil_r|].
  unfold Config.safeJsonParse. rewrite Hparse. reflexivity.
Qed.

End Configuration.

(** One process, with [NODE_ENV=development] in its environment, and two
    [envVars] arguments that differ in [NODE_ENV]: the first call returns
    the production base, the second the development base. *)
Lemma loadConfig_follows_envVars :
  Config.loadConfig (H := posix) Examples.publicOnlyDevelopment CSPInjector.bases None
    (Some Examples.productionVars) = (CSPInjector.PRODUCTION_CONFIG, [])
  /\ Config.loadConfig (H := posix) Examples.publicOnlyDevelopment CSPInjector.bases None
       (Some Examples.developmentVars) = (CSPInjector.DEFAULT_CONFIG, [])
  /\ Obj.get_opt (Some CSPInjector.PRODUCTION_CONFIG) "useNonce" = Some (JBool true)
  /\ Obj.get_opt (Some CSPInjector.DEFAULT_CONFIG) "useNonce" = Some (JBool false).
Proof. repeat split; vm_compute; reflexivity. Qed.

(** A [csp.config.json] that is cut short. *)
Lemma loadConfig_invalid_file_falls_back_witness :
  Config.loadConfig (H := posix) (Examples.configProject Examples.brokenConfig)
    CSPInjector.bases None None
  = (CSPInjector.DEFAULT_CONFIG,
     ["Warning: Invalid config file /app/csp.config.json, using defaults"]).
Proof.
  refine (loadConfig_invalid_file_falls_back (H := posix)
            (Examples.configProject Examples.brokenConfig) CSPInjector.bases None None
            Examples.brokenConfig "/app/csp.config.json" [] _ _);
    vm_compute; reflexivity.
Defined.

(** A [csp.config.json] whose text is not valid JSON as written, because
    of a placeholder outside a string, and is valid once [VITE_REPORT] is
    put in: the file is used, [reportOnly] comes from it and nothing is
    logged. *)
Lemma loadConfig_uses_file_made_valid_by_placeholders :
  JsonText.parse Examples.configWithPlaceholder = None
  /\ (Config.loadConfig (H := posix) (Examples.configProject Examples.configWithPlaceholder)
        CSPInjector.bases None (Some Examples.reportVars)).2 = []
  /\ Obj.get_opt
       (Some (Config.loadConfig (H := posix)
                (Examples.configProject Examples.configWithPlaceholder)
                CSPInjector.bases None (Some Examples.reportVars)).1) "reportOnly"
     = Some (JBool true)
  /\ Obj.get_opt
       (Some (Config.defaultsFor (H := posix) CSPInjector.bases Examples.reportVars))
       "reportOnly" = Some (JBool false).
Proof. repeat split; vm_compute; reflexivity. Qed.

(** ** The ambient mode signal *)

(** Setting the mode up and restoring it gives back the process
    environment, whatever was done to the files in between. *)
Lemma restore_after_setup (w w2 : World) (devMode : option bool) :
  env w2 = env (NodeEnvManager.setupEnvironmentForMode w devMode).2 ->
  env (NodeEnvManager.restoreEnvironment w2
         (NodeEnvManager.setupEnvironmentForMode w devMode).1 (env w !! "NODE_ENV"))
  = env w.
Proof.
  assert (Hback : forall value (e2 : gmap string string),
             e2 = <["NODE_ENV" := value]> (env w) ->
             match env w !! "NODE_ENV" with
             | Some original => <["NODE_ENV" := original]> e2
             | None => delete "NODE_ENV" e2
             end = env w).
  { intros value e2 ->. destruct (env w !! "NODE_ENV") as [original|] eqn:Hw.
    - rewrite insert_insert_eq. by apply insert_id.
    - rewrite delete_insert_eq. by apply delete_id. }
  unfold NodeEnvManager.setupEnvironmentForMode, NodeEnvManager.restoreEnvironment.
  destruct (NodeEnvManager.node_env_falsy w).
  { simpl. intros Hw2. specialize (Hback _ _ Hw2).
    destruct (env w !! "NODE_ENV"); exact Hback. }
  destruct devMode as [[|]|]; simpl.
  - destruct (NodeEnvManager.node_env_is w "production"); simpl; intros Hw2; [|done].
    specialize (Hback _ _ Hw2). destruct (env w !! "NODE_ENV"); exact Hback.
  - destruct (NodeEnvManager.node_env_is w "development"); simpl; intros Hw2; [|done].
    specialize (Hback _ _ Hw2). destruct (env w !! "NODE_ENV"); exact Hback.
  - done.
Qed.

Section Injection.
Context {H : Host}.

Lemma injectCSP_try_env (this : CSPInjector.injector) (path : string)
  (csp : option string) (w : World) :
  env (CSPInjector.injectCSP_try this path csp w).2 = env w.
Proof.
  unfold CSPInjector.injectCSP_try.
  destruct (obind (Fs.readFileSync w path) _) as [[result w']|e] eqn:Hrun; [|reflexivity].
  simpl. unfold obind in Hrun.
  repeat match type of Hrun with
         | match ?x with _ => _ end = _ => destruct x eqn:?; try discriminate
         end.
  injection Hrun as _ <-. eauto using writeFileSync_env.
Qed.

Lemma injectCSP_env (this : CSPInjector.injector) (path : string)
  (csp : option string) (w : World) :
  env (CSPInjector.injectCSP this path csp w).2 = env w.
Proof.
  unfold CSPInjector.injectCSP.
  pose proof (injectCSP_try_env this path csp w) as Htry.
  by destruct (CSPInjector.injectCSP_try this path csp w) as [[result|e] w'].
Qed.

Lemma injection_env (options : CSPInjector.InjectOptions) (projectRoot path : string)
  (w : World) :
  env (CSPInjector.injection options projectRoot path w).2 = env w.
Proof.
  unfold CSPInjector.injection.
  destruct (obind _ _) as [this|e]; [apply injectCSP_env | reflexivity].
Qed.

Lemma executeInjectionWithEnvironment_env (options : CSPInjector.InjectOptions)
  (projectRoot path : string) (w : World) :
  env (CSPInjector.executeInjectionWithEnvironment options projectRoot path w).2 = env w.
Proof.
  unfold CSPInjector.executeInjectionWithEnvironment.
  pose proof (restore_after_setup w) as Hrestore.
  destruct (NodeEnvManager.setupEnvironmentForMode w (CSPInjector.opt_devMode options))
    as [shouldRestoreNodeEnv w1] eqn:Hsetup.
  pose proof (injection_env options projectRoot path w1) as Hbody.
  destruct (CSPInjector.injection options projectRoot path w1) as [result w2].
  simpl in *. specialize (Hrestore w2 (CSPInjector.opt_devMode options)).
  rewrite Hsetup in Hrestore. by apply Hrestore.
Qed.

(** C4. After [CSPInjector.inject], whether it returned or threw, the
    process environment is what it was before the call; in particular
    [NODE_ENV] has its prior value, and is unset if it was unset. *)
Theorem inject_restores_NODE_ENV (options : CSPInjector.InjectOptions) (w : World) :
  env (CSPInjector.inject options w).2 !! "NODE_ENV" = env w !! "NODE_ENV"
  /\ env (CSPInjector.inject options w).2 = env w.
Proof.
  assert (Henv : env (CSPInjector.inject options w).2 = env w).
  { unfold CSPInjector.inject.
    destruct (CSPInjector.resolveProjectPaths w options) as [[projectRoot path]|e];
      [apply executeInjectionWithEnvironment_env | reflexivity]. }
  by rewrite Henv.
Qed.

(** [processHTMLContent] reports one replaced tag for every page. *)
Lemma processHTMLContent_replacedTags (html csp : string) (reportOnly : bool) :
  HtmlDetector.replacedTags (HtmlDetector.processHTMLContent html csp reportOnly) = 1.
Proof. reflexivity. Qed.

Lemma injectCSP_replacedTags (this : CSPInjector.injector) (path : string)
  (csp : option string) (w w' : World) (result : CSPInjector.CSPInjectionResult) :
  CSPInjector.injectCSP this path csp w = (Ok result, w') ->
  CSPInjector.replacedTags result = 1.
Proof.
  unfold CSPInjector.injectCSP, CSPInjector.injectCSP_try.
  destruct (obind (Fs.readFileSync w path) _) as [[r w2]|e] eqn:Hrun; [|discriminate].
  intros [= <- <-]. unfold obind in Hrun.
  repeat match type of Hrun with
         | match ?x with _ => _ end = _ => destruct x eqn:?; try discriminate
         end.
  by injection Hrun as <- _.
Qed.

End Injection.

(** The call returns: a page is found and rewritten, and [NODE_ENV], unset
    before, is unset afterwards. *)
Lemma inject_returns_and_restores :
  returned (CSPInjector.inject (H := posix) Examples.noOptions Examples.publicOnly).1 = true
  /\ env Examples.publicOnly !! "NODE_ENV" = None
  /\ env (CSPInjector.inject (H := posix) Examples.noOptions Examples.publicOnly).2
       !! "NODE_ENV" = None.
Proof. repeat split; vm_compute; reflexivity. Qed.

(** The call throws, and [NODE_ENV] keeps its value. *)
Lemma inject_throws_and_restores :
  (CSPInjector.inject (H := posix) Examples.missingPage Examples.publicOnlyDevelopment).1
  = Throw "HTML file not found: /app/missing.html"
  /\ env (CSPInjector.inject (H := posix) Examples.missingPage
            Examples.publicOnlyDevelopment).2 !! "NODE_ENV" = Some "development".
Proof. repeat split; vm_compute; reflexivity. Qed.

(** C1. On a page without a CSP meta tag (here the page of
    [public/index.html]) [injectCSP] leaves exactly one CSP meta tag, and
    the result says that one tag was replaced although the page had
    none. *)
Theorem injectCSP_counts_one_replaced_tag_on_fresh_page :
  Spec.cspTagCount Examples.page = 0
  /\ match CSPInjector.injectCSP (H := posix) (CSPInjector.new None None)
             "/app/public/index.html" None Examples.publicOnly with
     | (Ok result, w') =>
         CSPInjector.replacedTags result = 1
         /\ match fs w' !! "/app/public/index.html" with
            | Some (File html _) => Spec.cspTagCount html = 1
            | _ => False
            end
     | (Throw _, _) => False
     end.
Proof. split; vm_compute; [reflexivity | split; reflexivity]. Qed.

(** * Further properties of the code *)

(** ** The mode signal on its own *)

Lemma world_eta (w : World) : mkWorld (cwd w) (fs w) (env w) = w.
Proof. by destruct w. Qed.

(** What [setupEnvironmentForMode] does: nothing, or it sets [NODE_ENV] to
    a value it did not have. *)
Lemma setup_shape (w : World) (devMode : option bool) :
  (NodeEnvManager.setupEnvironmentForMode w devMode = (false, w)
   /\ NodeEnvManager.node_env_falsy w = false
   /\ (devMode = Some true -> NodeEnvManager.node_env_is w "production" = false)
   /\ (devMode = Some false -> NodeEnvManager.node_env_is w "development" = false))
  \/ exists value,
       NodeEnvManager.setupEnvironmentForMode w devMode
       = (true, NodeEnvManager.setNodeEnv w value)
       /\ env w !! "NODE_ENV" <> Some value
       /\ (devMode = Some true -> value = "development")
       /\ (devMode <> Some true -> value = "production").
Proof.
  unfold NodeEnvManager.setupEnvironmentForMode.
  destruct (NodeEnvManager.node_env_falsy w) eqn:Hfalsy.
  - right. unfold NodeEnvManager.node_env_falsy in Hfalsy.
    destruct devMode as [[|]|]; eexists; (split; [reflexivity|]);
      (split; [destruct (env w !! "NODE_ENV") as [v|]; [|discriminate];
               destruct v; [discriminate | discriminate Hfalsy]|]);
      split; congruence.
  - destruct devMode as [[|]|].
    + destruct (NodeEnvManager.node_env_is w "production") eqn:His.
      * right. eexists. split; [reflexivity|].
        unfold NodeEnvManager.node_env_is in His.
        destruct (env w !! "NODE_ENV") as [v|]; [|discriminate].
        apply String.eqb_eq in His as ->. repeat split; congruence.
      * left. repeat split; congruence.
    + destruct (NodeEnvManager.node_env_is w "development") eqn:His.
      * right. eexists. split; [reflexivity|].
        unfold NodeEnvManager.node_env_is in His.
        destruct (env w !! "NODE_ENV") as [v|]; [|discriminate].
        apply String.eqb_eq in His as ->. repeat split; congruence.
      * left. repeat split; congruence.
    + left. repeat split; congruence.
Qed.

(** X1. [setupEnvironmentForMode] touches nothing but [NODE_ENV]; it
    answers [true] exactly when it changed the process environment;
    afterwards [NODE_ENV] holds a non-empty value, which is not
    [production] when [devMode] is [true] and not [development] when it is
    [false]; and a second call with the same [devMode] changes nothing and
    answers [false]. *)
Theorem setupEnvironmentForMode_effect (w : World) (devMode : option bool) :
  let changed := (NodeEnvManager.setupEnvironmentForMode w devMode).1 in
  let w' := (NodeEnvManager.setupEnvironmentForMode w devMode).2 in
  cwd w' = cwd w /\ fs w' = fs w
  /\ (forall k, k <> "NODE_ENV" -> env w' !! k = env w !! k)
  /\ (changed = true <-> env w' <> env w)
  /\ (exists value, env w' !! "NODE_ENV" = Some value /\ value <> EmptyString)
  /\ (devMode = Some true -> env w' !! "NODE_ENV" <> Some "production")
  /\ (devMode = Some false -> env w' !! "NODE_ENV" <> Some "development")
  /\ NodeEnvManager.setupEnvironmentForMode w' devMode = (false, w').
Proof.
  intros changed w'. subst changed w'.
  destruct (setup_shape w devMode)
    as [(-> & Hfalsy & Hdev & Hprod)|(value & -> & Hnew & Hdev & Hprod)]; simpl.
  - unfold NodeEnvManager.node_env_falsy, NodeEnvManager.node_env_is in *.
    repeat split; try done.
    + destruct (env w !! "NODE_ENV") as [v|]; [|discriminate].
      exists v. split; [done|]. by destruct v.
    + intros -> Hv. specialize (Hdev eq_refl). rewrite Hv in Hdev. discriminate.
    + intros -> Hv. specialize (Hprod eq_refl). rewrite Hv in Hprod. discriminate.
    + unfold NodeEnvManager.setupEnvironmentForMode, NodeEnvManager.node_env_falsy,
        NodeEnvManager.node_env_is.
      destruct (env w !! "NODE_ENV") as [v|]; [|discriminate]. rewrite Hfalsy.
      destruct devMode as [[|]|]; [| |done].
      * by rewrite (Hdev eq_refl).
      * by rewrite (Hprod eq_refl).
  - assert (Hvalue : value = "development" \/ value = "production").
    { destruct devMode as [[|]|]; [left; by apply Hdev | right; by apply Hprod
                                   | right; by apply Hprod]. }
    repeat split; try done.
    + intros k Hk. by rewrite lookup_insert_ne.
    + intros _ Heq. apply Hnew. rewrite <- Heq. by rewrite lookup_insert_eq.
    + exists value. rewrite lookup_insert_eq. split; [done|].
      by destruct Hvalue as [-> | ->].
    + intros Hd. rewrite lookup_insert_eq, (Hdev Hd). discriminate.
    + intros Hd. rewrite lookup_insert_eq, Hprod by congruence. discriminate.
    + unfold NodeEnvManager.setupEnvironmentForMode, NodeEnvManager.node_env_falsy,
        NodeEnvManager.node_env_is. simpl. rewrite lookup_insert_eq.
      destruct devMode as [[|]|].
      * rewrite (Hdev eq_refl). reflexivity.
      * rewrite Hprod by congruence. reflexivity.
      * rewrite Hprod by congruence. reflexivity.
Qed.

Lemma restore_setup_world (w : World) (devMode : option bool) :
  NodeEnvManager.restoreEnvironment
    (NodeEnvManager.setupEnvironmentForMode w devMode).2
    (NodeEnvManager.setupEnvironmentForMode w devMode).1
    (env w !! "NODE_ENV")
  = w.
Proof.
  pose proof (restore_after_setup w _ devMode eq_refl) as Henv.
  destruct (setup_shape w devMode) as [(E & _)|(value & E & _)];
    rewrite E in Henv |- *; simpl in *; [done|].
  unfold NodeEnvManager.restoreEnvironment, NodeEnvManager.setNodeEnv,
    NodeEnvManager.deleteNodeEnv in *.
  destruct (env w !! "NODE_ENV") as [original|]; simpl in *;
    rewrite Henv; apply world_eta.
Qed.

(** X2. Restoring after a set-up, with the value [NODE_ENV] had before it,
    gives back the process exactly as it was: the value is put back, and
    the variable is deleted again when it was not set. *)
Theorem restoreEnvironment_undoes_setup (w : World) (devMode : option bool) :
  NodeEnvManager.restoreEnvironment
    (NodeEnvManager.setupEnvironmentForMode w devMode).2
    (NodeEnvManager.setupEnvironmentForMode w devMode).1
    (env w !! "NODE_ENV")
  = w.
Proof. apply restore_setup_world. Qed.

(** ** The type of a project *)

(** X3. [detectProjectType] answers [react-vite] exactly when a VITE
    configuration file exists, whatever else the project holds. Without
    one it answers an Angular type exactly when [isAngularProject] holds
    (the workspace type only with an [angular.json]), [react-cra] exactly
    when [isAngularProject] fails and [isReactProject] holds, and
    [unknown] exactly when both fail. *)
Theorem detectProjectType_cases {H : Host} (w : World) (projectRoot : string) :
  match ProjectType.detectProjectType w projectRoot with
  | ProjectType.react_vite => ProjectType.isViteProject w projectRoot = true
  | ProjectType.angular_workspace =>
      ProjectType.isViteProject w projectRoot = false
      /\ ProjectDetection.isAngularProject w projectRoot = true
      /\ Fs.existsSync w (path_join [projectRoot; "angular.json"]) = true
  | ProjectType.angular_standalone =>
      ProjectType.isViteProject w projectRoot = false
      /\ ProjectDetection.isAngularProject w projectRoot = true
  | ProjectType.react_cra =>
      ProjectType.isViteProject w projectRoot = false
      /\ ProjectDetection.isAngularProject w projectRoot = false
      /\ ProjectDetection.isReactProject w projectRoot = true
  | ProjectType.unknown =>
      ProjectType.isViteProject w projectRoot = false
      /\ ProjectDetection.isAngularProject w projectRoot = false
      /\ ProjectDetection.isReactProject w projectRoot = false
  end.
Proof.
  unfold ProjectType.detectProjectType.
  destruct (ProjectType.isViteProject w projectRoot) eqn:Hvite; [reflexivity|].
  unfold ProjectType.detectAngularType, ProjectDetection.isAngularProject.
  destruct (Fs.existsSync w (path_join [projectRoot; "angular.json"])) eqn:Hjson; simpl.
  - destruct (ProjectType.detectAngularType_try w _) as [detected|e] eqn:Htry;
      [|by repeat split].
    unfold ProjectType.detectAngularType_try, obind in Htry.
    destruct (Fs.readFileSync w _); [|discriminate].
    destruct (JSON_parse _); [|discriminate].
    destruct (Obj.get _ _); [|discriminate].
    destruct (_ && _); injection Htry as <-; by repeat split.
  - destruct (Fs.existsSync w (path_join [projectRoot; ".angular-cli.json"])); simpl;
      [by repeat split|].
    destruct (ProjectDetection.hasAngularEnvironmentFiles w projectRoot);
      [by repeat split|].
    destruct (ProjectDetection.isReactProject w projectRoot); by repeat split.
Qed.

(** ** Environment files of React and VITE projects *)

Lemma all_chars_drop_last (p : ascii -> bool) (s : string) :
  Js.all_chars p s = true -> Js.all_chars p (Js.drop_last s) = true.
Proof.
  induction s as [|c s IH]; [done|]. simpl.
  intros [Hc Hs]%andb_true_iff. destruct s; [done|].
  change (Js.all_chars p (String c (Js.drop_last (String a s))) = true).
  simpl Js.all_chars at 1. rewrite Hc. by apply IH.
Qed.

Lemma strip_quotes_one_line (raw : string) :
  Shape.one_line raw = true -> Shape.one_line (Environment.strip_quotes raw) = true.
Proof.
  unfold Shape.one_line, Environment.strip_quotes.
  destruct raw as [|c t]; [done|]. intros Hraw.
  destruct (Js.is_quote c); [|done].
  destruct (Js.last_char t); [|done].
  destruct (_ && _) eqn:E; [|done].
  by apply andb_true_iff in E as [_ E].
Qed.

(** What a line of an environment file can add. *)
Lemma env_line_match (line key raw : string) :
  Constants.ENV_FILE_LINE line = Some (key, raw) ->
  Shape.identifier key = true /\ Shape.one_line raw = true.
Proof.
  unfold Constants.ENV_FILE_LINE, Shape.identifier, Shape.one_line.
  destruct line as [|c t]; [done|].
  destruct (Constants.is_key_start c) eqn:Hc; [|done].
  destruct (Js.skip Js.is_space _) as [|e r]; [done|].
  destruct (Js.eqc e "="); [|done].
  destruct (Js.all_chars Js.is_dot (Js.skip Js.is_space r)) eqn:Hv; [|done].
  intros [= <- <-]. rewrite Hc, Hv. split; [|done].
  apply all_chars_take_span.
Qed.

Lemma parseEnvLine_entries (prefix line : string) (envVars : gmap string string) :
  (forall k v, envVars !! k = Some v -> Shape.env_entry prefix k v) ->
  forall k v, Environment.parseEnvLine prefix envVars line !! k = Some v ->
              Shape.env_entry prefix k v.
Proof.
  intros Hacc k v. unfold Environment.parseEnvLine.
  destruct (_ || _); [apply Hacc|].
  destruct (Constants.ENV_FILE_LINE _) as [[key raw]|] eqn:Hline; [|apply Hacc].
  destruct (Js.startsWith key prefix) eqn:Hprefix; [|apply Hacc].
  unfold Js.assign_member. destruct (String.eqb key "__proto__"); [apply Hacc|].
  destruct (decide (key = k)) as [<-|Hne].
  - rewrite lookup_insert_eq. intros [= <-].
    apply env_line_match in Hline as [Hkey Hraw].
    repeat split; [done | done | by apply strip_quotes_one_line].
  - rewrite lookup_insert_ne by done. apply Hacc.
Qed.

Lemma parseEnvText_entries (prefix content k v : string) :
  Environment.parseEnvText prefix content !! k = Some v -> Shape.env_entry prefix k v.
Proof.
  unfold Environment.parseEnvText.
  assert (Hfold : forall lines (acc : gmap string string),
             (forall k v, acc !! k = Some v -> Shape.env_entry prefix k v) ->
             forall k v, fold_left (Environment.parseEnvLine prefix) lines acc !! k = Some v ->
                         Shape.env_entry prefix k v).
  { induction lines as [|line lines IH]; intros acc Hacc; simpl; [exact Hacc|].
    apply IH. by apply parseEnvLine_entries. }
  apply Hfold. intros k' v'. by rewrite lookup_empty.
Qed.

(** X4. Every entry [parseEnvFile(envPath, prefix)] returns has a key
    that starts with [prefix] and is a name (a letter or an underscore,
    then letters, digits and underscores), and a value without line
    terminators; a file that cannot be read yields no entry. *)
Theorem parseEnvFile_entries {H : Host} (w : World) (envPath prefix k v : string) :
  Environment.parseEnvFile w envPath prefix !! k = Some v ->
  Js.startsWith k prefix = true
  /\ Shape.identifier k = true
  /\ Shape.one_line v = true
  /\ exists content, Fs.readFileSync w envPath = Ok content.
Proof.
  unfold Environment.parseEnvFile.
  destruct (Fs.readFileSync w envPath) as [content|e]; [|by rewrite lookup_empty].
  intros (Hprefix & Hkey & Hvalue)%parseEnvText_entries.
  repeat split; try done. by exists content.
Qed.

Lemma split_on_nonempty (sep : ascii) (s : string) : Js.split_on sep s <> [].
Proof.
  induction s as [|c s IH]; simpl; [done|].
  destruct (Js.eqc c sep); [done|]. by destruct (Js.split_on sep s).
Qed.

Lemma split_on_app (sep : ascii) (a b : string) :
  Js.split_on sep (a +:+ String sep b) = Js.split_on sep a ++ Js.split_on sep b.
Proof.
  induction a as [|c a IH]; js_simpl.
  - unfold Js.eqc. by rewrite Ascii.eqb_refl.
  - destruct (Js.eqc c sep); [by rewrite IH|].
    rewrite IH. pose proof (split_on_nonempty sep a) as Hne.
    by destruct (Js.split_on sep a).
Qed.

Lemma split_on_whole (sep : ascii) (s : string) :
  Js.all_chars (fun c => negb (Js.eqc c sep)) s = true -> Js.split_on sep s = [s].
Proof.
  induction s as [|c s IH]; simpl; [done|].
  intros [Hc Hs]%andb_true_iff. apply negb_true_iff in Hc. rewrite Hc.
  by rewrite (IH Hs).
Qed.

Lemma all_chars_impl (p q : ascii -> bool) (s : string) :
  (forall c, p c = true -> q c = true) ->
  Js.all_chars p s = true -> Js.all_chars q s = true.
Proof.
  intros Hpq. induction s as [|c s IH]; simpl; [done|].
  intros [Hc Hs]%andb_true_iff. by rewrite (Hpq c Hc), IH.
Qed.

Lemma word_plain (c : ascii) :
  Js.is_word c = true ->
  Js.is_space c = false /\ Js.is_dot c = true /\ Js.eqc c "010" = false.
Proof.
  destruct c as [[] [] [] [] [] [] [] []]; vm_compute; intros Hc;
    first [discriminate Hc | repeat split].
Qed.

Lemma key_start_word (c : ascii) :
  Constants.is_key_start c = true ->
  Js.is_word c = true /\ Js.eqc "#" c = false.
Proof.
  destruct c as [[] [] [] [] [] [] [] []]; vm_compute; intros Hc;
    first [discriminate Hc | repeat split].
Qed.

Lemma dot_not_newline (c : ascii) : Js.is_dot c = true -> Js.eqc c "010" = false.
Proof.
  destruct c as [[] [] [] [] [] [] [] []]; vm_compute; intros Hc;
    first [discriminate Hc | reflexivity].
Qed.

Lemma identifier_word (key : string) :
  Shape.identifier key = true -> Js.all_chars Js.is_word key = true.
Proof.
  destruct key as [|c t]; [done|]. unfold Shape.identifier. simpl.
  intros [Hc Ht]%andb_true_iff. by rewrite (proj1 (key_start_word c Hc)), Ht.
Qed.

Lemma trimEnd_app (a b : string) :
  Js.all_chars (fun c => negb (Js.is_space c)) a = true ->
  a <> EmptyString ->
  Js.trimEnd (a +:+ b) = a +:+ Js.trimEnd b.
Proof.
  induction a as [|c a IH]; [done|]. js_simpl.
  intros [Hc Ha]%andb_true_iff _. apply negb_true_iff in Hc. rewrite Hc, andb_false_r.
  destruct a as [|d a]; [by js_simpl|]. by rewrite IH.
Qed.

Lemma skip_head (p : ascii -> bool) (s : string) (c : ascii) (t : string) :
  Js.skip p s = String c t -> p c = false.
Proof.
  unfold Js.skip. induction s as [|x s IH]; simpl; [done|].
  destruct (p x) eqn:Hx; simpl; [exact IH|]. by intros [= <- _].
Qed.

Lemma trimmed_parts (s : string) :
  Shape.trimmed s -> Js.skip Js.is_space s = s /\ Js.trimEnd s = s.
Proof.
  unfold Shape.trimmed, Js.trim. intros Htrim.
  assert (Hskip : Js.skip Js.is_space s = s).
  { destruct s as [|c t]; [done|].
    destruct (Js.is_space c) eqn:Hc; [|unfold Js.skip; simpl; by rewrite Hc].
    exfalso. destruct (Js.skip Js.is_space (String c t)) as [|d u] eqn:E; [done|].
    apply skip_head in E. simpl in Htrim.
    destruct (Js.is_empty (Js.trimEnd u) && Js.is_space d); [done|].
    injection Htrim as -> _. congruence. }
  by rewrite Hskip in Htrim.
Qed.

(** A well-formed line is read as its key and its value. *)
Lemma env_line_intro (key raw : string) :
  Shape.identifier key = true -> Shape.one_line raw = true -> Shape.trimmed raw ->
  Js.trim (key +:+ "=" +:+ raw) = key +:+ "=" +:+ raw
  /\ Constants.ENV_FILE_LINE (key +:+ "=" +:+ raw) = Some (key, raw)
  /\ Js.startsWith (key +:+ "=" +:+ raw) "#" = false
  /\ Js.is_empty (key +:+ "=" +:+ raw) = false.
Proof.
  intros Hkey Hline [Hskip Hend]%trimmed_parts.
  pose proof (identifier_word key Hkey) as Hword.
  destruct key as [|c k]; [done|]. unfold Shape.identifier in Hkey.
  apply andb_true_iff in Hkey as [Hc Hk].
  destruct (key_start_word c Hc) as [Hcw Hhash].
  destruct (word_plain c Hcw) as (Hcs & _ & _).
  repeat split.
  - unfold Js.trim.
    assert (Hfront : Js.skip Js.is_space (String c k +:+ "=" +:+ raw)
                     = String c k +:+ "=" +:+ raw).
    { unfold Js.skip. js_simpl. by rewrite Hcs. }
    rewrite Hfront, <- append_assoc, trimEnd_app, Hend; [done| |by destruct k].
    rewrite all_chars_app.
    rewrite (all_chars_impl Js.is_word _ (String c k)); [done| |done].
    intros x Hx. by rewrite (proj1 (word_plain x Hx)).
  - unfold Constants.ENV_FILE_LINE. js_simpl. rewrite Hc.
    change ("=" +:+ raw) with (String "="%char raw).
    rewrite (span_len_app_stop Js.is_word k (String "="%char raw) Hk) by reflexivity.
    rewrite drop_app_length, take_app_length.
    unfold Js.skip at 1. simpl. rewrite Hskip.
    unfold Shape.one_line in Hline. by rewrite Hline.
  - unfold Js.startsWith. autorewrite with js. by rewrite strip_lit_cons, Hhash.
Qed.

Lemma drop_last_cons (c : ascii) (t : string) :
  t <> EmptyString -> Js.drop_last (String c t) = String c (Js.drop_last t).
Proof. by destruct t. Qed.

Lemma fold_parseEnvLine_app (prefix : string) (a b : list string)
  (acc : gmap string string) :
  fold_left (Environment.parseEnvLine prefix) (a ++ b) acc
  = fold_left (Environment.parseEnvLine prefix) b
      (fold_left (Environment.parseEnvLine prefix) a acc).
Proof. apply fold_left_app. Qed.

(** X5. A line [KEY=value] appended to the text of an environment file
    sets [KEY], when it starts with the prefix asked for and is not
    [__proto__], to the value with one pair of enclosing quotes removed,
    and keeps every other entry; with another prefix the line adds
    nothing, and neither does a line for [__proto__], a name under which
    the assignment to the object stores nothing. The quotes removed are
    the first and the last code unit when both are quotes; a value that
    does not start with a quote is taken as it stands. *)
Theorem parseEnvText_appended_line (prefix content key raw : string) :
  Shape.identifier key = true ->
  Shape.one_line raw = true ->
  Shape.trimmed raw ->
  Environment.parseEnvText prefix
    (content +:+ Shape.newline +:+ key +:+ "=" +:+ raw)
  = (if Js.startsWith key prefix && negb (String.eqb key "__proto__")
     then <[key := Environment.strip_quotes raw]> (Environment.parseEnvText prefix content)
     else Environment.parseEnvText prefix content)
  /\ (Js.startsWith raw "'" = false ->
      Js.startsWith raw (String "034"%char EmptyString) = false ->
      Environment.strip_quotes raw = raw)
  /\ (forall (open close : ascii) (inner : string),
        Js.is_quote open = true -> Js.is_quote close = true ->
        Shape.one_line inner = true ->
        Environment.strip_quotes (String open (inner +:+ String close EmptyString))
        = inner).
Proof.
  intros Hkey Hline Htrim. split; [|split].
  - destruct (env_line_intro key raw Hkey Hline Htrim) as (Htrimmed & Hmatch & Hhash & Hne).
    unfold Environment.parseEnvText, Shape.newline. js_simpl.
    rewrite split_on_app, fold_parseEnvLine_app.
    rewrite (split_on_whole _ (key +:+ "=" +:+ raw)).
    2:{ rewrite !all_chars_app. simpl.
        rewrite (all_chars_impl Js.is_word _ key), (all_chars_impl Js.is_dot _ raw);
          [done | | done | | by apply identifier_word].
        - intros c Hc. by rewrite (dot_not_newline c Hc).
        - intros c Hc. by rewrite (proj2 (proj2 (word_plain c Hc))). }
    simpl. unfold Environment.parseEnvLine at 1.
    rewrite Htrimmed, Hne, Hhash, Hmatch. unfold Js.assign_member.
    by destruct (Js.startsWith key prefix), (String.eqb key "__proto__").
  - intros Hsingle Hdouble. unfold Environment.strip_quotes.
    destruct raw as [|c t]; [done|].
    unfold Js.startsWith in *. simpl in *.
    assert (Hq : Js.is_quote c = false).
    { revert Hsingle Hdouble. clear.
      destruct c as [[] [] [] [] [] [] [] []]; vm_compute; congruence. }
    by rewrite Hq.
  - intros open close inner Hopen Hclose Hinner. unfold Environment.strip_quotes.
    rewrite Hopen.
    assert (Hlast : Js.last_char (inner +:+ String close EmptyString) = Some close).
    { by rewrite last_char_app. }
    assert (Hfront : Js.drop_last (inner +:+ String close EmptyString) = inner).
    { clear. induction inner as [|c s IH]; [done|]. autorewrite with js.
      rewrite drop_last_cons, IH; [done | by destruct s]. }
    rewrite Hlast, Hclose, Hfront. unfold Shape.one_line in Hinner. by rewrite Hinner.
Qed.

(** ** The keys the loaders return *)

Lemma startsWith_app (p rest : string) : Js.startsWith (p +:+ rest) p = true.
Proof. unfold Js.startsWith. by rewrite strip_lit_eqc_app. Qed.

Lemma startsWith_inv (s p : string) :
  Js.startsWith s p = true -> exists rest, s = p +:+ rest.
Proof.
  unfold Js.startsWith. destruct (Js.strip_lit Js.eqc p s) as [rest|] eqn:E; [|done].
  intros _. exists rest. by apply strip_lit_eqc.
Qed.

Section LoaderKeys.
Context {H : Host}.

Lemma fileVars_keys (w : World) (projectRoot envFile k v : string) :
  Spec.fileVars w projectRoot envFile !! k = Some v ->
  Environment.is_react_or_vite k = true.
Proof.
  unfold Spec.fileVars, Environment.loadEnvFile, Environment.is_react_or_vite.
  destruct (Fs.existsSync w _); [|by rewrite lookup_empty].
  rewrite !lookup_assign, lookup_empty.
  destruct (Environment.parseEnvFile w _ Constants.ENV_PREFIXES_VITE !! k) as [v'|] eqn:Hvite.
  - intros _. unfold Environment.parseEnvFile in Hvite.
    destruct (Fs.readFileSync w _); [|by rewrite lookup_empty in Hvite].
    apply parseEnvText_entries in Hvite as [-> _]. apply orb_true_r.
  - simpl.
    destruct (Environment.parseEnvFile w _ Constants.ENV_PREFIXES_REACT !! k) as [v'|] eqn:Hreact;
      [|done].
    intros _. unfold Environment.parseEnvFile in Hreact.
    destruct (Fs.readFileSync w _); [|by rewrite lookup_empty in Hreact].
    by apply parseEnvText_entries in Hreact as [-> _].
Qed.

(** X6. Every variable [loadReactEnv] returns carries the prefix
    [REACT_APP_] or [VITE_], whether it comes from a file or from the
    process environment, and it is the value of the process environment or
    of one of the four environment files. *)
Theorem loadReactEnv_keys (w : World) (projectRoot k v : string) :
  Environment.loadReactEnv w projectRoot !! k = Some v ->
  Environment.is_react_or_vite k = true
  /\ (env w !! k = Some v
      \/ exists envFile, In envFile (Environment.envFiles w)
                         /\ Spec.fileVars w projectRoot envFile !! k = Some v).
Proof.
  rewrite loadReactEnv_lookup. unfold Spec.processVars, Environment.envFiles.
  destruct (filter _ (env w) !! k) as [v'|] eqn:Hprocess; simpl.
  { intros [= ->]. apply map_lookup_filter_Some in Hprocess as [Henv Hk]. auto. }
  repeat match goal with
         | |- context [Spec.or_else (Spec.fileVars w projectRoot ?f !! k) _] =>
             let E := fresh "E" in
             destruct (Spec.fileVars w projectRoot f !! k) as [?|] eqn:E; simpl;
             [intros [= ->]; split; [by eapply fileVars_keys|];
              right; exists f; split; [simpl; tauto | done]|]
         end.
  intros Hlast. split; [by eapply fileVars_keys|].
  right. exists ".env". split; [simpl; tauto | done].
Qed.

End LoaderKeys.

(** ** The keys of an Angular environment *)

Lemma property_match_key (s : string) (p : Environment.property) (n : nat) :
  Environment.propertyRegex s = Some (p, n) ->
  Js.all_chars Js.is_word (Environment.prop_key p) = true.
Proof.
  unfold Environment.propertyRegex, Environment.property_at.
  destruct (_ =? 0)%nat; [done|].
  destruct (Js.drop _ s) as [|colon r]; [done|].
  destruct (Js.eqc colon ":"); [|done].
  destruct (match Js.skip Js.is_space r with
            | EmptyString => None
            | String q r2 => _
            end) as [[v r3]|].
  - intros [= <- _]. apply all_chars_take_span.
  - destruct (_ =? 0)%nat; [done|]. intros [= <- _]. apply all_chars_take_span.
Qed.

Lemma properties_keys (body : string) (p : Environment.property) :
  In p (Environment.properties body) ->
  Js.all_chars Js.is_word (Environment.prop_key p) = true.
Proof.
  unfold Environment.properties. intros [[q matched] [<- Hin]]%in_map_iff.
  apply In_hits in Hin.
  pose proof (scan_from_hits Environment.propertyRegex
                (fun g _ => Js.all_chars Js.is_word (Environment.prop_key g) = true)
                (fun s g n Hm => property_match_key s g n Hm) body 0) as Hall.
  rewrite List.Forall_forall in Hall. apply (Hall _ Hin).
Qed.

Lemma word_upper_constant (c : ascii) :
  Js.is_word c = true ->
  Environment.constant_char (Js.upper_char c) = true
  /\ (Js.is_upper c = true -> Environment.constant_char c = true).
Proof.
  destruct c as [[] [] [] [] [] [] [] []]; vm_compute; intros Hc;
    first [discriminate Hc | split; [reflexivity | intros E; first [exact E | reflexivity]]].
Qed.

Lemma upper_snake_constant (key : string) :
  Js.all_chars Js.is_word key = true ->
  Js.all_chars Environment.constant_char (Spec.upper_snake key) = true.
Proof.
  induction key as [|c key IH]; [done|]. simpl.
  intros [Hc Hkey]%andb_true_iff.
  destruct (word_upper_constant c Hc) as [Hup Hconst].
  destruct (Js.is_upper c) eqn:E; simpl.
  - by rewrite (Hconst eq_refl), IH.
  - by rewrite Hup, IH.
Qed.

(** The key under which a property of an Angular environment is stored. *)
Lemma envKey_shape (key : string) :
  Js.all_chars Js.is_word key = true ->
  exists rest,
    Environment.envKey key = "NG_" +:+ rest
    /\ Js.all_chars Environment.constant_char rest = true.
Proof.
  intros Hkey. unfold Environment.envKey.
  destruct (Environment.is_constant_case key) eqn:Hcase.
  - exists key. split; [done|].
    unfold Environment.is_constant_case in Hcase. by apply andb_true_iff in Hcase as [_ ?].
  - exists (Environment.camelCaseToUpperCase key). split; [done|].
    unfold Environment.camelCaseToUpperCase. rewrite underscored_upper_snake.
    pose proof (upper_snake_constant key Hkey) as Hall.
    destruct (Spec.upper_snake key) as [|c t]; [done|].
    simpl in Hall. apply andb_true_iff in Hall as [Hc Ht].
    destruct (Js.eqc c "_"); [done|]. simpl. by rewrite Hc, Ht.
Qed.

(** X7. Every entry read from an Angular environment file has a key made
    of [NG_] followed by capitals, digits and underscores only, and a value
    that passes the validity test and is neither [true] nor [false]. *)
Theorem parseAngularEnvFile_entries {H : Host} (w : World) (envPath k v : string) :
  Environment.parseAngularEnvFile w envPath !! k = Some v ->
  (exists rest, k = "NG_" +:+ rest
                /\ Js.all_chars Environment.constant_char rest = true)
  /\ Environment.isValidEnvironmentValue v = true
  /\ v <> "true" /\ v <> "false".
Proof.
  unfold Environment.parseAngularEnvFile.
  destruct (negb _); [by rewrite lookup_empty|].
  destruct (Fs.readFileSync w envPath) as [content|e]; [|by rewrite lookup_empty].
  unfold Environment.parseAngularEnvText.
  destruct (Js.search _ content) as [[[[before body] matched] after]|];
    [|by rewrite lookup_empty].
  intros [Hempty|(p & Hin & Hkept & -> & ->)]%fold_addProperty_origin;
    [by rewrite lookup_empty in Hempty|].
  split; [apply envKey_shape; by eapply properties_keys|].
  unfold Environment.property_kept in Hkept.
  apply andb_true_iff in Hkept as [[[_ Hvalid]%andb_true_iff Hfalse]%andb_true_iff Htrue].
  apply negb_true_iff, String.eqb_neq in Hfalse, Htrue. done.
Qed.

Section AngularOrigin.
Context {H : Host}.

Lemma findProjectLoop_origin (w : World) (projectRoot normalizedPath envFile : string)
  (projects : list (string * json)) (m : gmap string string) :
  Environment.findProjectLoop w projectRoot normalizedPath envFile projects = Ok m ->
  Shape.from_environment_file w m.
Proof.
  induction projects as [|[name config] projects IH];
    cbn [Environment.findProjectLoop].
  - intros [= <-] k v. by rewrite lookup_empty.
  - unfold obind. destruct (Obj.get (Some config) "projectType") as [projectType|]; [|done].
    destruct (Obj.str_eq projectType "application"); [|exact IH].
    destruct (Environment.path_arg (Obj.get_opt (Some config) "root") EmptyString) as [root|]; [|done].
    destruct (_ && _); [|exact IH].
    destruct (Environment.path_arg (Obj.get_opt (Some config) "sourceRoot") "src") as [sourceRoot|]; [|done].
    intros [= <-] k v Hk. eauto.
Qed.

Lemma loadAllLoop_origin (w : World) (projectRoot envFile : string)
  (projects : list (string * json)) :
  forall (acc m : gmap string string),
    Shape.from_environment_file w acc ->
    Environment.loadAllLoop w projectRoot envFile acc projects = Ok m ->
    Shape.from_environment_file w m.
Proof.
  induction projects as [|[name config] projects IH];
    cbn [Environment.loadAllLoop]; intros acc m Hacc.
  - by intros [= <-].
  - unfold obind. destruct (Obj.get (Some config) "projectType") as [projectType|]; [|done].
    destruct (Obj.str_eq projectType "application"); [|by apply IH].
    destruct (Environment.path_arg (Obj.get_opt (Some config) "sourceRoot") "src") as [sourceRoot|]; [|done].
    apply IH. intros k v. rewrite lookup_assign.
    destruct (Environment.parseAngularEnvFile w _ !! k) as [v'|] eqn:E; simpl.
    + intros [= <-]. eauto.
    + apply Hacc.
Qed.

Lemma loadAngularEnv_origin (w : World) (projectRoot : string)
  (targetHtmlPath : option string) (m : gmap string string) :
  Environment.loadAngularEnv w projectRoot targetHtmlPath = Ok m ->
  Shape.from_environment_file w m.
Proof.
  unfold Environment.loadAngularEnv, obind.
  set (envFile := if Environment.isProduction w then _ else _).
  destruct (if _ && _ then _ else _) as [projectVars|] eqn:Hproject; [|done].
  assert (Hfrom : Shape.from_environment_file w projectVars).
  { destruct (_ && _); [|injection Hproject as <-; intros k v; by rewrite lookup_empty].
    unfold Environment.findProjectForHtmlPath, obind in Hproject.
    destruct (Obj.get _ "projects") as [projects|]; [|done].
    destruct (Obj.entries projects) as [entries|]; [|done].
    by eapply findProjectLoop_origin. }
  destruct (Environment.nonempty_map projectVars); [by intros [= <-]|].
  destruct (if Obj.truthy _ then _ else _) as [workspaceVars|] eqn:Hworkspace; [|done].
  assert (Hall : Shape.from_environment_file w workspaceVars).
  { destruct (Obj.truthy _); [|injection Hworkspace as <-; intros k v; by rewrite lookup_empty].
    unfold Environment.loadAllWorkspaceProjects, obind in Hworkspace.
    destruct (Obj.get _ "projects") as [projects|]; [|done].
    destruct (Obj.entries projects) as [entries|]; [|done].
    eapply loadAllLoop_origin; [|exact Hworkspace].
    intros k v. by rewrite lookup_empty. }
  destruct (Environment.nonempty_map workspaceVars); [by intros [= <-]|].
  intros [= <-] k v Hk. eauto.
Qed.

Lemma angular_key (w : World) (m : gmap string string) (k v : string) :
  Shape.from_environment_file w m -> m !! k = Some v ->
  Js.startsWith k Constants.ENV_PREFIXES_ANGULAR = true.
Proof.
  intros Hfrom Hk. destruct (Hfrom _ _ Hk) as [envPath Hfile].
  apply parseAngularEnvFile_entries in Hfile as [(rest & -> & _) _].
  apply startsWith_app.
Qed.

Lemma loaded_keys (w : World) (projectRoot : string)
  (targetHtmlPath : option string) (m : gmap string string) (k v : string) :
  Environment.loadEnvironmentVariables w projectRoot targetHtmlPath = Ok m ->
  m !! k = Some v ->
  Config.is_framework_key k = true
  /\ (ProjectDetection.isAngularProject w projectRoot = true ->
      Js.startsWith k "NG_" = true)
  /\ (ProjectDetection.isAngularProject w projectRoot = false ->
      ProjectDetection.isReactProject w projectRoot = true ->
      Environment.is_react_or_vite k = true).
Proof.
  unfold Environment.loadEnvironmentVariables, obind, Config.is_framework_key.
  destruct (ProjectDetection.isAngularProject w projectRoot).
  - destruct (Environment.loadAngularEnv w projectRoot targetHtmlPath) as [envVars|] eqn:Hload;
      [|done].
    intros [= <-] [_ Hk]%filterValid_lookup.
    pose proof (angular_key w envVars k v (loadAngularEnv_origin _ _ _ _ Hload) Hk) as Hng.
    change Constants.ENV_PREFIXES_ANGULAR with "NG_" in Hng.
    rewrite Hng, orb_true_r. by repeat split.
  - destruct (ProjectDetection.isReactProject w projectRoot).
    + intros [= <-] [_ Hk]%filterValid_lookup.
      apply loadReactEnv_keys in Hk as [Hk _].
      unfold Environment.is_react_or_vite in Hk.
      change Constants.ENV_PREFIXES_REACT with "REACT_APP_" in Hk.
      change Constants.ENV_PREFIXES_VITE with "VITE_" in Hk.
      rewrite Hk. by repeat split.
    + destruct (Environment.loadAngularEnv w projectRoot targetHtmlPath) as [envVars|] eqn:Hload;
        [|done].
      intros [= <-] [_ Hk]%filterValid_lookup. rewrite lookup_assign in Hk.
      destruct (envVars !! k) as [v'|] eqn:Hangular; simpl in Hk.
      * pose proof (angular_key w envVars k v' (loadAngularEnv_origin _ _ _ _ Hload) Hangular)
          as Hng.
        change Constants.ENV_PREFIXES_ANGULAR with "NG_" in Hng.
        rewrite Hng, orb_true_r. by repeat split.
      * apply loadReactEnv_keys in Hk as [Hk _].
        unfold Environment.is_react_or_vite in Hk.
        change Constants.ENV_PREFIXES_REACT with "REACT_APP_" in Hk.
        change Constants.ENV_PREFIXES_VITE with "VITE_" in Hk.
        rewrite Hk. by repeat split.
Qed.

(** X8. The loader of the environment module returns framework variables
    only: every key starts with [REACT_APP_], [VITE_] or [NG_] (so
    [NODE_ENV] and the like are never among them). For an Angular project
    every key starts with [NG_]; for a React project that is not an Angular
    project every key starts with [REACT_APP_] or [VITE_]. *)
Theorem loadEnvironmentVariables_keys (w : World) (projectRoot : string)
  (targetHtmlPath : option string) (m : gmap string string) (k v : string) :
  Environment.loadEnvironmentVariables w projectRoot targetHtmlPath = Ok m ->
  m !! k = Some v ->
  Config.is_framework_key k = true
  /\ (ProjectDetection.isAngularProject w projectRoot = true ->
      Js.startsWith k "NG_" = true)
  /\ (ProjectDetection.isAngularProject w projectRoot = false ->
      ProjectDetection.isReactProject w projectRoot = true ->
      Environment.is_react_or_vite k = true).
Proof. apply loaded_keys. Qed.

(** X9. The static [CSPInjector.loadEnvironmentVariables] includes the
    process environment, but for a variable named [__proto__]: under that
    name the assignment to the new object stores nothing, so the result
    has no entry for it. Every other variable of the process is in the
    result; when its name carries no framework prefix it has the value the
    process has for it; and nothing without a framework prefix is
    added. *)
Theorem injector_loader_includes_process (w : World) (projectRoot : string)
  (m : gmap string string) :
  CSPInjector.loadEnvironmentVariables w projectRoot = Ok m ->
  (forall k, Config.is_framework_key k = false -> k <> "__proto__" ->
             m !! k = env w !! k)
  /\ (forall k, k <> "__proto__" -> is_Some (env w !! k) -> is_Some (m !! k))
  /\ m !! "__proto__" = None.
Proof.
  unfold CSPInjector.loadEnvironmentVariables, CSPInjector.processVariables, obind.
  destruct (Environment.loadEnvironmentVariables w projectRoot None)
    as [frameworkEnvVars|] eqn:Hload; [|done].
  assert (Hkept : forall k v, CSPInjector.keepFramework frameworkEnvVars !! k = Some v ->
                              Config.is_framework_key k = true).
  { intros k v [Hkeep _]%map_lookup_filter_Some.
    by destruct (loaded_keys _ _ _ _ _ _ Hload Hkeep) as [Hframework _]. }
  intros [= <-]. split; [|split].
  - intros k Hk Hproto. rewrite lookup_assign, lookup_delete_ne by done.
    destruct (CSPInjector.keepFramework frameworkEnvVars !! k) as [v|] eqn:Hkeep; [|done].
    apply Hkept in Hkeep. congruence.
  - intros k Hproto [v Hv]. rewrite lookup_assign, lookup_delete_ne, Hv by done.
    by destruct (CSPInjector.keepFramework frameworkEnvVars !! k).
  - rewrite lookup_assign, lookup_delete_eq.
    destruct (CSPInjector.keepFramework frameworkEnvVars !! "__proto__") as [v|] eqn:Hkeep;
      [|done].
    apply Hkept in Hkeep. discriminate.
Qed.

End AngularOrigin.

(** ** An [angular.json] without projects *)

(** X10. When [angular.json] parses to an object whose [projects] is
    missing or [null], loading the environment throws the [TypeError] of
    [Object.entries], with or without a target page, and the static loader
    of [CSPInjector] throws with it. *)
Theorem angular_json_without_projects_throws {H : Host} (w : World)
  (projectRoot content : string) (targetHtmlPath : option string)
  (fields : list (string * json)) :
  Fs.readFileSync w (path_join [projectRoot; "angular.json"]) = Ok content ->
  JSON_parse content = Some (JObj fields) ->
  Obj.lookup_field "projects" fields = None
  \/ Obj.lookup_field "projects" fields = Some JNull ->
  Environment.loadEnvironmentVariables w projectRoot targetHtmlPath
  = Throw "TypeError: Cannot convert undefined or null to object"
  /\ CSPInjector.loadEnvironmentVariables w projectRoot
     = Throw "TypeError: Cannot convert undefined or null to object".
Proof.
  intros Hread Hparse Hprojects.
  assert (Hload : forall target,
             Environment.loadAngularEnv w projectRoot target
             = Throw "TypeError: Cannot convert undefined or null to object").
  { intros target. unfold Environment.loadAngularEnv, Environment.loadAngularWorkspace.
    rewrite (readFileSync_exists _ _ _ Hread), Hread, Hparse. simpl negb. cbv iota.
    unfold Environment.findProjectForHtmlPath, Environment.loadAllWorkspaceProjects.
    simpl Obj.get. simpl Obj.truthy.
    destruct Hprojects as [-> | ->]; simpl; by destruct (Environment.given target). }
  assert (Hangular : ProjectDetection.isAngularProject w projectRoot = true).
  { unfold ProjectDetection.isAngularProject.
    by rewrite (readFileSync_exists _ _ _ Hread). }
  assert (Henv : forall target,
             Environment.loadEnvironmentVariables w projectRoot target
             = Throw "TypeError: Cannot convert undefined or null to object").
  { intros target. unfold Environment.loadEnvironmentVariables.
    by rewrite Hangular, Hload. }
  split; [apply Henv|].
  unfold CSPInjector.loadEnvironmentVariables. by rewrite Henv.
Qed.

(** ** Reading the configuration file *)

(** X11. A configuration path that cannot be read, because nothing exists
    there or because reading it fails, is passed over: [loadConfig] returns
    what it returns without a path ([csp.config.json] of the working
    directory if there is one, the defaults otherwise). Only a path that
    exists and cannot be read is reported, by one warning ahead of the
    others. *)
Theorem loadConfig_unreadable_path {H : Host} (w : World) (bases : Config.baseConfigs)
  (configPath e : string) (envVars : option (gmap string string)) :
  Fs.readFileSync w configPath = Throw e ->
  Config.loadConfig w bases (Some configPath) envVars
  = ((Config.loadConfig w bases None envVars).1,
     (if negb (Js.is_empty configPath) && Fs.existsSync w configPath
      then ["Warning: Could not read config file " +:+ configPath +:+ ", using defaults"]
      else [])
     ++ (Config.loadConfig w bases None envVars).2).
Proof.
  intros Hread.
  unfold Config.loadConfig, Config.loadConfigFromFile, Config.readConfigFile,
    Config.tryReadSpecifiedConfig, Config.truthy_path.
  rewrite Hread.
  destruct (Js.is_empty configPath), (Fs.existsSync w configPath); simpl;
    destruct (Config.tryReadDefaultConfig w) as [[[content filePath]|] log]; simpl;
    try reflexivity;
    destruct (Js.is_empty content || Js.is_empty filePath); try reflexivity;
    destruct (Obj.truthy _); reflexivity.
Qed.

(** ** Objects *)

Lemma lookup_field_app {A} (k : string) (a b : list (string * A)) :
  Obj.lookup_field k (a ++ b)
  = Spec.or_else (Obj.lookup_field k a) (Obj.lookup_field k b).
Proof.
  induction a as [|[k' v] a IH]; simpl; [done|].
  by destruct (String.eqb k k').
Qed.

Lemma lookup_set_field {A} (k k' : string) (v : A) (l : list (string * A)) :
  Obj.lookup_field k (Obj.set_field k' v l)
  = if String.eqb k k' then Some v else Obj.lookup_field k l.
Proof.
  induction l as [|[k2 v2] l IH]; simpl.
  - by destruct (String.eqb k k').
  - destruct (String.eqb_spec k' k2) as [->|Hne]; simpl.
    + by destruct (String.eqb k k2).
    + destruct (String.eqb_spec k k2) as [->|Hne2].
      * destruct (String.eqb_spec k2 k') as [->|]; [done|reflexivity].
      * exact IH.
Qed.

Lemma lookup_remove_field {A} (k k' : string) (l : list (string * A)) :
  Obj.lookup_field k (Obj.remove_field k' l)
  = if String.eqb k k' then None else Obj.lookup_field k l.
Proof.
  induction l as [|[k2 v2] l IH]; simpl.
  - by destruct (String.eqb k k').
  - destruct (String.eqb_spec k' k2) as [->|Hne]; simpl.
    + rewrite IH. by destruct (String.eqb k k2).
    + destruct (String.eqb_spec k k2) as [->|Hne2].
      * destruct (String.eqb_spec k2 k') as [->|]; [done|reflexivity].
      * exact IH.
Qed.

(** A spread reads the last field of each name. *)
Lemma lookup_assign_fields {A} (k : string) (source : list (string * A)) :
  forall target,
    Obj.lookup_field k (Obj.assign target source)
    = Spec.or_else (Obj.lookup_field k (rev source)) (Obj.lookup_field k target).
Proof.
  unfold Obj.assign. induction source as [|[k' v] source IH]; intros target; simpl.
  - reflexivity.
  - rewrite IH, lookup_field_app, lookup_set_field. simpl.
    destruct (Obj.lookup_field k (rev source)); simpl; [done|].
    by destruct (String.eqb k k').
Qed.

Lemma lookup_field_None {A} (k : string) (l : list (string * A)) :
  ~ In k (map fst l) -> Obj.lookup_field k l = None.
Proof.
  induction l as [|[k' v] l IH]; simpl; [done|]. intros Hnot.
  destruct (String.eqb_spec k k') as [->|]; [tauto|]. apply IH. tauto.
Qed.

Lemma lookup_field_rev {A} (k : string) (l : list (string * A)) :
  Shape.distinct l -> Obj.lookup_field k (rev l) = Obj.lookup_field k l.
Proof.
  unfold Shape.distinct. induction l as [|[k' v] l IH]; simpl; [done|].
  intros [Hnot Hl]%NoDup_cons. rewrite lookup_field_app, (IH Hl). simpl.
  destruct (String.eqb_spec k k') as [->|Hne].
  - by rewrite (lookup_field_None k' l) by (intros Hin; apply Hnot; by apply list_elem_of_In).
  - by destruct (Obj.lookup_field k l).
Qed.

Lemma lookup_spread {A} (k : string) (target source : list (string * A)) :
  Shape.distinct source ->
  Obj.lookup_field k (Obj.assign target source)
  = Spec.or_else (Obj.lookup_field k source) (Obj.lookup_field k target).
Proof. intros Hs. by rewrite lookup_assign_fields, lookup_field_rev. Qed.

Lemma lookup_fresh {A} (k : string) (source : list (string * A)) :
  Shape.distinct source ->
  Obj.lookup_field k (Obj.assign [] source) = Obj.lookup_field k source.
Proof.
  intros Hs. rewrite lookup_spread by done. by destruct (Obj.lookup_field k source).
Qed.

(** ** Merging configurations *)

(** X12. In the merged configuration a setting of the user replaces the
    default of the same name, and a default the user does not mention is
    kept. Directives are merged name by name in the same way: a directive
    the user gives replaces the whole default list of that directive (the
    two lists are not joined), and the other default directives stay. *)
Theorem mergeConfigWithDefaults_fields (defaultConfig : json) (config : Obj.value) :
  Shape.distinct (Obj.own_props (Some defaultConfig)) ->
  Shape.distinct (Obj.own_props config) ->
  Shape.distinct (Obj.own_props (Obj.get_opt (Some defaultConfig) "directives")) ->
  Shape.distinct (Obj.own_props (Obj.get_opt config "directives")) ->
  let merged := Config.mergeConfigWithDefaults defaultConfig config in
  (forall k, k <> "directives" ->
     Obj.get_opt (Some merged) k
     = Spec.or_else (Obj.lookup_field k (Obj.own_props config))
         (Obj.lookup_field k (Obj.own_props (Some defaultConfig))))
  /\ (forall d,
        Shape.directive merged d
        = Spec.or_else
            (Obj.lookup_field d (Obj.own_props (Obj.get_opt config "directives")))
            (Obj.lookup_field d (Obj.own_props (Obj.get_opt (Some defaultConfig) "directives")))).
Proof.
  intros Hdefault Hconfig Hdd Hud merged. subst merged.
  unfold Config.mergeConfigWithDefaults, Shape.directive. split.
  - intros k Hk. cbn [Obj.get_opt]. rewrite lookup_set_field.
    destruct (String.eqb_spec k "directives") as [->|_]; [done|].
    by rewrite lookup_spread, lookup_fresh.
  - intros d. cbn [Obj.get_opt]. rewrite lookup_set_field. simpl String.eqb. cbv iota.
    cbn [Obj.get_opt]. by rewrite lookup_spread, lookup_fresh.
Qed.

(** ** The defaults enhanced with placeholders *)






(** ** The guarded JSON reader *)

(** X14. An object returned by [safeJsonParse] is the parsed object with
    its fields [constructor] and [prototype] removed and a field
    [__proto__], if it had one, set to [null]; every other field is kept
    with its value. The guard works on the outermost object only. *)
Theorem safeJsonParse_protects {H : Host} (jsonString : string)
  (fields : list (string * json)) :
  Config.safeJsonParse jsonString = Some (JObj fields) ->
  exists parsed,
    JSON_parse jsonString = Some (JObj parsed)
    /\ Obj.lookup_field "constructor" fields = None
    /\ Obj.lookup_field "prototype" fields = None
    /\ Obj.lookup_field "__proto__" fields
       = match Obj.lookup_field "__proto__" parsed with
         | Some _ => Some JNull
         | None => None
         end
    /\ (forall k, k <> "constructor" -> k <> "prototype" -> k <> "__proto__" ->
                  Obj.lookup_field k fields = Obj.lookup_field k parsed).
Proof.
  unfold Config.safeJsonParse.
  destruct (JSON_parse jsonString) as [[| | | | |parsed]|]; try done.
  intros [= <-]. exists parsed. split; [done|].
  unfold Config.protect.
  repeat split.
  - rewrite lookup_remove_field. simpl String.eqb. cbv iota.
    by rewrite lookup_remove_field.
  - by rewrite lookup_remove_field.
  - rewrite !lookup_remove_field. simpl String.eqb. cbv iota.
    destruct (Obj.lookup_field "__proto__" parsed) eqn:E; [|exact E].
    by rewrite lookup_set_field.
  - intros k Hc Hp Hproto. rewrite !lookup_remove_field.
    destruct (String.eqb_spec k "prototype"); [done|].
    destruct (String.eqb_spec k "constructor"); [done|].
    destruct (Obj.lookup_field "__proto__" parsed); [|done].
    rewrite lookup_set_field. by destruct (String.eqb_spec k "__proto__").
Qed.

(** ** Writing the tag into a page *)

Lemma append_empty (s : string) : s +:+ EmptyString = s.
Proof. induction s as [|c s IH]; js_simpl; [done | by rewrite IH]. Qed.

Lemma any_suffix_app (p : string -> bool) (a b : string) :
  p b = true -> Js.any_suffix p (a +:+ b) = true.
Proof.
  intros Hb. induction a as [|c a IH]; js_simpl.
  - destruct b; simpl; by rewrite Hb.
  - rewrite IH. apply orb_true_r.
Qed.

Lemma expand_plain (before matched after capture : string) (c : ascii) (t : string) :
  Js.eqc c "$" = false ->
  HtmlDetector.expand before matched after capture (String c t)
  = String c (HtmlDetector.expand before matched after capture t).
Proof. intros Hc. cbn [HtmlDetector.expand]. by rewrite Hc. Qed.

Lemma expand_prefix (before matched after capture : string) (pre rest : string) :
  Shape.no_dollar pre = true ->
  HtmlDetector.expand before matched after capture (pre +:+ rest)
  = pre +:+ HtmlDetector.expand before matched after capture rest.
Proof.
  unfold Shape.no_dollar. induction pre as [|c pre IH]; [done|].
  cbn [Js.all_chars]. intros [Hc Hpre]%andb_true_iff. apply negb_true_iff in Hc.
  autorewrite with js. by rewrite (expand_plain _ _ _ _ c _ Hc), IH.
Qed.

Lemma expand_capture (before matched after capture t : string) :
  HtmlDetector.expand before matched after capture ("$1" +:+ String "010"%char t)
  = capture +:+ String "010"%char (HtmlDetector.expand before matched after capture t).
Proof. reflexivity. Qed.

Lemma metaTag_prefix (csp : string) (reportOnly : bool) :
  exists rest,
    Shape.metaTag csp reportOnly
    = ("<meta http-equiv=" +:+ HtmlDetector.dq +:+ "Content-Security-Policy") +:+ rest.
Proof.
  unfold Shape.metaTag. destruct reportOnly; eexists; vm_compute; reflexivity.
Qed.

Lemma processHTMLContent_metaTag (html csp : string) (reportOnly : bool) :
  HtmlDetector.modifiedHtml (HtmlDetector.processHTMLContent html csp reportOnly)
  = HtmlDetector.injectMetaTag
      (Js.replace_all HtmlDetector.cspRegex (fun _ _ => EmptyString) html)
      (Shape.metaTag csp reportOnly).
Proof. reflexivity. Qed.

Lemma detect_at_tag (rest : string) :
  HtmlDetector.detect_at
    (("<meta http-equiv=" +:+ HtmlDetector.dq +:+ "Content-Security-Policy") +:+ rest)
  = true.
Proof. vm_compute. reflexivity. Qed.

(** X15. Whatever the page and the policy, the page [processHTMLContent]
    returns is recognised by the detection pattern of
    [createHTMLDetectionResult]: a page that was injected is reported as
    having a CSP tag. *)
Theorem processHTMLContent_detected (html csp : string) (reportOnly : bool) :
  HtmlDetector.cspDetected
    (HtmlDetector.modifiedHtml (HtmlDetector.processHTMLContent html csp reportOnly))
  = true.
Proof.
  rewrite processHTMLContent_metaTag.
  destruct (metaTag_prefix csp reportOnly) as [rest ->].
  unfold HtmlDetector.injectMetaTag, HtmlDetector.cspDetected.
  destruct (Js.search HtmlDetector.head_at _) as [[[[before g] matched] after]|].
  - rewrite expand_capture, expand_prefix by reflexivity.
    set (tag := "<meta http-equiv=" +:+ HtmlDetector.dq +:+ "Content-Security-Policy").
    set (tail := HtmlDetector.expand before matched after matched rest).
    replace (before +:+ (matched +:+ String "010"%char (tag +:+ tail)) +:+ after)
      with ((before +:+ matched +:+ Shape.newline) +:+ tag +:+ tail +:+ after).
    + apply any_suffix_app. rewrite <- append_assoc. apply detect_at_tag.
    + unfold Shape.newline. rewrite !append_assoc. by autorewrite with js.
  - rewrite append_assoc. apply (any_suffix_app _ EmptyString), detect_at_tag.
Qed.






(** ** What a detection result says *)

Section Detection.
Context {H : Host}.

Lemma createHTMLDetectionResult_describes (w : World) (fullPath htmlPath : string)
  (found : HtmlDetector.HTMLDetectionResult) :
  HtmlDetector.createHTMLDetectionResult w fullPath htmlPath = Ok found ->
  Shape.describes w found /\ HtmlDetector.path found = fullPath
  /\ HtmlDetector.buildDir found = path_dirname htmlPath.
Proof.
  unfold HtmlDetector.createHTMLDetectionResult, obind.
  destruct (Fs.readFileSync w fullPath) as [content|] eqn:Hread; [|done].
  intros [= <-]. split; [|done]. by exists content.
Qed.

Lemma firstExisting_describes (w : World) (searchDir afterStar : string)
  (subdirs : list string) (found : HtmlDetector.HTMLDetectionResult) :
  HtmlDetector.firstExisting w searchDir afterStar subdirs = Ok (Some found) ->
  Shape.describes w found.
Proof.
  induction subdirs as [|subdir subdirs IH]; cbn [HtmlDetector.firstExisting]; [done|].
  destruct (Fs.existsSync w _); [|exact IH].
  unfold obind.
  destruct (HtmlDetector.createHTMLDetectionResult w _ _) as [result|] eqn:Hcreate; [|done].
  intros [= <-]. by apply createHTMLDetectionResult_describes in Hcreate as [? _].
Qed.

Lemma findHTMLFile_describes (w : World) (htmlPath : string)
  (found : HtmlDetector.HTMLDetectionResult) :
  HtmlDetector.findHTMLFile w htmlPath = Ok (Some found) -> Shape.describes w found.
Proof.
  unfold HtmlDetector.findHTMLFile.
  destruct (Js.includes_char "*" htmlPath).
  - intros [= Hglob]. unfold HtmlDetector.searchGlobPattern in Hglob.
    destruct (Js.split_on "*" htmlPath) as [|beforeStar [|afterStar rest]]; try done.
    destruct (Js.is_empty beforeStar); [done|].
    destruct (negb _); [done|].
    unfold obind in Hglob.
    destruct (Fs.readdirSync w _) as [items|]; [|done].
    destruct (HtmlDetector.keepDirectories w _ items) as [subdirs|]; [|done].
    destruct (HtmlDetector.firstExisting w _ afterStar subdirs) as [result|] eqn:Hfirst;
      [|done].
    subst result. by eapply firstExisting_describes.
  - destruct (Fs.existsSync w _); [|done]. unfold obind.
    destruct (HtmlDetector.createHTMLDetectionResult w _ _) as [result|] eqn:Hcreate; [|done].
    intros [= <-]. by apply createHTMLDetectionResult_describes in Hcreate as [? _].
Qed.

Lemma firstFound_origin (w : World) (searchPaths : list string)
  (found : HtmlDetector.HTMLDetectionResult) :
  HtmlDetector.firstFound w searchPaths = Ok (Some found) ->
  exists htmlPath, In htmlPath searchPaths
                   /\ HtmlDetector.findHTMLFile w htmlPath = Ok (Some found).
Proof.
  induction searchPaths as [|htmlPath rest IH]; cbn [HtmlDetector.firstFound]; [done|].
  unfold obind.
  destruct (HtmlDetector.findHTMLFile w htmlPath) as [[result|]|] eqn:Hfind; [| |done].
  - intros [= <-]. exists htmlPath. split; [by left | done].
  - intros (p & Hin & Hp)%IH. exists p. split; [by right | done].
Qed.

(** X17. A result of [detectHTML] always describes a file that can be
    read: its [path] is the path of a readable file, and its
    [hasExistingCSP] says whether the text of that file matches the
    detection pattern. The file was found through one of the search paths
    of the mode. *)
Theorem detectHTML_describes_file (w : World) (devMode : bool)
  (found : HtmlDetector.HTMLDetectionResult) :
  HtmlDetector.detectHTML w devMode = Ok (Some found) ->
  (exists content,
     Fs.readFileSync w (HtmlDetector.path found) = Ok content
     /\ HtmlDetector.hasExistingCSP found = HtmlDetector.cspDetected content)
  /\ exists searchPaths htmlPath,
       HtmlDetector.getHTMLSearchPaths w devMode = Ok searchPaths
       /\ In htmlPath searchPaths
       /\ HtmlDetector.findHTMLFile w htmlPath = Ok (Some found).
Proof.
  unfold HtmlDetector.detectHTML, obind.
  destruct (HtmlDetector.getHTMLSearchPaths w devMode) as [searchPaths|]; [|done].
  intros (htmlPath & Hin & Hfind)%firstFound_origin. split.
  - by apply findHTMLFile_describes in Hfind.
  - by exists searchPaths, htmlPath.
Qed.

(** X18. In production mode the build outputs named in [angular.json] are
    searched before every fixed path: when the first of them names a
    readable file, [detectHTML(false)] returns that file, whatever else
    the working directory holds. In development mode [angular.json] is not
    consulted: the search paths are the fixed list. *)
Theorem detectHTML_production_prefers_outputPath (w : World) (first content : string)
  (others : list string) :
  HtmlDetector.getAngularBuildPaths w = Ok (first :: others) ->
  Js.includes_char "*" first = false ->
  Fs.readFileSync w (path_resolve (cwd w) [first]) = Ok content ->
  HtmlDetector.detectHTML w false
  = Ok (Some (HtmlDetector.mkDetection (path_resolve (cwd w) [first])
                (path_dirname first) (HtmlDetector.cspDetected content)))
  /\ HtmlDetector.getHTMLSearchPaths w true = Ok HtmlDetector.HTML_SEARCH_PATHS_DEV.
Proof.
  intros Hpaths Hplain Hread. split; [|reflexivity].
  unfold HtmlDetector.detectHTML, HtmlDetector.getHTMLSearchPaths.
  rewrite Hpaths. unfold obind. cbn [app HtmlDetector.firstFound].
  unfold HtmlDetector.findHTMLFile. rewrite Hplain.
  rewrite (readFileSync_exists _ _ _ Hread).
  unfold HtmlDetector.createHTMLDetectionResult, obind. by rewrite Hread.
Qed.

End Detection.

(** ** The workspace pattern *)

Lemma rev_onto_app (s acc : string) : Js.rev_onto s acc = Js.rev s +:+ acc.
Proof.
  unfold Js.rev. revert acc. induction s as [|c s IH]; intros acc; simpl; [done|].
  rewrite IH, (IH (String c EmptyString)), append_assoc. by autorewrite with js.
Qed.

Lemma rev_cons (c : ascii) (s : string) :
  Js.rev (String c s) = Js.rev s +:+ String c EmptyString.
Proof. unfold Js.rev at 1. simpl. apply rev_onto_app. Qed.

Lemma rev_app (a b : string) : Js.rev (a +:+ b) = Js.rev b +:+ Js.rev a.
Proof.
  induction a as [|c a IH]; autorewrite with js.
  - by rewrite append_empty.
  - by rewrite !rev_cons, IH, append_assoc.
Qed.

Lemma rev_involutive (s : string) : Js.rev (Js.rev s) = s.
Proof.
  induction s as [|c s IH]; [done|].
  rewrite rev_cons, rev_app, IH. reflexivity.
Qed.

Lemma all_chars_rev (p : ascii -> bool) (s : string) :
  Js.all_chars p (Js.rev s) = Js.all_chars p s.
Proof.
  induction s as [|c s IH]; [done|].
  rewrite rev_cons, all_chars_app, IH. simpl. by rewrite andb_true_r, andb_comm.
Qed.

Lemma rev_nonempty (s : string) : s <> EmptyString -> Js.rev s <> EmptyString.
Proof.
  destruct s as [|c s]; [done|]. intros _. rewrite rev_cons.
  by destruct (Js.rev s).
Qed.

(** X19. The pattern with which [detectAngularWorkspaceRoot] recognises a
    page of a workspace project reads a path made of a prefix, [projects],
    a project name, [src] and [index.html], joined by slashes or
    backslashes, as that prefix and that name, whenever the name is not
    empty and holds no separator and the prefix holds no line
    terminator. *)
Theorem workspace_match_project (workspaceRoot projectName : string)
  (sep1 sep2 sep3 : ascii) :
  HtmlDetector.is_sep sep1 = true -> HtmlDetector.is_sep sep2 = true ->
  HtmlDetector.is_sep sep3 = true ->
  projectName <> EmptyString ->
  Js.all_chars (fun c => negb (HtmlDetector.is_sep c)) projectName = true ->
  Shape.one_line workspaceRoot = true ->
  HtmlDetector.workspace_match
    (workspaceRoot +:+ "projects" +:+ String sep1 projectName
     +:+ String sep2 "src" +:+ String sep3 "index.html")
  = Some (workspaceRoot, projectName).
Proof.
  intros Hs1 Hs2 Hs3 Hne Hname Hroot. unfold HtmlDetector.workspace_match.
  rewrite !rev_app, (rev_cons sep1), (rev_cons sep2), (rev_cons sep3), !append_assoc.
  rewrite strip_lit_eqc_app. cbn [mbind option_bind]. autorewrite with js.
  cbv beta iota. rewrite Hs3. cbn [mbind option_bind].
  rewrite strip_lit_eqc_app. cbn [mbind option_bind]. autorewrite with js.
  cbv beta iota. rewrite Hs2. cbn [mbind option_bind].
  rewrite (span_len_app_stop _ (Js.rev projectName) (String sep1 _)).
  2:{ by rewrite all_chars_rev. }
  2:{ by rewrite Hs1. }
  destruct (String.length (Js.rev projectName)) as [|n] eqn:Hlen.
  { apply rev_nonempty in Hne. by destruct (Js.rev projectName). }
  cbn [Nat.eqb mbind option_bind]. rewrite <- Hlen.
  rewrite drop_app_length, take_app_length. cbv beta iota. rewrite Hs1.
  cbn [mbind option_bind].
  rewrite strip_lit_eqc_app. cbn [mbind option_bind].
  unfold Shape.one_line in Hroot. rewrite all_chars_rev, Hroot.
  by rewrite !rev_involutive.
Qed.

(** ** What an injection changes *)

Lemma world_ext (a b : World) :
  cwd a = cwd b -> fs a = fs b -> env a = env b -> a = b.
Proof. destruct a, b; simpl; by intros -> -> ->. Qed.

Section Effects.
Context {H : Host}.

Lemma writeFileSync_world (w w' : World) (p content : string) :
  Fs.writeFileSync w p content = Ok w' ->
  w' = mkWorld (cwd w) (<[path_resolve (cwd w) [p] := File content true]> (fs w)) (env w).
Proof.
  unfold Fs.writeFileSync.
  destruct (Fs.lookup w p) as [[c [|]| |entries]|]; by intros [= <-].
Qed.

Lemma injectCSP_outcome (this : CSPInjector.injector) (path : string)
  (csp : option string) (w : World) :
  match CSPInjector.injectCSP this path csp w with
  | (Ok result, w') =>
      exists html : string,
        Fs.readFileSync w path = Ok html
        /\ CSPInjector.htmlPath result = path
        /\ CSPInjector.resultEnvVars result = CSPInjector.envVars this
        /\ (forall given, csp = Some given -> CSPInjector.cspString result = given)
        /\ (is_Some (CSPInjector.nonce result)
            <-> Obj.truthy (Obj.get_opt (Some (CSPInjector.config this)) "useNonce") = true)
        /\ w' = mkWorld (cwd w)
                  (<[path_resolve (cwd w) [path] :=
                       File (HtmlDetector.modifiedHtml
                               (HtmlDetector.processHTMLContent html
                                  (CSPInjector.cspString result)
                                  (Obj.truthy
                                     (Obj.get_opt (Some (CSPInjector.config this))
                                        "reportOnly")))) true]>
                     (fs w))
                  (env w)
  | (Throw message, w') =>
      w' = w /\ exists cause, message = "Failed to inject CSP: " +:+ cause
  end.
Proof.
  unfold CSPInjector.injectCSP, CSPInjector.injectCSP_try.
  set (useNonce := Obj.truthy (Obj.get_opt (Some (CSPInjector.config this)) "useNonce")).
  destruct (obind (Fs.readFileSync w path) _) as [[result w']|e] eqn:Hrun;
    [|split; [done | by exists e]].
  unfold obind in Hrun.
  destruct (Fs.readFileSync w path) as [html|]; [|done].
  destruct (if useNonce then _ else _) as [nonce|] eqn:Hnonce; [|done].
  destruct (match csp with Some given => Ok given | None => _ end) as [cspText|] eqn:Hcsp;
    [|done].
  destruct (Fs.writeFileSync w path _) as [w2|] eqn:Hwrite; [|done].
  injection Hrun as <- <-. apply writeFileSync_world in Hwrite.
  exists html. repeat split; try done.
  - intros given ->. by injection Hcsp as <-.
  - cbn [CSPInjector.nonce]. destruct useNonce; [done|].
    injection Hnonce as <-. by intros [? ?].
  - cbn [CSPInjector.nonce]. intros Huse. rewrite Huse in Hnonce.
    destruct (CSPInjector.generateNonce this); [|done]. injection Hnonce as <-. by eexists.
Qed.

(** X20. When [injectCSP] returns, the page could be read, the result
    names the path it was given, carries the variables of the injector,
    the policy it was given if it was given one, and a nonce exactly when
    [useNonce] is set; and the only change to the process is that the file
    at that path now holds the page as [processHTMLContent] rewrote it
    with that policy, in report-only form exactly when [reportOnly] is
    set. When it throws, nothing was changed, and the message
    starts with [Failed to inject CSP: ]. *)
Theorem injectCSP_effect (this : CSPInjector.injector) (path : string)
  (csp : option string) (w : World) :
  match CSPInjector.injectCSP this path csp w with
  | (Ok result, w') =>
      exists html : string,
        Fs.readFileSync w path = Ok html
        /\ CSPInjector.htmlPath result = path
        /\ CSPInjector.resultEnvVars result = CSPInjector.envVars this
        /\ (forall given, csp = Some given -> CSPInjector.cspString result = given)
        /\ (is_Some (CSPInjector.nonce result)
            <-> Obj.truthy (Obj.get_opt (Some (CSPInjector.config this)) "useNonce") = true)
        /\ w' = mkWorld (cwd w)
                  (<[path_resolve (cwd w) [path] :=
                       File (HtmlDetector.modifiedHtml
                               (HtmlDetector.processHTMLContent html
                                  (CSPInjector.cspString result)
                                  (Obj.truthy
                                     (Obj.get_opt (Some (CSPInjector.config this))
                                        "reportOnly")))) true]>
                     (fs w))
                  (env w)
  | (Throw message, w') =>
      w' = w /\ exists cause, message = "Failed to inject CSP: " +:+ cause
  end.
Proof. apply injectCSP_outcome. Qed.

Lemma injectCSP_frame (this : CSPInjector.injector) (path : string)
  (csp : option string) (w : World) :
  match CSPInjector.injectCSP this path csp w with
  | (Ok result, w') =>
      cwd w' = cwd w /\ env w' = env w
      /\ CSPInjector.htmlPath result = path
      /\ forall p, p <> path_resolve (cwd w) [path] -> fs w' !! p = fs w !! p
  | (Throw _, w') => w' = w
  end.
Proof.
  pose proof (injectCSP_outcome this path csp w) as Heffect.
  destruct (CSPInjector.injectCSP this path csp w) as [[result|message] w'].
  - destruct Heffect as (html & _ & Hpath & _ & _ & _ & ->). simpl.
    repeat split; try done. intros p Hp. by rewrite lookup_insert_ne.
  - by destruct Heffect.
Qed.
End Effects.

Section Frame.
Context {H : Host}.

Lemma injection_frame (options : CSPInjector.InjectOptions) (projectRoot path : string)
  (w : World) :
  match CSPInjector.injection options projectRoot path w with
  | (Ok result, w') =>
      cwd w' = cwd w /\ env w' = env w
      /\ CSPInjector.htmlPath result = path
      /\ forall p, p <> path_resolve (cwd w) [path] -> fs w' !! p = fs w !! p
  | (Throw _, w') => w' = w
  end.
Proof.
  unfold CSPInjector.injection.
  destruct (obind _ _) as [this|e]; [apply injectCSP_frame | done].
Qed.

Lemma setup_cwd_fs (w : World) (devMode : option bool) :
  cwd (NodeEnvManager.setupEnvironmentForMode w devMode).2 = cwd w
  /\ fs (NodeEnvManager.setupEnvironmentForMode w devMode).2 = fs w.
Proof.
  by destruct (setup_shape w devMode) as [(-> & _)|(value & -> & _)].
Qed.

Lemma restore_cwd_fs (w : World) (shouldRestore : bool) (original : option string) :
  cwd (NodeEnvManager.restoreEnvironment w shouldRestore original) = cwd w
  /\ fs (NodeEnvManager.restoreEnvironment w shouldRestore original) = fs w.
Proof. by destruct shouldRestore, original. Qed.

Lemma execute_frame (options : CSPInjector.InjectOptions) (projectRoot path : string)
  (w : World) :
  match CSPInjector.executeInjectionWithEnvironment options projectRoot path w with
  | (Ok result, w') =>
      cwd w' = cwd w /\ env w' = env w
      /\ CSPInjector.htmlPath result = path
      /\ forall p, p <> path_resolve (cwd w) [path] -> fs w' !! p = fs w !! p
  | (Throw _, w') => w' = w
  end.
Proof.
  pose proof (executeInjectionWithEnvironment_env options projectRoot path w) as Henv.
  pose proof (restore_setup_world w (CSPInjector.opt_devMode options)) as Hback.
  destruct (setup_cwd_fs w (CSPInjector.opt_devMode options)) as [Hcwd Hfs].
  unfold CSPInjector.executeInjectionWithEnvironment in *.
  destruct (NodeEnvManager.setupEnvironmentForMode w (CSPInjector.opt_devMode options))
    as [shouldRestore w1].
  pose proof (injection_frame options projectRoot path w1) as Hbody.
  destruct (CSPInjector.injection options projectRoot path w1) as [[result|e] w2];
    simpl in *.
  - destruct Hbody as (Hcwd2 & _ & Hpath & Hframe).
    destruct (restore_cwd_fs w2 shouldRestore (env w !! "NODE_ENV")) as [-> ->].
    repeat split; try congruence.
    intros p Hp. rewrite Hframe, Hfs; [done | congruence].
  - by subst w2.
Qed.

(** X21. [CSPInjector.inject] changes one file at most. When it returns,
    the working directory and the process environment are what they were,
    and every file other than the page named in the result is untouched;
    when it throws, the whole process is as it was before the call. *)
Theorem inject_changes_only_the_page (options : CSPInjector.InjectOptions) (w : World) :
  match CSPInjector.inject options w with
  | (Ok result, w') =>
      cwd w' = cwd w /\ env w' = env w
      /\ forall p, p <> path_resolve (cwd w) [CSPInjector.htmlPath result] ->
                   fs w' !! p = fs w !! p
  | (Throw _, w') => w' = w
  end.
Proof.
  unfold CSPInjector.inject.
  destruct (CSPInjector.resolveProjectPaths w options) as [[projectRoot path]|e]; [|done].
  pose proof (execute_frame options projectRoot path w) as Hframe.
  destruct (CSPInjector.executeInjectionWithEnvironment options projectRoot path w)
    as [[result|message] w']; [|done].
  destruct Hframe as (? & ? & -> & ?). done.
Qed.

(** X22. When the page cannot be found, [CSPInjector.inject] throws before
    it touches anything: for a given [htmlPath] at which nothing exists
    the message is [HTML file not found: ] followed by the resolved path;
    without a given path, when the search finds no page, the message asks
    for [htmlPath]. *)
Theorem inject_page_not_found (options : CSPInjector.InjectOptions) (w : World) :
  (forall p, CSPInjector.opt_htmlPath options = Some p ->
             p <> EmptyString ->
             Fs.existsSync w (path_resolve (cwd w) [p]) = false ->
             CSPInjector.inject options w
             = (Throw ("HTML file not found: " +:+ path_resolve (cwd w) [p]), w))
  /\ (Config.truthy_path (CSPInjector.opt_htmlPath options) = false ->
      HtmlDetector.detectHTML w (default false (CSPInjector.opt_devMode options)) = Ok None ->
      CSPInjector.inject options w
      = (Throw "HTML file not found. Please specify htmlPath or ensure index.html exists in common locations.",
         w)).
Proof.
  unfold CSPInjector.inject, CSPInjector.resolveProjectPaths. split.
  - intros p -> Hp Hmissing. cbn [Config.truthy_path default].
    destruct p; [done|]. cbn [Js.is_empty negb]. cbv iota. unfold id.
    by rewrite Hmissing.
  - intros -> ->. reflexivity.
Qed.

(** X23. For an injector whose directives are of the declared type (a list
    of texts for every directive), [buildCSP] does not throw, and the
    policy is the directives in the order of the configuration, joined by
    a semicolon and a space; each is the name of the directive, a space,
    and its sources joined by spaces, where the nonce token stands for the
    nonce when there is one, placeholders are resolved from the variables
    of the injector, and a source that comes out blank is left out. *)
Theorem buildCSP_typed (this : CSPInjector.injector) (nonce : option string)
  (directives : list (string * list string)) :
  Obj.get_opt (Some (CSPInjector.config this)) "directives"
  = Some (Shape.typedDirectives directives) ->
  CSPInjector.buildCSP this nonce
  = Ok (Js.join "; " (map (Shape.directiveText this nonce) directives)).
Proof.
  intros Hdirectives. unfold CSPInjector.buildCSP. rewrite Hdirectives.
  cbn [Shape.typedDirectives Obj.entries Obj.own_props obind].
  assert (Hvalues : forall sources,
             CSPInjector.processValues this (map JStr sources) nonce
             = Ok (map (Shape.sourceText this nonce) sources)).
  { induction sources as [|source sources IH]; [done|].
    cbn [map CSPInjector.processValues CSPInjector.processCSPValue].
    unfold Shape.sourceText at 1.
    destruct (_ && _); cbn [obind]; by rewrite IH. }
  assert (Hparts : CSPInjector.buildDirectives this
                     (map (fun directive => (directive.1, CSPInjector.strs directive.2))
                          directives) nonce
                   = Ok (map (Shape.directiveText this nonce) directives)).
  { clear Hdirectives.
    induction directives as [|[name sources] directives IH]; [done|].
    cbn [map CSPInjector.buildDirectives fst snd]. unfold CSPInjector.strs at 1.
    rewrite Hvalues. cbn [obind]. by rewrite IH. }
  by rewrite Hparts.
Qed.

End Frame.

(** ** The command line *)

Lemma parseLoop_from (args : list string) :
  forall turns i result,
    length args <= i + turns ->
    Cli.parseLoop turns args i result = Shape.parseFrom (drop i args) result.
Proof.
  induction turns as [|turns IH]; intros i result Hturns.
  - rewrite drop_ge by lia. reflexivity.
  - cbn [Cli.parseLoop].
    destruct (args !! i) as [arg|] eqn:Harg.
    2:{ apply lookup_ge_None in Harg. by rewrite drop_ge. }
    rewrite (drop_S _ _ _ Harg). cbn [Shape.parseFrom]. unfold Shape.classify.
    replace (i + 1) with (S i) by lia.
    destruct (Js.is_empty arg); [apply IH; lia|].
    assert (Hnamed : forall key,
               Cli.parseLoop turns args (i + (if Cli.hasValue args i then 2 else 1))
                 (Cli.setOption key (Cli.valueOrTrue (Cli.getArgumentValue args i)) result)
               = match drop (S i) args with
                 | [] => Cli.setOption key (Cli.Flag true) result
                 | next :: rest' =>
                     if Shape.usable next
                     then Shape.parseFrom rest' (Cli.setOption key (Cli.Text next) result)
                     else Shape.parseFrom (drop (S i) args)
                            (Cli.setOption key (Cli.Flag true) result)
                 end).
    { intros key. unfold Cli.hasValue, Cli.getArgumentValue, Shape.usable.
      replace (i + 1) with (S i) by lia.
      destruct (args !! S i) as [next|] eqn:Hnext.
      - rewrite (drop_S _ _ _ Hnext) at 1.
        destruct (Js.is_empty next) eqn:Hempty; cbn [negb andb].
        + rewrite IH by lia. by replace (i + 1) with (S i) by lia.
        + destruct (Js.startsWith next "-"); cbn [negb Cli.valueOrTrue].
          * rewrite IH by lia. by replace (i + 1) with (S i) by lia.
          * rewrite Hempty. cbn [negb]. rewrite IH by lia.
            by replace (i + 2) with (S (S i)) by lia.
      - apply lookup_ge_None in Hnext. rewrite (drop_ge _ (S i)) by lia.
        cbn [Cli.valueOrTrue]. rewrite IH by lia. by rewrite drop_ge by lia. }
    destruct (Js.startsWith arg "--"); [apply Hnamed|].
    destruct (_ && _); [apply Hnamed|]. apply IH. lia.
Qed.

Lemma parseFrom_origin :
  forall n args result,
    length args <= n ->
    (exists taken,
        Cli.positional (Shape.parseFrom args result) = Cli.positional result ++ taken
        /\ sublist taken (List.filter (fun arg => match Shape.classify arg with
                                                  | Shape.Plain => true
                                                  | _ => false
                                                  end) args))
    /\ (forall k v,
          Cli.options (Shape.parseFrom args result) !! k = Some v ->
          Cli.options result !! k = Some v
          \/ exists arg, In arg args /\ Shape.classify arg = Shape.Named k
                         /\ (v = Cli.Flag true
                             \/ exists next, In next args /\ Shape.usable next = true
                                             /\ v = Cli.Text next)).
Proof.
  assert (Hset : forall key value result k v,
             Cli.options (Cli.setOption key value result) !! k = Some v ->
             Cli.options result !! k = Some v \/ (k = key /\ v = value)).
  { intros key value result k v. unfold Cli.setOption.
    destruct (String.eqb key "__proto__"); [by left|]. cbn [Cli.options].
    destruct (decide (key = k)) as [->|Hne].
    - rewrite lookup_insert_eq. intros [= <-]. by right.
    - rewrite lookup_insert_ne by done. by left. }
  assert (Hpos : forall key value result,
             Cli.positional (Cli.setOption key value result) = Cli.positional result).
  { intros key value result. unfold Cli.setOption.
    by destruct (String.eqb key "__proto__"). }
  induction n as [|n IH]; intros args result Hn.
  { destruct args; [|simpl in Hn; lia]. split; [|by left].
    exists []. by rewrite app_nil_r. }
  destruct args as [|arg rest]; [split; [exists []; by rewrite app_nil_r | by left]|].
  simpl in Hn. cbn [Shape.parseFrom List.filter].
  destruct (Shape.classify arg) as [|key|] eqn:Hclass.
  - destruct (IH rest result ltac:(lia)) as [(taken & Htaken & Hsub) Hopts]. split.
    + by exists taken.
    + intros k v Hk. destruct (Hopts k v Hk) as [?|(a & Hin & Ha & Hv)]; [by left|].
      right. exists a. split; [by right|]. split; [done|].
      destruct Hv as [?|(next & Hnext & ?)]; [by left|].
      right. exists next. split; [by right | done].
  - destruct rest as [|next rest'].
    { split; [exists []; by rewrite Hpos, app_nil_r|].
      intros k v [?|[-> ->]]%Hset; [by left|].
      right. exists arg. split; [by left|]. split; [done | by left]. }
    destruct (Shape.usable next) eqn:Husable.
    + destruct (IH rest' (Cli.setOption key (Cli.Text next) result) ltac:(simpl in Hn; lia))
        as [(taken & Htaken & Hsub) Hopts]. split.
      * exists taken. rewrite Htaken, Hpos. split; [done|].
        cbn [List.filter]. destruct (Shape.classify next); try by apply sublist_cons.
        done. done.
      * intros k v Hk. destruct (Hopts k v Hk) as [[?|[-> ->]]%Hset|(a & Hin & Ha & Hv)].
        -- by left.
        -- right. exists arg. split; [by left|]. split; [done|].
           right. exists next. split; [right; by left | done].
        -- right. exists a. split; [right; by right|]. split; [done|].
           destruct Hv as [?|(x & Hx & ?)]; [by left|].
           right. exists x. split; [right; by right | done].
    + destruct (IH (next :: rest') (Cli.setOption key (Cli.Flag true) result)
                  ltac:(simpl in *; lia))
        as [(taken & Htaken & Hsub) Hopts]. split.
      * exists taken. by rewrite Htaken, Hpos.
      * intros k v Hk. destruct (Hopts k v Hk) as [[?|[-> ->]]%Hset|(a & Hin & Ha & Hv)].
        -- by left.
        -- right. exists arg. split; [by left|]. split; [done | by left].
        -- right. exists a. split; [by right|]. split; [done|].
           destruct Hv as [?|(x & Hx & ?)]; [by left|].
           right. exists x. split; [by right | done].
  - destruct (IH rest (Cli.pushPositional arg result) ltac:(lia))
      as [(taken & Htaken & Hsub) Hopts]. split.
    + exists (arg :: taken). cbn [Cli.pushPositional Cli.positional] in Htaken.
      rewrite Htaken, <- app_assoc. split; [done|]. by apply sublist_skip.
    + intros k v Hk. destruct (Hopts k v Hk) as [?|(a & Hin & Ha & Hv)]; [by left|].
      right. exists a. split; [by right|]. split; [done|].
      destruct Hv as [?|(next & Hnext & ?)]; [by left|].
      right. exists next. split; [by right | done].
Qed.

(** X24. The loop of [parseArguments] reads the command line from left to
    right: an empty argument is passed over; an argument that starts with
    two dashes, or with one dash and is longer than the dash, is an option
    named by what follows the dashes, and it takes the argument behind it
    as its value when that argument is not empty and does not start with a
    dash, and is [true] otherwise; every other argument is positional. So
    the positional arguments are arguments of that last kind, in the order
    given, and every option set comes from an argument that names it, with
    the value [true] or a usable argument as its text. *)
Theorem parseArguments_left_to_right (args : list string) :
  Cli.parseArguments args = Shape.parseFrom args (Cli.mkParsed ∅ [])
  /\ sublist (Cli.positional (Cli.parseArguments args))
       (List.filter (fun arg => match Shape.classify arg with
                                | Shape.Plain => true
                                | _ => false
                                end) args)
  /\ (forall k v,
        Cli.options (Cli.parseArguments args) !! k = Some v ->
        exists arg, In arg args /\ Shape.classify arg = Shape.Named k
                    /\ (v = Cli.Flag true
                        \/ exists next, In next args /\ Shape.usable next = true
                                        /\ v = Cli.Text next)).
Proof.
  assert (Hread : Cli.parseArguments args = Shape.parseFrom args (Cli.mkParsed ∅ [])).
  { unfold Cli.parseArguments. rewrite parseLoop_from by lia. reflexivity. }
  rewrite Hread.
  destruct (parseFrom_origin (length args) args (Cli.mkParsed ∅ []) (le_n _))
    as [(taken & Htaken & Hsub) Hopts].
  split; [done|]. split.
  - by rewrite Htaken.
  - intros k v Hk. destruct (Hopts k v Hk) as [Hempty|?]; [|done].
    simpl in Hempty. by rewrite lookup_empty in Hempty.
Qed.

Ltac read_args :=
  repeat first
    [ progress cbn [Shape.parseFrom]
    | match goal with
      | |- context [Shape.classify ?arg] =>
          let t := eval vm_compute in (Shape.classify arg) in
          change (Shape.classify arg) with t
      | H : Shape.usable ?next = _ |- context [Shape.usable ?next] => rewrite H
      | |- context [Shape.usable ?next] =>
          let t := eval vm_compute in (Shape.usable next) in
          change (Shape.usable next) with t
      end ].

(** X25. The options of an injection as they come out of a command line,
    for a page and a configuration file whose paths are not empty and do
    not start with a dash. The long and the short names give the same
    options; the word given for [--html] wins over the one given for [-h];
    a word behind [--dev] is taken as the value of [dev], so that neither
    the development mode nor a page is set; and a path that starts with a
    dash is not taken as the value of [--html]. *)
Theorem buildInjectOptions_of_command_line (htmlPath configPath : string) :
  Shape.usable htmlPath = true ->
  Shape.usable configPath = true ->
  Cli.buildInjectOptions
    (Cli.options (Cli.parseArguments ["--html"; htmlPath; "--config"; configPath; "--dev"]))
  = CSPInjector.mkOptions (Some htmlPath) (Some configPath) (Some true) None None
  /\ Cli.buildInjectOptions
       (Cli.options (Cli.parseArguments ["-d"; "-c"; configPath; "-h"; htmlPath]))
     = CSPInjector.mkOptions (Some htmlPath) (Some configPath) (Some true) None None
  /\ Cli.buildInjectOptions
       (Cli.options (Cli.parseArguments ["-h"; configPath; "--html"; htmlPath]))
     = CSPInjector.mkOptions (Some htmlPath) None None None None
  /\ Cli.buildInjectOptions (Cli.options (Cli.parseArguments ["--dev"; htmlPath]))
     = CSPInjector.mkOptions None None None None None
  /\ CSPInjector.opt_htmlPath
       (Cli.buildInjectOptions
          (Cli.options (Cli.parseArguments ["--html"; "-" +:+ htmlPath])))
     = None.
Proof.
  intros Hhtml Hconfig. unfold Cli.parseArguments.
  rewrite !parseLoop_from by (simpl; lia). cbn [drop].
  repeat split.
  - read_args. vm_compute. reflexivity.
  - read_args. vm_compute. reflexivity.
  - read_args. vm_compute. reflexivity.
  - read_args. vm_compute. reflexivity.
  - assert (Hdash : Shape.usable ("-" +:+ htmlPath) = false) by reflexivity.
    generalize dependent ("-" +:+ htmlPath). intros arg Hdash.
    cbn [Shape.parseFrom]. change (Shape.classify "--html") with (Shape.Named "html").
    cbv iota. rewrite Hdash.
    assert (Hset : forall result,
               Cli.options result !! "html" = Some (Cli.Flag true) ->
               Cli.options (match Shape.classify arg with
                            | Shape.Blank => result
                            | Shape.Named key => Cli.setOption key (Cli.Flag true) result
                            | Shape.Plain => Cli.pushPositional arg result
                            end) !! "html" = Some (Cli.Flag true)).
    { intros result Hresult. destruct (Shape.classify arg) as [|key|]; try done.
      unfold Cli.setOption. destruct (String.eqb key "__proto__"); [done|].
      cbn [Cli.options]. destruct (decide (key = "html")) as [->|Hne].
      - by rewrite lookup_insert_eq.
      - by rewrite lookup_insert_ne. }
    assert (Hbase : Cli.options (Cli.setOption "html" (Cli.Flag true) (Cli.mkParsed ∅ []))
                    !! "html" = Some (Cli.Flag true)) by (vm_compute; reflexivity).
    apply Hset in Hbase. clear Hset.
    revert Hbase. generalize (Cli.options
                               match Shape.classify arg with
                               | Shape.Blank =>
                                   Cli.setOption "html" (Cli.Flag true) (Cli.mkParsed ∅ [])
                               | Shape.Named key =>
                                   Cli.setOption key (Cli.Flag true)
                                     (Cli.setOption "html" (Cli.Flag true) (Cli.mkParsed ∅ []))
                               | Shape.Plain =>
                                   Cli.pushPositional arg
                                     (Cli.setOption "html" (Cli.Flag true) (Cli.mkParsed ∅ []))
                               end).
    intros options Hoptions.
    unfold Cli.buildInjectOptions, Cli.getOptionValue, Cli.HTML. cbn [List.find].
    cbn [CSPInjector.opt_htmlPath].
    rewrite bool_decide_eq_true_2 by (rewrite Hoptions; by eexists).
    cbn [Js.is_empty]. by rewrite Hoptions.
Qed.

(** ** The dry run *)

Section DryRun.
Context {H : Host}.

Lemma setNodeEnvForDryRun_setup (w : World) (injectOptions : CSPInjector.InjectOptions) :
  Cli.setNodeEnvForDryRun w injectOptions
  = NodeEnvManager.setupEnvironmentForMode w (CSPInjector.opt_devMode injectOptions).
Proof.
  unfold Cli.setNodeEnvForDryRun, NodeEnvManager.setupEnvironmentForMode.
  destruct (NodeEnvManager.node_env_falsy w); [done|].
  destruct (CSPInjector.opt_devMode injectOptions) as [[|]|]; cbn [andb].
  - by destruct (NodeEnvManager.node_env_is w "production").
  - by destruct (NodeEnvManager.node_env_is w "development").
  - done.
Qed.

Lemma determineProjectRoot_resolve (w : World) (injectOptions : CSPInjector.InjectOptions)
  (htmlPath : string) :
  Cli.determineProjectRootForDryRun w injectOptions htmlPath
  = (if negb (Config.truthy_path (CSPInjector.opt_configPath injectOptions))
     then HtmlDetector.detectAngularWorkspaceRoot w
            (if Config.truthy_path (CSPInjector.opt_configPath injectOptions)
             then path_dirname
                    (path_resolve (cwd w)
                       [default EmptyString (CSPInjector.opt_configPath injectOptions)])
             else cwd w)
            htmlPath
     else if Config.truthy_path (CSPInjector.opt_configPath injectOptions)
          then path_dirname
                 (path_resolve (cwd w)
                    [default EmptyString (CSPInjector.opt_configPath injectOptions)])
          else cwd w).
Proof.
  unfold Cli.determineProjectRootForDryRun, HtmlDetector.detectAngularWorkspaceRoot.
  by destruct (Config.truthy_path (CSPInjector.opt_configPath injectOptions)).
Qed.

Lemma findHTMLForDryRun_resolve (w : World) (injectOptions : CSPInjector.InjectOptions)
  (htmlPath : string) (detected : HtmlDetector.HTMLDetectionResult) :
  Cli.findHTMLForDryRun w injectOptions = Cli.Returned (htmlPath, detected) ->
  HtmlDetector.path detected = htmlPath
  /\ CSPInjector.resolveProjectPaths w injectOptions
     = Ok (Cli.determineProjectRootForDryRun w injectOptions htmlPath, htmlPath).
Proof.
  rewrite determineProjectRoot_resolve.
  unfold Cli.findHTMLForDryRun, CSPInjector.resolveProjectPaths.
  destruct (Config.truthy_path (CSPInjector.opt_htmlPath injectOptions)).
  - destruct (Fs.existsSync w _); cbn [negb]; [|done].
    destruct (Fs.readFileSync w _); [|done]. by intros [= <- <-].
  - destruct (HtmlDetector.detectHTML w _) as [[found|]|]; try done.
    by intros [= <- <-].
Qed.

(** X26. A dry run leaves the process as it found it, however it ends: no
    file is written, and [NODE_ENV], set up for the mode while the
    variables and the configuration are loaded, is put back. *)
Theorem dry_run_changes_nothing (injectOptions : CSPInjector.InjectOptions) (w : World) :
  (Cli.handleDryRunCommand injectOptions w).2 = w.
Proof.
  unfold Cli.handleDryRunCommand.
  destruct (Cli.findHTMLForDryRun w injectOptions) as [[htmlPath detected]| |]; try done.
  rewrite setNodeEnvForDryRun_setup.
  pose proof (restore_setup_world w (CSPInjector.opt_devMode injectOptions)) as Hback.
  by destruct (NodeEnvManager.setupEnvironmentForMode w _) as [shouldRestore w1].
Qed.

(** X27. What a dry run reports is what the injection works with. When
    the dry run of the options of a command line gets as far as its
    report, [CSPInjector.inject] with the same options in the same process
    finds the same page, sets the mode up in the same way, and injects
    with the variables and the configuration of the report; and it
    restores the mode afterwards. *)
Theorem dry_run_foretells_inject (htmlPath configPath : option string)
  (devMode : option bool) (w w' : World) (report : Cli.DryRun) :
  let injectOptions := CSPInjector.mkOptions htmlPath configPath devMode None None in
  Cli.handleDryRunCommand injectOptions w = (Cli.Returned report, w') ->
  CSPInjector.inject injectOptions w
  = let (shouldRestore, w1) := NodeEnvManager.setupEnvironmentForMode w devMode in
    let (result, w2) :=
      CSPInjector.injectCSP
        (CSPInjector.new (Some (Cli.config report)) (Some (Cli.envVars report)))
        (HtmlDetector.path (Cli.detectedHTML report)) None w1 in
    (result, NodeEnvManager.restoreEnvironment w2 shouldRestore (env w !! "NODE_ENV")).
Proof.
  intros injectOptions. unfold Cli.handleDryRunCommand.
  destruct (Cli.findHTMLForDryRun w injectOptions) as [[page detected]| |] eqn:Hfind;
    try done.
  apply findHTMLForDryRun_resolve in Hfind as [Hpath Hresolve].
  rewrite setNodeEnvForDryRun_setup.
  unfold CSPInjector.inject. rewrite Hresolve.
  unfold CSPInjector.executeInjectionWithEnvironment.
  change (CSPInjector.opt_devMode injectOptions) with devMode.
  destruct (NodeEnvManager.setupEnvironmentForMode w devMode) as [shouldRestore w1].
  unfold CSPInjector.injection, obind.
  change (CSPInjector.opt_envVars injectOptions) with (@None (gmap string string)).
  change (CSPInjector.opt_config injectOptions) with (@None json).
  change (CSPInjector.opt_configPath injectOptions) with configPath.
  cbn [Obj.truthy].
  destruct (CSPInjector.loadEnvironmentVariables w1 _) as [loadedVars|]; [|done].
  destruct (CSPInjector.loadConfig w1 configPath (Some loadedVars)) as [loadedConfig|];
    [|done].
  cbn [Cli.lift]. intros [= <- _]. cbn [Cli.config Cli.envVars Cli.detectedHTML].
  by rewrite Hpath.
Qed.

End DryRun.

(** ** The shared pattern *)

Lemma search_drop {G} (m : Js.matcher G) (s : string) :
  forall i, Js.search m (Js.drop i s) <> None -> Js.search m s <> None.
Proof.
  induction s as [|c t IH]; intros [|i]; simpl; try done.
  intros Hfound. destruct (m (String c t)) as [[g n]|]; [done|].
  specialize (IH i Hfound). by destruct (Js.search m t) as [[[[b g] mt] a]|].
Qed.

(** X28. The resolver of the environment module always leaves the shared
    pattern at rest: whatever [lastIndex] it finds, it leaves 0, so the
    next call starts from 0. A call that finds the pattern elsewhere than
    at rest returns either the template as it is or what it returns from
    rest, nothing else. *)
Theorem environment_resolve_restores_pattern (lastIndex : nat) (template : string)
  (V : gmap string string) :
  (Environment.resolveTemplateVariables lastIndex template V).2 = 0
  /\ ((Environment.resolveTemplateVariables lastIndex template V).1 = template
      \/ (Environment.resolveTemplateVariables lastIndex template V).1
         = (Environment.resolveTemplateVariables 0 template V).1)
  /\ forall template' V',
       Environment.resolveTemplateVariables
         (Environment.resolveTemplateVariables lastIndex template V).2 template' V'
       = Environment.resolveTemplateVariables 0 template' V'.
Proof.
  assert (Hrest : (Environment.resolveTemplateVariables lastIndex template V).2 = 0).
  { unfold Environment.resolveTemplateVariables, Environment.test_global.
    destruct (String.length template <? lastIndex)%nat; [reflexivity|].
    destruct (Js.search _ _) as [[[[b g] mt] a]|]; reflexivity. }
  split; [exact Hrest|]. split; [|intros template' V'; by rewrite Hrest].
  unfold Environment.resolveTemplateVariables, Environment.test_global.
  destruct (String.length template <? lastIndex)%nat; [by left|].
  change (String.length template <? 0)%nat with false. cbv iota.
  change (Js.drop 0 template) with template.
  destruct (Js.search Constants.TEMPLATE_VARIABLE (Js.drop lastIndex template))
    as [[[[b g] mt] a]|] eqn:Hfound; [|by left].
  right. pose proof (search_drop Constants.TEMPLATE_VARIABLE template lastIndex) as Hwhole.
  rewrite Hfound in Hwhole. specialize (Hwhole ltac:(done)).
  by destruct (Js.search Constants.TEMPLATE_VARIABLE template) as [[[[b' g'] mt'] a']|].
Qed.

(** X29. The two resolvers differ by the [NG_] fallback alone: the
    resolver of the environment module, called with the pattern at rest,
    and the resolver of the configuration loader, which [buildCSP] uses,
    return the same text whenever no placeholder of the template is
    without a value of its own and with a value under [NG_]. *)
Theorem resolvers_agree_without_fallback (template : string) (V : gmap string string) :
  (forall name, In name (Spec.placeholders template) ->
                V !! name = None -> V !! ("NG_" +:+ name) = None) ->
  (Environment.resolveTemplateVariables 0 template V).1
  = ConfigLoader.resolveTemplateVariables template V.
Proof.
  intros Hfallback. rewrite environment_resolve_at_rest, resolve_pieces. cbn [fst].
  f_equal. apply map_ext_in. intros [c|name matched] Hin; [reflexivity|].
  cbn [Spec.resolved_ng Spec.resolved].
  destruct (Js.member V name) eqn:Hmember; [reflexivity|].
  assert (Hname : V !! name = None).
  { unfold Js.member in Hmember. by destruct (V !! name). }
  unfold Js.member. rewrite Hfallback, inherited_NG; [reflexivity| |exact Hname].
  unfold Spec.placeholders. apply (in_map fst _ (name, matched)). by apply hits_In.
Qed.

(** ** The configuration wizard *)

(** X30. A configuration the wizard writes for one of its four frameworks
    has a [script-src] and a [style-src]. The nonce token is in both
    exactly when a nonce was asked for. [style-src] always allows
    [unsafe-inline]; [script-src] allows it exactly when the configuration
    type is [development] or the framework is the generic one. The
    settings [useNonce] and [reportOnly] are the answers given. *)
Theorem createInteractiveConfig_sources (choices : Cli.InteractiveConfig) :
  In (Cli.framework choices) ["react"; "vite"; "angular"; "generic"] ->
  let config := Cli.createInteractiveConfig choices in
  let scriptSrc := Shape.texts (Shape.directive config "script-src") in
  let styleSrc := Shape.texts (Shape.directive config "style-src") in
  Shape.directive config "script-src" = Some (CSPInjector.strs scriptSrc)
  /\ Shape.directive config "style-src" = Some (CSPInjector.strs styleSrc)
  /\ (In "'nonce-{{nonce}}'" scriptSrc <-> Cli.useNonce choices = true)
  /\ (In "'nonce-{{nonce}}'" styleSrc <-> Cli.useNonce choices = true)
  /\ In "'unsafe-inline'" styleSrc
  /\ (In "'unsafe-inline'" scriptSrc
      <-> Cli.configType choices = "development" \/ Cli.framework choices = "generic")
  /\ Obj.get_opt (Some config) "useNonce" = Some (JBool (Cli.useNonce choices))
  /\ Obj.get_opt (Some config) "reportOnly" = Some (JBool (Cli.reportOnly choices)).
Proof.
  destruct choices as [framework useNonce reportOnly includeEnvVars configType].
  cbn [Cli.framework Cli.useNonce Cli.configType Cli.reportOnly].
  intros Hframework. cbv zeta.
  unfold Cli.createInteractiveConfig.
  cbn [Cli.framework Cli.useNonce Cli.configType Cli.reportOnly Cli.includeEnvVars].
  unfold Cli.getFrameworkDirectives, Cli.frameworkSpecific, Cli.scriptSrc,
    Cli.addEnvironmentVariables, Cli.frameworkPrefixes.
  destruct (String.eqb_spec configType "development") as [->|Htype];
    destruct Hframework as [<-|[<-|[<-|[<-|[]]]]];
    destruct useNonce, includeEnvVars;
    vm_compute;
    repeat split; try (intros; discriminate); try tauto;
    try (intros Hin; repeat destruct Hin as [Hin|Hin]; try discriminate; tauto);
    try (intros [Hin|Hin]; congruence).
Qed.

(** ** The properties at work on concrete projects *)

Ltac distinct_names :=
  unfold Shape.distinct; apply (bool_decide_unpack _); vm_compute; exact I.

(** The [.env] of the React project, read for [REACT_APP_]. *)
Lemma parseEnvFile_entries_witness :
  Js.startsWith "REACT_APP_API_URL" "REACT_APP_" = true
  /\ Shape.identifier "REACT_APP_API_URL" = true
  /\ Shape.one_line "https://api.example.com" = true
  /\ exists content, Fs.readFileSync (H := posix) Examples.reactProject "/app/.env" = Ok content.
Proof.
  apply (parseEnvFile_entries (H := posix) Examples.reactProject "/app/.env" "REACT_APP_"
           "REACT_APP_API_URL" "https://api.example.com").
  vm_compute. reflexivity.
Defined.

(** A quoted VITE variable appended behind a comment line. *)
Lemma parseEnvText_appended_line_witness :
  Environment.parseEnvText "VITE_"
    ("# settings" +:+ Shape.newline +:+ "VITE_API" +:+ "=" +:+ "'https://a.example'")
  = <["VITE_API" := "https://a.example"]> ∅.
Proof.
  refine (eq_trans (proj1 (parseEnvText_appended_line "VITE_" "# settings" "VITE_API"
                             "'https://a.example'" _ _ _)) _);
    vm_compute; reflexivity.
Defined.

(** The React project: its variable comes from [.env.local]. *)
Lemma loadReactEnv_keys_witness :
  Environment.is_react_or_vite "REACT_APP_API_URL" = true
  /\ (env Examples.reactProject !! "REACT_APP_API_URL" = Some "https://local.api.example.com"
      \/ exists envFile,
           In envFile (Environment.envFiles Examples.reactProject)
           /\ Spec.fileVars (H := posix) Examples.reactProject "/app" envFile
                !! "REACT_APP_API_URL" = Some "https://local.api.example.com").
Proof.
  apply (loadReactEnv_keys (H := posix) Examples.reactProject "/app" "REACT_APP_API_URL"
           "https://local.api.example.com").
  vm_compute. reflexivity.
Defined.

(** The Angular project with [apiUrl]. *)
Lemma parseAngularEnvFile_entries_witness :
  (exists rest, "NG_API_URL" = "NG_" +:+ rest
                /\ Js.all_chars Environment.constant_char rest = true)
  /\ Environment.isValidEnvironmentValue "https://app1.com" = true
  /\ "https://app1.com" <> "true" /\ "https://app1.com" <> "false".
Proof.
  apply (parseAngularEnvFile_entries (H := posix)
           (Examples.angularProject Examples.environmentWithUrl) Examples.environmentTs
           "NG_API_URL" "https://app1.com").
  vm_compute. reflexivity.
Defined.

(** The loader of the environment module on the React project. *)
Lemma loadEnvironmentVariables_keys_witness :
  Config.is_framework_key "REACT_APP_API_URL" = true
  /\ (ProjectDetection.isAngularProject (H := posix) Examples.reactProject "/app" = true ->
      Js.startsWith "REACT_APP_API_URL" "NG_" = true)
  /\ (ProjectDetection.isAngularProject (H := posix) Examples.reactProject "/app" = false ->
      ProjectDetection.isReactProject (H := posix) Examples.reactProject "/app" = true ->
      Environment.is_react_or_vite "REACT_APP_API_URL" = true).
Proof.
  apply (loadEnvironmentVariables_keys (H := posix) Examples.reactProject "/app" None
           (<["REACT_APP_API_URL" := "https://local.api.example.com"]> ∅)
           "REACT_APP_API_URL" "https://local.api.example.com");
    vm_compute; reflexivity.
Defined.

(** The same project run from a shell: [PATH] is returned as the shell
    has it. *)
Lemma injector_loader_includes_process_witness :
  (<["PATH" := "/usr/bin"]>
     (<["REACT_APP_API_URL" := "https://local.api.example.com"]> ∅) : gmap string string)
    !! "PATH" = env Worlds.shell !! "PATH".
Proof.
  refine (proj1 (injector_loader_includes_process (H := posix) Worlds.shell "/app"
                   (<["PATH" := "/usr/bin"]>
                      (<["REACT_APP_API_URL" := "https://local.api.example.com"]> ∅)) _)
            "PATH" _ _);
    first [discriminate | vm_compute; reflexivity].
Defined.

(** An [angular.json] that is the empty object. *)
Lemma angular_json_without_projects_throws_witness :
  Environment.loadEnvironmentVariables (H := posix) Worlds.bareWorkspace "/app" None
  = Throw "TypeError: Cannot convert undefined or null to object"
  /\ CSPInjector.loadEnvironmentVariables (H := posix) Worlds.bareWorkspace "/app"
     = Throw "TypeError: Cannot convert undefined or null to object".
Proof.
  apply (angular_json_without_projects_throws (H := posix) Worlds.bareWorkspace "/app" "{}"
           None []).
  - vm_compute. reflexivity.
  - vm_compute. reflexivity.
  - left. reflexivity.
Defined.

(** A configuration path at which nothing exists. *)
Lemma loadConfig_unreadable_path_witness :
  Config.loadConfig (H := posix) Examples.publicOnly CSPInjector.bases (Some "missing.json") None
  = (CSPInjector.DEFAULT_CONFIG, []).
Proof.
  refine (eq_trans (loadConfig_unreadable_path (H := posix) Examples.publicOnly
                      CSPInjector.bases "missing.json"
                      "ENOENT: no such file or directory, open 'missing.json'" None _) _);
    vm_compute; reflexivity.
Defined.

(** The default configuration under a configuration of a user that gives
    [script-src]: the user's list stands alone. *)
Lemma mergeConfigWithDefaults_fields_witness :
  Shape.directive
    (Config.mergeConfigWithDefaults CSPInjector.DEFAULT_CONFIG (Some Worlds.userConfig))
    "script-src"
  = Some (CSPInjector.strs ["'self'"; "https://cdn.example.com"]).
Proof.
  refine (eq_trans (proj2 (mergeConfigWithDefaults_fields CSPInjector.DEFAULT_CONFIG
                             (Some Worlds.userConfig) _ _ _ _) "script-src") _);
    first [distinct_names | vm_compute; reflexivity].
Defined.


(** A text with a field [constructor]. *)
Lemma safeJsonParse_protects_witness :
  exists parsed,
    JsonText.parse Worlds.guarded = Some (JObj parsed)
    /\ Obj.lookup_field "constructor" [("useNonce", JBool true)] = None
    /\ Obj.lookup_field "prototype" [("useNonce", JBool true)] = None
    /\ Obj.lookup_field "__proto__" [("useNonce", JBool true)]
       = match Obj.lookup_field "__proto__" parsed with
         | Some _ => Some JNull
         | None => None
         end
    /\ (forall k, k <> "constructor" -> k <> "prototype" -> k <> "__proto__" ->
                  Obj.lookup_field k [("useNonce", JBool true)] = Obj.lookup_field k parsed).
Proof.
  apply (safeJsonParse_protects (H := posix) Worlds.guarded [("useNonce", JBool true)]).
  vm_compute. reflexivity.
Defined.


(** The page found in the project whose only page is
    [public/index.html]. *)
Lemma detectHTML_describes_file_witness :
  (exists content,
     Fs.readFileSync (H := posix) Examples.publicOnly "/app/public/index.html" = Ok content
     /\ false = HtmlDetector.cspDetected content)
  /\ exists searchPaths htmlPath,
       HtmlDetector.getHTMLSearchPaths (H := posix) Examples.publicOnly false = Ok searchPaths
       /\ In htmlPath searchPaths
       /\ HtmlDetector.findHTMLFile (H := posix) Examples.publicOnly htmlPath
          = Ok (Some (HtmlDetector.mkDetection "/app/public/index.html" "public" false)).
Proof.
  apply (detectHTML_describes_file (H := posix) Examples.publicOnly false
           (HtmlDetector.mkDetection "/app/public/index.html" "public" false)).
  vm_compute. reflexivity.
Defined.

(** A built Angular project whose output path is [out/app], with another
    page in [dist]. *)
Lemma detectHTML_production_prefers_outputPath_witness :
  HtmlDetector.detectHTML (H := posix) Worlds.built false
  = Ok (Some (HtmlDetector.mkDetection "/app/out/app/index.html" "out/app" false))
  /\ Fs.existsSync (H := posix) Worlds.built "dist/index.html" = true.
Proof.
  split; [|vm_compute; reflexivity].
  refine (eq_trans (proj1 (detectHTML_production_prefers_outputPath (H := posix) Worlds.built
                             "out/app/index.html" Examples.page [] _ _ _)) _);
    vm_compute; reflexivity.
Defined.

(** The page of the workspace project [admin]. *)
Lemma workspace_match_project_witness :
  HtmlDetector.workspace_match "projects/admin/src/index.html" = Some (EmptyString, "admin").
Proof.
  apply (workspace_match_project EmptyString "admin" "/" "/" "/");
    first [vm_compute; reflexivity | discriminate].
Defined.

(** A page that does not exist, and no page to be found. *)
Lemma inject_page_not_found_witness :
  CSPInjector.inject (H := posix) Examples.missingPage Examples.publicOnlyDevelopment
  = (Throw "HTML file not found: /app/missing.html", Examples.publicOnlyDevelopment).
Proof.
  refine (eq_trans (proj1 (inject_page_not_found (H := posix) Examples.missingPage
                             Examples.publicOnlyDevelopment)
                      "missing.html" _ _ _) _);
    first [vm_compute; reflexivity | discriminate].
Defined.

(** The policy of an injector made without arguments. *)
Lemma buildCSP_typed_witness :
  CSPInjector.buildCSP (CSPInjector.new None None) None
  = Ok "default-src 'self'; style-src 'self' 'unsafe-inline'; img-src 'self' data: blob:; font-src 'self' data:; connect-src 'self'; worker-src 'self' blob:; manifest-src 'self'; script-src 'self' 'unsafe-inline'".
Proof.
  refine (eq_trans (buildCSP_typed (CSPInjector.new None None) None
                      Worlds.defaultDirectives _) _);
    vm_compute; reflexivity.
Defined.

(** A command line with a page, a configuration file and [--dev]. *)
Lemma buildInjectOptions_of_command_line_witness :
  Cli.buildInjectOptions
    (Cli.options (Cli.parseArguments
                    ["--html"; "dist/index.html"; "--config"; "csp.config.json"; "--dev"]))
  = CSPInjector.mkOptions (Some "dist/index.html") (Some "csp.config.json") (Some true)
      None None.
Proof.
  apply (proj1 (buildInjectOptions_of_command_line "dist/index.html" "csp.config.json"
                  eq_refl eq_refl)).
Defined.

(** The dry run of [--dev] in the project whose only page is
    [public/index.html]. *)
Lemma dry_run_foretells_inject_witness :
  CSPInjector.inject (H := posix) Worlds.devOnly Examples.publicOnly
  = let (shouldRestore, w1) :=
      NodeEnvManager.setupEnvironmentForMode Examples.publicOnly (Some true) in
    let (result, w2) :=
      CSPInjector.injectCSP (H := posix)
        (CSPInjector.new (Some (Cli.config Worlds.devReport))
           (Some (Cli.envVars Worlds.devReport)))
        (HtmlDetector.path (Cli.detectedHTML Worlds.devReport)) None w1 in
    (result,
     NodeEnvManager.restoreEnvironment w2 shouldRestore (env Examples.publicOnly !! "NODE_ENV")).
Proof.
  apply (dry_run_foretells_inject (H := posix) None None (Some true) Examples.publicOnly
           Examples.publicOnly Worlds.devReport).
  vm_compute. reflexivity.
Defined.

(** A template whose placeholder has a value of its own. *)
Lemma resolvers_agree_without_fallback_witness :
  (Environment.resolveTemplateVariables 0 "connect-src {{REACT_APP_API_URL}}"
     Examples.urlVars).1
  = ConfigLoader.resolveTemplateVariables "connect-src {{REACT_APP_API_URL}}" Examples.urlVars.
Proof.
  apply (resolvers_agree_without_fallback "connect-src {{REACT_APP_API_URL}}" Examples.urlVars).
  intros name [<-|[]]. vm_compute. discriminate.
Defined.

(** The wizard run for VITE in production with a nonce. *)
Lemma createInteractiveConfig_sources_witness :
  In "'nonce-{{nonce}}'"
     (Shape.texts (Shape.directive (Cli.createInteractiveConfig Worlds.viteChoices) "script-src")).
Proof.
  refine (proj2 (proj1 (proj2 (proj2 (createInteractiveConfig_sources Worlds.viteChoices _))))
            eq_refl).
  vm_compute. tauto.
Defined.
